(** * agricultura-colombia: the cleaning, geocoding and metrics utilities

    A shallow embedding of [src/utils/func_utils.py] (class [DataManager])
    and [src/utils/metrics.py] (class [MetricsComputation]), followed by the
    properties the specification states about them.

    The Python code is a thin layer over pandas.  The pandas operations it
    calls are modelled in [Module Pandas], each next to the call it stands
    for; the methods of the two classes are then transcribed statement by
    statement on top of that model. *)

From Stdlib Require Import ZArith QArith Qround Qabs Lqa Lia Ascii String List Sorted.
From stdpp Require Import base option list strings pretty.

Local Open Scope Z_scope.

(** ** Scalars, exceptions *)

(** A cell of a table.  pandas cells are Python objects: a [str], a number,
    or a missing value ([None] / [NaN]).  Numbers are kept as integers (a
    float stands for a whole number of some fixed small unit): the
    operations below only test them for equality, order them and refuse to
    concatenate them with text. *)
Inductive value : Type :=
| VStr (s : string)
| VNum (z : Z)
| VNull.

#[global] Instance value_eq_dec : EqDecision value.
Proof. solve_decision. Defined.

(** Column types, as far as the code inspects them: [dtype == 'object'] or a
    numeric dtype ([int64], [float64]). *)
Inductive dtype : Type := DObject | DNumber.

#[global] Instance dtype_eq_dec : EqDecision dtype.
Proof. solve_decision. Defined.

(** The Python exceptions the modelled calls can raise. *)
Inductive exn : Type :=
| TypeError | KeyError | AttributeError | ValueError | MergeError.

#[global] Instance exn_eq_dec : EqDecision exn.
Proof. solve_decision. Defined.

Inductive result (A : Type) : Type :=
| Ok (a : A)
| Raise (e : exn).
Arguments Ok {A} a.
Arguments Raise {A} e.

Definition rbind {A B} (r : result A) (k : A -> result B) : result B :=
  match r with
  | Ok a => k a
  | Raise e => Raise e
  end.

Notation "'try*' x := r 'in' k" := (rbind r (fun x => k))
  (at level 10, x name, r at level 100, k at level 200).

Definition is_Ok {A} (r : result A) : bool :=
  match r with Ok _ => true | Raise _ => false end.

Fixpoint rmap {A B} (f : A -> result B) (l : list A) : result (list B) :=
  match l with
  | [] => Ok []
  | x :: l' => try* y := f x in try* ys := rmap f l' in Ok (y :: ys)
  end.

Definition is_str (v : value) : bool :=
  match v with VStr _ => true | _ => false end.
Definition is_num (v : value) : bool :=
  match v with VNum _ => true | _ => false end.
Definition isnull (v : value) : bool :=
  match v with VNull => true | _ => false end.
Definition is_str_or_null (v : value) : bool := is_str v || isnull v.

(** ** The pandas model *)

Module Pandas.

(** A [Series]: a dtype and the cells in index order. *)
Record Series : Type := mkSeries { s_dtype : dtype; s_values : list value }.

(** A [DataFrame]: the columns in order, each with its dtype, and the rows in
    index order, each row holding one cell per column. *)
Record DataFrame : Type := mkDF {
  header : list (string * dtype);
  rows : list (list value)
}.

#[global] Instance Series_eq_dec : EqDecision Series.
Proof. solve_decision. Defined.
#[global] Instance DataFrame_eq_dec : EqDecision DataFrame.
Proof. solve_decision. Defined.

(** [df.columns] *)
Definition columns (df : DataFrame) : list string := (header df).*1.

(** Every row has one cell per column. *)
Definition wf (df : DataFrame) : bool :=
  forallb (fun r => bool_decide (length r = length (header df))) (rows df).

(** Position of the first occurrence of a label. *)
Fixpoint index_of (c : string) (cs : list string) : option nat :=
  match cs with
  | [] => None
  | c' :: cs' => if bool_decide (c' = c) then Some 0%nat else S <$> index_of c cs'
  end.

(** ['c' in df.columns] *)
Definition has_column (df : DataFrame) (c : string) : bool :=
  bool_decide (c ∈ columns df).

Definition cell (i : nat) (r : list value) : value := nth i r VNull.

(** [df[c]] on a frame whose column labels are distinct: [KeyError] when
    the label is absent.  (Where a label is repeated pandas returns a frame
    of the columns that carry it; the properties below leave such frames
    out.) *)
Definition getitem (df : DataFrame) (c : string) : result Series :=
  match index_of c (columns df) with
  | None => Raise KeyError
  | Some i => Ok (mkSeries (nth i (header df).*2 DObject) (map (cell i) (rows df)))
  end.

(** [df[c] = s] for a Series [s] computed from [df] itself (same index, so
    the alignment is the identity), on a frame whose column labels are
    distinct: an existing column is overwritten where it stands, a new one
    is appended on the right. *)
Definition setitem (df : DataFrame) (c : string) (s : Series) : DataFrame :=
  match index_of c (columns df) with
  | Some i =>
      mkDF (<[i := (c, s_dtype s)]> (header df))
           (zip_with (fun r v => <[i := v]> r) (rows df) (s_values s))
  | None =>
      mkDF (header df ++ [(c, s_dtype s)])
           (zip_with (fun r v => r ++ [v]) (rows df) (s_values s))
  end.

(** [a + b] on two cells of object arrays.  pandas first tries the plain
    elementwise [+] and, on a [TypeError], repeats it on the positions where
    both sides are non-null, leaving NaN elsewhere; a [TypeError] on such a
    position propagates. *)
Definition add_cells (a b : value) : result value :=
  match a, b with
  | VNull, _ | _, VNull => Ok VNull
  | VStr x, VStr y => Ok (VStr (x +:+ y))
  | VNum x, VNum y => Ok (VNum (x + y))
  | _, _ => Raise TypeError
  end.

(** [s + "text"]: a numeric dtype has no [+] with a [str] (whatever the
    cells are); an object Series concatenates cell by cell. *)
Definition add_str (s : Series) (t : string) : result Series :=
  match s_dtype s with
  | DNumber => Raise TypeError
  | DObject =>
      try* vs := rmap (fun v => add_cells v (VStr t)) (s_values s) in
      Ok (mkSeries DObject vs)
  end.

Fixpoint rzip_with {A B C} (f : A -> B -> result C) (l : list A) (k : list B)
  : result (list C) :=
  match l, k with
  | x :: l', y :: k' =>
      try* z := f x y in try* zs := rzip_with f l' k' in Ok (z :: zs)
  | _, _ => Ok []
  end.

(** [s1 + s2] for two Series of one frame, the left one of object dtype. *)
Definition add_series (s1 s2 : Series) : result Series :=
  try* vs := rzip_with add_cells (s_values s1) (s_values s2) in
  Ok (mkSeries DObject vs).

(** [s.unique()]: the distinct cells in order of first appearance; the
    missing value is one of them when it occurs. *)
Fixpoint unique_from (seen : list value) (l : list value) : list value :=
  match l with
  | [] => []
  | x :: l' =>
      if bool_decide (x ∈ seen) then unique_from seen l'
      else x :: unique_from (x :: seen) l'
  end.
Definition unique (s : Series) : list value := unique_from [] (s_values s).

(** dtype pandas infers for a column built from Python objects. *)
Definition infer_dtype (vs : list value) : dtype :=
  if existsb is_str vs then DObject
  else if existsb is_num vs then DNumber
  else DObject.

(** [pd.DataFrame(records)] for a list of dicts that all have the keys
    [keys], given as the rows of their values.  An empty list gives a frame
    with no column at all. *)
Definition from_records (keys : list string) (records : list (list value))
  : DataFrame :=
  match records with
  | [] => mkDF [] []
  | _ =>
      mkDF (imap (fun i k => (k, infer_dtype (map (cell i) records))) keys)
           records
  end.

(** Which positions of an Index repeat an earlier label
    ([Index.duplicated()]). *)
Fixpoint duplicated_from (seen : list string) (l : list string) : list bool :=
  match l with
  | [] => []
  | x :: l' => bool_decide (x ∈ seen) :: duplicated_from (x :: seen) l'
  end.
Definition duplicated (l : list string) : list bool := duplicated_from [] l.

(** The column labels of a merge ([_items_overlap_with_suffix] with the
    default suffixes): a label present on both sides gets [_x] on the left
    and [_y] on the right; pandas 2 raises [MergeError] when a renamed label
    collides with another label of its side. *)
Definition suffixed (to_rename : list string) (suffix : string) (x : string)
  : string :=
  if bool_decide (x ∈ to_rename) then x +:+ suffix else x.

Definition caused_dups (orig labels : list string) : bool :=
  existsb id (zip_with (fun d o => d && negb o) (duplicated labels) (duplicated orig)).

Definition items_overlap_with_suffix (left right : list string)
  : result (list string * list string) :=
  let to_rename := filter (fun x => x ∈ right) left in
  let llabels := map (suffixed to_rename "_x") left in
  let rlabels := map (suffixed to_rename "_y") right in
  if caused_dups left llabels || caused_dups right rlabels
  then Raise MergeError
  else Ok (llabels, rlabels).

(** [left.merge(right, left_on=lk, right_on=rk, how='left')] for two
    different key labels: every left row, in left order, once per right row
    whose key equals its own (missing keys match each other), or once with
    missing cells when there is none. *)
Definition merge_left (left right : DataFrame) (left_on right_on : string)
  : result DataFrame :=
  match index_of left_on (columns left), index_of right_on (columns right) with
  | Some li, Some ri =>
      try* labels := items_overlap_with_suffix (columns left) (columns right) in
      let matches (l : list value) :=
        filter (fun r => cell ri r = cell li l) (rows right) in
      let joined (l : list value) :=
        match matches l with
        | [] => [l ++ replicate (length (header right)) VNull]
        | ms => map (fun r => l ++ r) ms
        end in
      Ok (mkDF (zip (labels.1 ++ labels.2) ((header left).*2 ++ (header right).*2))
               (flat_map joined (rows left)))
  | _, _ => Raise KeyError
  end.

End Pandas.

(** ** [src/utils/func_utils.py]: class [DataManager] *)

Module FuncUtils.
Import Pandas.

(** What a successful lookup returns, as far as the code reads it:
    [geocode_result.latitude] and [geocode_result.longitude], two numbers. *)
Record Location : Type := mkLocation { latitude : Z; longitude : Z }.

(** The part of the interpreter state the methods act on.  DataFrames are
    Python objects: [heap] holds them by identity, so that a frame mutated
    through one name is seen changed through every other name for it. *)
Record world : Type := mkWorld {
  heap : list DataFrame;
  self_dataframe : option nat;   (* [self.dataframe]: [None] or a frame *)
  geocode_calls : list value;    (* arguments of [self.geocode], oldest first *)
  stdout : list string           (* lines written by [print] *)
}.

(** Computations: a raised exception keeps the state reached so far. *)
Definition M (A : Type) : Type := world -> result A * world.

Definition ret {A} (a : A) : M A := fun w => (Ok a, w).
Definition raise {A} (e : exn) : M A := fun w => (Raise e, w).
Definition bind {A B} (m : M A) (k : A -> M B) : M B :=
  fun w =>
    match m w with
    | (Ok a, w') => k a w'
    | (Raise e, w') => (Raise e, w')
    end.
Definition lift {A} (r : result A) : M A := fun w => (r, w).

Notation "'let*' x := m 'in' k" := (bind m (fun x => k))
  (at level 10, x name, m at level 100, k at level 200).

Fixpoint mapM {A B} (f : A -> M B) (l : list A) : M (list B) :=
  match l with
  | [] => ret []
  | x :: l' => let* y := f x in let* ys := mapM f l' in ret (y :: ys)
  end.

Fixpoint forM_ {A} (l : list A) (f : A -> M unit) : M unit :=
  match l with
  | [] => ret tt
  | x :: l' => let* _ := f x in forM_ l' f
  end.

(** Reading and writing the frame a name refers to; names handed to the
    methods refer to live frames. *)
Definition load (d : nat) : M DataFrame :=
  fun w => (Ok (default (mkDF [] []) (heap w !! d)), w).
Definition store (d : nat) (df : DataFrame) : M unit :=
  fun w => (Ok tt, mkWorld (<[d := df]> (heap w)) (self_dataframe w)
                           (geocode_calls w) (stdout w)).
(** A frame built by pandas is a new object. *)
Definition alloc (df : DataFrame) : M nat :=
  fun w => (Ok (length (heap w)),
            mkWorld (heap w ++ [df]) (self_dataframe w)
                    (geocode_calls w) (stdout w)).
Definition get_self_dataframe : M (option nat) :=
  fun w => (Ok (self_dataframe w), w).
Definition set_self_dataframe (d : option nat) : M unit :=
  fun w => (Ok tt, mkWorld (heap w) d (geocode_calls w) (stdout w)).
Definition print (line : string) : M unit :=
  fun w => (Ok tt, mkWorld (heap w) (self_dataframe w) (geocode_calls w)
                           (stdout w ++ [line])).

(** [DataManager.__init__]: no managed frame yet. *)
Definition init : world := mkWorld [] None [] [].

(** [DataManager.get_dataframe] *)
Definition get_dataframe : M (option nat) := get_self_dataframe.

Section DataManager.

(** [unidecode.unidecode], the transliteration table of the [unidecode]
    package; its result is ASCII text. *)
Variable unidecode : string -> string.

(** The answer of the geocoding service to a query: [self.geocode] is
    [RateLimiter(Nominatim.geocode)], which returns [None] when there is no
    match and also when the service failed (it swallows the error). *)
Variable service : value -> option Location.

(** [self.geocode(location)] *)
Definition geocode (location : value) : M (option Location) :=
  fun w => (Ok (service location),
            mkWorld (heap w) (self_dataframe w)
                    (geocode_calls w ++ [location]) (stdout w)).

(** [str.lower] and [str.capitalize] on ASCII text. *)
Definition lower_char (c : ascii) : ascii :=
  let n := nat_of_ascii c in
  if (65 <=? n)%nat && (n <=? 90)%nat then ascii_of_nat (n + 32) else c.
Definition upper_char (c : ascii) : ascii :=
  let n := nat_of_ascii c in
  if (97 <=? n)%nat && (n <=? 122)%nat then ascii_of_nat (n - 32) else c.
Fixpoint lower (s : string) : string :=
  match s with
  | EmptyString => EmptyString
  | String c s' => String (lower_char c) (lower s')
  end.
Definition capitalize (s : string) : string :=
  match s with
  | EmptyString => EmptyString
  | String c s' => String (upper_char c) (lower s')
  end.

(** [Series.apply(f)]: [f] on every cell, the dtype inferred again from the
    results. *)
Definition apply (f : value -> value) (s : Series) : Series :=
  let vs := map f (s_values s) in mkSeries (infer_dtype vs) vs.

(** [Series.str.<method>()]: the accessor exists only on an object Series
    whose non-missing cells are not all non-text ([AttributeError]
    otherwise); the method is applied to the text cells, and every other
    cell of the result is missing. *)
Definition str_method (f : string -> string) (s : Series) : result Series :=
  if bool_decide (s_dtype s = DObject)
     && (existsb is_str (s_values s) || forallb isnull (s_values s))
  then Ok (mkSeries DObject
             (map (fun v => match v with VStr t => VStr (f t) | _ => VNull end)
                  (s_values s)))
  else Raise AttributeError.

(** The inner function of [fix_string_case]. *)
Definition remove_accents (text : value) : value :=
  match text with
  | VStr s => VStr (unidecode s)
  | _ => text
  end.

(** The body of the loop of [fix_string_case] for one column label. *)
Definition fix_column (dataframe : nat) (column : string) : M unit :=
  let* df := load dataframe in
  let* s := lift (getitem df column) in
  if bool_decide (s_dtype s = DObject) then
    let* df := load dataframe in
    let* s := lift (getitem df column) in
    let* _ := store dataframe (setitem df column (apply remove_accents s)) in
    let* df := load dataframe in
    let* s := lift (getitem df column) in
    let* s := lift (str_method lower s) in
    let* _ := store dataframe (setitem df column s) in
    let* df := load dataframe in
    let* s := lift (getitem df column) in
    let* s := lift (str_method capitalize s) in
    store dataframe (setitem df column s)
  else ret tt.

(** [DataManager.fix_string_case(dataframe)] *)
Definition fix_string_case (dataframe : nat) : M nat :=
  let* df := load dataframe in
  let* _ := forM_ (columns df) (fix_column dataframe) in
  ret dataframe.

Definition coordinate (f : Location -> Z) (c : option Location) : value :=
  match c with
  | Some loc => VNum (f loc)
  | None => VNull
  end.

(** [DataManager.geocode_dataframe(dataframe=None)] *)
Definition geocode_dataframe (dataframe : option nat) : M nat :=
  let* dataframe :=
    match dataframe with
    | None => get_self_dataframe
    | Some d => ret (Some d)
    end in
  match dataframe with
  | None => raise AttributeError
  | Some d =>
      let* df := load d in
      if has_column df "municipio" && has_column df "departamento" then
        let* municipio := lift (getitem df "municipio") in
        let* s := lift (add_str municipio ", ") in
        let* departamento := lift (getitem df "departamento") in
        let* s := lift (add_series s departamento) in
        let* s := lift (add_str s ", Colombia") in
        let* _ := store d (setitem df "geolocalizacion" s) in
        let* df := load d in
        let* geolocalizacion := lift (getitem df "geolocalizacion") in
        let location_list := unique geolocalizacion in
        let* out_coordinates := mapM geocode location_list in
        let location_data :=
          imap (fun i_pos i_coordinate =>
                  [ nth i_pos location_list VNull;
                    coordinate latitude i_coordinate;
                    coordinate longitude i_coordinate ])
               out_coordinates in
        let location_df :=
          from_records ["location"; "latitude"; "longitude"] location_data in
        let* df := load d in
        let* merged :=
          lift (merge_left df location_df "geolocalizacion" "location") in
        let* dataframe := alloc merged in
        let* managed := get_self_dataframe in
        let* _ :=
          if bool_decide (Some dataframe = managed)
          then set_self_dataframe (Some dataframe)
          else ret tt in
        ret dataframe
      else
        let* _ :=
          print "DataFrame does not contain required columns: municipio and departamento" in
        ret d
  end.

End DataManager.

Section Files.

(** What [dataframe.to_csv(filename, index=False)] does with the file
    system: [None] when the file was written, the text of the exception
    otherwise.  The files themselves are not part of [world]. *)
Variable to_csv : DataFrame -> string -> option string.

(** [DataManager.save_to_csv(dataframe, filename)] *)
Definition save_to_csv (dataframe : nat) (filename : string) : M unit :=
  let* df := load dataframe in
  match to_csv df filename with
  | None => print ("Data saved to " +:+ filename +:+ " successfully.")
  | Some e => print ("Error saving data: " +:+ e)
  end.

End Files.

End FuncUtils.

(** *** [DataGovAPI] *)

Module DataGovAPI.
Import Pandas.

(** An HTTP response, as far as the code reads it. *)
Record Response : Type := mkResponse { status_code : Z; text : string }.

(** The object: [self.dataframe], and the lines it has printed. *)
Record api : Type := mkApi {
  dataframe : option DataFrame;
  printed : list string
}.

(** [DataGovAPI.__init__] *)
Definition init : api := mkApi None [].

(** [DataGovAPI.get_dataframe] *)
Definition get_dataframe (self : api) : option DataFrame := dataframe self.

Section Web.

(** [requests.get(endpoint)]: the response, or the text of the exception
    it raises (no connection, malformed URL). *)
Variable requests_get : string -> Response + string.

(** The text of the [HTTPError] of a response. *)
Variable http_error : Response -> string.

(** [pd.read_json(text)]: the table, or the text of the exception it
    raises. *)
Variable read_json : string -> DataFrame + string.

(** [response.raise_for_status()]: [HTTPError] for a status from 400 to
    599. *)
Definition raise_for_status (response : Response) : unit + string :=
  if (400 <=? status_code response) && (status_code response <? 600)
  then inr (http_error response) else inl tt.

(** The body of the [try] of [load_data]: the new [self.dataframe], or the
    text of the exception that ended it. *)
Definition try_load (endpoint : string) : DataFrame + string :=
  match requests_get endpoint with
  | inr e => inr e
  | inl response =>
      match raise_for_status response with
      | inr e => inr e
      | inl _ => read_json (text response)
      end
  end.

(** [DataGovAPI.load_data(endpoint)]; [print('Error loading data: ', e)]
    separates its two arguments by one more space. *)
Definition load_data (endpoint : string) (self : api) : api :=
  match try_load endpoint with
  | inl df => mkApi (Some df) (printed self ++ ["Data loaded successfully."])
  | inr e => mkApi (dataframe self) (printed self ++ ["Error loading data:  " +:+ e])
  end.

(** Successive calls of [load_data]. *)
Definition load_all (endpoints : list string) (self : api) : api :=
  foldl (fun self endpoint => load_data endpoint self) self endpoints.

End Web.

End DataGovAPI.

(** ** [src/utils/metrics.py]: class [MetricsComputation] *)

Module Metrics.
Import Pandas.

(** A float of a summary: a rational, or [None] for NaN.  The summaries
    below are ratios of counts, followed exactly. *)
Definition float : Type := option Q.

(** [Series.mean()] of a boolean column: the share of [True]; NaN for an
    empty column. *)
Definition mean (bs : list bool) : float :=
  match bs with
  | [] => None
  | _ => Some (Z.of_nat (length (filter (fun b => b = true) bs))
               # Pos.of_nat (length bs))
  end.

(** [x * 100] *)
Definition times_100 (x : float) : float := (fun q => q * 100)%Q <$> x.

(** Nearest integer, ties to the even one ([numpy.rint]). *)
Definition rint (q : Q) : Z :=
  let f := Qfloor q in
  match (q - inject_Z f ?= 1 # 2)%Q with
  | Lt => f
  | Gt => f + 1
  | Eq => if Z.even f then f else f + 1
  end.

(** [x.round(2)]: [rint(x * 100) / 100]. *)
Definition round_2 (x : float) : float :=
  (fun q => inject_Z (rint (q * 100)) / 100)%Q <$> x.

(** [str(x)] for a non-negative float with at most two decimals: the
    shortest decimal that reads back, with at least one digit after the
    point; ["nan"] for NaN. *)
Definition float_str (x : float) : string :=
  match x with
  | None => "nan"
  | Some q =>
      let h := Qfloor (q * 100) in
      let frac := h mod 100 in
      pretty (h / 100) +:+ "." +:+
      (if frac mod 10 =? 0 then pretty (frac / 10)
       else pretty (frac / 10) +:+ pretty (frac mod 10))
  end.

(** The column [i] of a frame, as the list of its cells. *)
Definition column_cells (data : DataFrame) (i : nat) : list value :=
  map (cell i) (rows data).

(** A displayed Series of texts indexed by the column labels: for each
    column, [f] of its cells as a percentage with two decimals. *)
Definition percentages (f : value -> bool) (data : DataFrame)
  : list (string * string) :=
  imap (fun i c =>
          (c, float_str (round_2 (times_100 (mean (map f (column_cells data i)))))
              +:+ "%"))
       (columns data).

(** [MetricsComputation.missing_values]: what it displays,
    [((self.data.isnull().mean() * 100).round(2)).astype(str) + '%']. *)
Definition missing_values (data : DataFrame) : list (string * string) :=
  percentages isnull data.

(** [cell == 0] *)
Definition eq_zero (v : value) : bool :=
  match v with
  | VNum z => z =? 0
  | _ => false
  end.

(** [MetricsComputation.zero_values]: what it displays,
    [(((self.data == 0).mean() * 100).round(2)).astype(str) + '%']. *)
Definition zero_values (data : DataFrame) : list (string * string) :=
  percentages eq_zero data.

(** The order pandas sorts cells by: numbers by size, texts by code points,
    numbers before texts where group keys mix them, the missing value
    apart (here: below everything). *)
Definition value_leb (a b : value) : bool :=
  match a, b with
  | VNull, _ => true
  | _, VNull => false
  | VNum x, VNum y => x <=? y
  | VNum _, VStr _ => true
  | VStr _, VNum _ => false
  | VStr x, VStr y => String.leb x y
  end.

Fixpoint keys_leb (k1 k2 : list value) : bool :=
  match k1, k2 with
  | [], _ => true
  | _ :: _, [] => false
  | a :: k1', b :: k2' =>
      if bool_decide (a = b) then keys_leb k1' k2' else value_leb a b
  end.

(** Stable insertion sort: [x] goes before the first element it may
    precede. *)
Fixpoint insert_by {A} (before : A -> A -> bool) (x : A) (l : list A) : list A :=
  match l with
  | [] => [x]
  | y :: l' => if before x y then x :: y :: l' else y :: insert_by before x l'
  end.
Definition sort_by {A} (before : A -> A -> bool) (l : list A) : list A :=
  foldr (insert_by before) [] l.

(** The distinct keys, in order of first appearance. *)
Fixpoint dedup_from (seen : list (list value)) (l : list (list value))
  : list (list value) :=
  match l with
  | [] => []
  | x :: l' =>
      if bool_decide (x ∈ seen) then dedup_from seen l'
      else x :: dedup_from (x :: seen) l'
  end.
Definition dedup_keys (l : list (list value)) : list (list value) :=
  dedup_from [] l.

(** An aggregation function of a named aggregation ("sum", "count",
    "mean", a callable): from the cells of one group to one cell, or an
    exception. *)
Definition aggfunc : Type := list value -> result value.

(** ["count"]: the number of non-missing cells. *)
Definition agg_count : aggfunc :=
  fun vs => Ok (VNum (Z.of_nat (length (filter (fun v => isnull v = false) vs)))).

Definition find_column (data : DataFrame) (c : string) : result nat :=
  match index_of c (columns data) with
  | Some i => Ok i
  | None => Raise KeyError
  end.

(** [data.groupby(by).agg(...).reset_index()] with the named aggregations
    passed as keyword arguments: one row per distinct
    combination of the [by] cells with no missing cell, in ascending order
    of the keys; the key cells, then one cell per named aggregation. *)
Definition groupby_agg (data : DataFrame) (by_ : list string)
    (named : list (string * (string * aggfunc))) : result DataFrame :=
  match by_, named with
  | [], _ => Raise ValueError                 (* "No group keys passed!" *)
  | _, [] => Raise TypeError                  (* agg() without a function *)
  | _, _ =>
      try* kis := rmap (find_column data) by_ in
      try* ais := rmap (fun na => find_column data na.2.1) named in
      let key (r : list value) := map (fun i => cell i r) kis in
      let keys :=
        sort_by keys_leb
          (dedup_keys (filter (fun k => forallb (fun v => negb (isnull v)) k = true)
                               (map key (rows data)))) in
      try* out :=
        rmap (fun k =>
                let group := filter (fun r => key r = k) (rows data) in
                try* aggs :=
                  rzip_with (fun na i => na.2.2 (map (cell i) group)) named ais in
                Ok (k ++ aggs))
             keys in
      if bool_decide (NoDup (by_ ++ named.*1)) then
        Ok (mkDF (zip by_ (map (fun i => nth i (header data).*2 DObject) kis)
                  ++ imap (fun j n => (n, infer_dtype (map (cell (length by_ + j)) out)))
                       named.*1)
                 out)
      else Raise ValueError                   (* "cannot insert ..., already exists" *)
  end.

(** [df.columns = labels] *)
Definition set_columns (df : DataFrame) (labels : list string) : result DataFrame :=
  if bool_decide (length labels = length (header df))
  then Ok (mkDF (zip labels (header df).*2) (rows df))
  else Raise ValueError.

(** [df.sort_values(by=c, ascending=False)] on a frame with the default
    index: rows in descending order of the cell in column [c], missing
    cells last, each row keeping its index label, which is its position
    before the sort; text cannot be compared with numbers.  The result is
    the index and the frame.  Rows with equal cells are left in the order
    they had (pandas fixes no order among them). *)
Definition sort_values_desc (df : DataFrame) (c : string)
  : result (list nat * DataFrame) :=
  try* i := find_column df c in
  let ks := map (cell i) (rows df) in
  if existsb is_str ks && existsb is_num ks then Raise TypeError
  else
    let sorted :=
      sort_by (fun p q : nat * list value => value_leb (cell i q.2) (cell i p.2))
              (imap (fun n r => (n, r)) (rows df)) in
    Ok (sorted.*1, mkDF (header df) sorted.*2).

(** What is left of [l], a header or a row, once the positions labelled
    [c] are taken out. *)
Fixpoint without_label {A} (c : string) (labels : list string) (l : list A)
  : list A :=
  match labels, l with
  | label :: labels', x :: l' =>
      if bool_decide (label = c) then without_label c labels' l'
      else x :: without_label c labels' l'
  | _, _ => l
  end.

(** [df.drop(columns=[c])] on a frame that has a column labelled [c]:
    every column with that label goes. *)
Definition drop_columns (df : DataFrame) (c : string) : DataFrame :=
  mkDF (without_label c (columns df) (header df))
       (map (without_label c (columns df)) (rows df)).

(** [df.reset_index().drop(columns=['index'])] on a frame whose index holds
    the labels [index].  [reset_index] inserts the index as the first
    column, labelled "index", or "level_0" when the frame has a column
    "index" already, and fails when the frame has that label too; [drop]
    then takes out every column labelled "index": the one just inserted,
    or else the frame's own. *)
Definition reset_index_drop (index : list nat) (df : DataFrame)
  : result DataFrame :=
  let label := if has_column df "index" then "level_0" else "index" in
  if has_column df label then Raise ValueError
  else
    Ok (drop_columns
          (mkDF ((label, DNumber) :: header df)
                (zip_with (fun n r => VNum (Z.of_nat n) :: r) index (rows df)))
          "index").

(** [df.head(n)]: the first [n] rows; all but the last [-n] for a negative
    [n]. *)
Definition head (df : DataFrame) (n : Z) : DataFrame :=
  if 0 <=? n then mkDF (header df) (take (Z.to_nat n) (rows df))
  else mkDF (header df) (take (length (rows df) - Z.to_nat (- n)) (rows df)).

(** [MetricsComputation.grouped_table(group_by_columns, aggregation_columns,
    sort_by_column, top_n=10)]; [top_n = None] stands for a call that leaves
    the argument out. *)
Definition grouped_table (data : DataFrame) (group_by_columns : list string)
    (aggregation_columns : list (string * (string * aggfunc)))
    (sort_by_column : string) (top_n : option Z) : result DataFrame :=
  let top_n := default 10 top_n in
  try* grouped_data := groupby_agg data group_by_columns aggregation_columns in
  let aggregation_column_names := aggregation_columns.*1 in
  try* grouped_data :=
    set_columns grouped_data (group_by_columns ++ aggregation_column_names) in
  try* sorted := sort_values_desc grouped_data sort_by_column in
  try* grouped_data := reset_index_drop sorted.1 sorted.2 in
  let top_records := head grouped_data top_n in
  Ok top_records.

(** [DataFrame.duplicated()]: for each row, whether an earlier row holds
    the same cells (two missing cells count as the same). *)
Fixpoint duplicated_rows_from (seen : list (list value)) (l : list (list value))
  : list bool :=
  match l with
  | [] => []
  | r :: l' => bool_decide (r ∈ seen) :: duplicated_rows_from (r :: seen) l'
  end.
Definition duplicated_rows (data : DataFrame) : list bool :=
  duplicated_rows_from [] (rows data).

(** [df[mask]] for a boolean Series [mask] on the index of [df]: the rows
    where it holds. *)
Definition getitem_mask (df : DataFrame) (mask : list bool) : DataFrame :=
  mkDF (header df) ((filter (fun rb => rb.2 = true) (zip (rows df) mask)).*1).

(** [MetricsComputation.duplicate_rows]: the table it displays,
    [self.data[self.data.duplicated()]], for a table with at least one
    column. *)
Definition duplicate_rows (data : DataFrame) : DataFrame :=
  getitem_mask data (duplicated_rows data).

(** [Series.nunique()]: the number of distinct cells, the missing value
    not counted. *)
Definition nunique (s : Series) : nat :=
  length (filter (fun v => isnull v = false) (unique s)).

(** [MetricsComputation.unique_values]: the dict it displays, as its items
    in insertion order, for a table whose column labels are distinct. *)
Definition unique_values (data : DataFrame) : result (list (string * nat)) :=
  rmap (fun column => try* s := getitem data column in Ok (column, nunique s))
       (columns data).

End Metrics.

(** ** [plotsmetrics.py] *)

Module PlotsMetrics.
Import Pandas Metrics.

(** What [px.bar(x=..., y=...)] is given to draw: the bars from left to
    right, each a label and a height. *)
Record Bar (H : Type) : Type := mkBar {
  bars : list (string * H);
  bar_title : string
}.
Arguments mkBar {H} bars bar_title.
Arguments bars {H} b.
Arguments bar_title {H} b.

(** Descending order of floats, NaN last ([sort_values(ascending=False)]
    with the default [na_position]). *)
Definition float_geb (a b : float) : bool :=
  match a, b with
  | _, None => true
  | None, Some _ => false
  | Some x, Some y => Qle_bool y x
  end.

(** [PlotsMetrics.visualize_missing_values] *)
Definition visualize_missing_values (data : DataFrame) : Bar float :=
  let missing_percentage :=
    sort_by (fun p q => float_geb p.2 q.2)
      (imap (fun i c => (c, times_100 (mean (map isnull (column_cells data i)))))
            (columns data)) in
  mkBar missing_percentage "Percentage of Missing Values per Column".

(** [PlotsMetrics.visualize_zero_values] *)
Definition visualize_zero_values (data : DataFrame) : Bar float :=
  let zero_percentage :=
    imap (fun i c => (c, times_100 (mean (map eq_zero (column_cells data i)))))
         (columns data) in
  mkBar zero_percentage "Percentage of Zero Values per Column".

(** [PlotsMetrics.visualize_unique_values]; [DataFrame.nunique()] counts
    column by column. *)
Definition visualize_unique_values (data : DataFrame) : Bar nat :=
  let unique_counts :=
    sort_by (fun p q => (q.2 <=? p.2)%nat)
      (imap (fun i c =>
               (c, nunique (mkSeries (nth i (header data).*2 DObject)
                                     (column_cells data i))))
            (columns data)) in
  mkBar unique_counts "Number of Unique Values per Column".

(** What [go.Histogram(x=..., nbinsx=...)] is given, with the title of the
    figure. *)
Record Histogram : Type := mkHistogram {
  hist_x : list value;
  hist_nbinsx : Z;
  hist_title : string
}.

(** [s >= bound] and [s <= bound] for a number [bound]: a number is
    compared, a missing cell of a numeric column gives [False], and text
    cannot be compared with a number. *)
Definition compare_cells (op : Z -> Z -> bool) (s : Series) (bound : Z)
  : result (list bool) :=
  rmap (fun v => match v with
                 | VNum z => Ok (op z bound)
                 | VNull => Ok false
                 | VStr _ => Raise TypeError
                 end)
       (s_values s).

(** [PlotsMetrics.plot_histogram(column, range_min=None, range_max=None,
    bins=10)] on a numeric column: the figure it shows. *)
Definition plot_histogram (data : DataFrame) (column : string)
    (range_min range_max : option Z) (bins : option Z) : result Histogram :=
  let bins := default 10 bins in
  try* filtered_data :=
    match range_min, range_max with
    | Some range_min, Some range_max =>
        try* s := getitem data column in
        try* ge := compare_cells Z.geb s range_min in
        try* s := getitem data column in
        try* le := compare_cells Z.leb s range_max in
        let mask := zip_with andb ge le in
        getitem (getitem_mask data mask) column
    | _, _ => getitem data column
    end in
  Ok (mkHistogram (s_values filtered_data) bins ("Histograma de " +:+ column)).

(** What [px.box(self.data, y=column, title=...)] is given. *)
Record Box : Type := mkBox {
  box_y : string;
  box_points : list value;
  box_title : string
}.

(** [data.select_dtypes(include='number').columns.tolist()] *)
Definition numeric_columns (data : DataFrame) : list string :=
  (filter (fun cd : string * dtype => cd.2 = DNumber) (header data)).*1.

(** [PlotsMetrics.visualize_box_plot(columns)], for a table whose column
    labels are distinct. *)
Definition visualize_box_plot (data : DataFrame) (columns : option (list string))
  : result (list Box) :=
  try* columns :=
    match columns with
    | None => Ok (numeric_columns data)
    | Some columns =>
        try* _ := rmap (fun col => if has_column data col then Ok tt
                                   else Raise ValueError) columns in
        Ok columns
    end in
  rmap (fun column =>
          try* s := getitem data column in
          Ok (mkBox column (s_values s) ("Distribution of " +:+ column)))
       columns.

End PlotsMetrics.

(** ** Vocabulary of the properties *)

Import Pandas FuncUtils Metrics PlotsMetrics.

(** The Location Key of a row, from its municipality and department cells,
    as line 134 of [func_utils.py] computes it. *)
Definition location_key (m d : value) : value :=
  match m, d with
  | VStr a, VStr b => VStr (((a +:+ ", ") +:+ b) +:+ ", Colombia")
  | _, _ => VNull
  end.

Definition row_key (t : DataFrame) (r : list value) : value :=
  match index_of "municipio" (columns t), index_of "departamento" (columns t) with
  | Some mi, Some di => location_key (cell mi r) (cell di r)
  | _, _ => VNull
  end.

(** The Location Keys of the rows, in row order. *)
Definition row_keys (t : DataFrame) : list value := map (row_key t) (rows t).

(** The key columns hold text or missing values, the municipality column
    being an object column. *)
Definition text_keys (t : DataFrame) : bool :=
  match getitem t "municipio", getitem t "departamento" with
  | Ok m, Ok d =>
      bool_decide (s_dtype m = DObject)
      && forallb is_str_or_null (s_values m)
      && forallb is_str_or_null (s_values d)
  | _, _ => false
  end.

(** The input frame once line 134 has run. *)
Definition with_keys (t : DataFrame) : DataFrame :=
  setitem t "geolocalizacion" (mkSeries DObject (row_keys t)).

Definition lookup_labels : list string := ["location"; "latitude"; "longitude"].

(** The labels of the join do not collide. *)
Definition join_labels_ok (t : DataFrame) : bool :=
  is_Ok (items_overlap_with_suffix (columns (with_keys t)) lookup_labels).

(** The labels [geocode_dataframe] writes. *)
Definition enricher_labels : list string :=
  ["geolocalizacion"; "location"; "latitude"; "longitude"].

(** The labels a second join gives to the columns of the first. *)
Definition suffixed_labels : list string :=
  ["location_x"; "latitude_x"; "longitude_x"].

(** The frame has none of the given labels. *)
Definition lacks (t : DataFrame) (labels : list string) : bool :=
  forallb (fun c => negb (has_column t c)) labels.

(** The three cells the join adds to a row with key [k]. *)
Definition looked_up (service : value -> option Location) (k : value)
  : list value :=
  [k; coordinate latitude (service k); coordinate longitude (service k)].

(** A row once line 134 has written its key into it. *)
Definition keyed (t : DataFrame) (r : list value) : list value :=
  match index_of "geolocalizacion" (columns t) with
  | Some i => <[i := row_key t r]> r
  | None => r ++ [row_key t r]
  end.

(** The frame the join of line 160 gives for an input frame [t]. *)
Definition enriched (service : value -> option Location) (t : DataFrame)
  : result DataFrame :=
  merge_left (with_keys t)
             (from_records lookup_labels
                (map (looked_up service) (unique_from [] (row_keys t))))
             "geolocalizacion" "location".

(** A row of the input as the join returns it. *)
Definition joined_row (service : value -> option Location) (t : DataFrame)
    (r : list value) : list value :=
  keyed t r ++ looked_up service (row_key t r).

(** What [Series.str] methods make of a cell. *)
Definition str_cell (f : string -> string) (v : value) : value :=
  match v with
  | VStr t => VStr (f t)
  | _ => VNull
  end.

(** What [fix_string_case] makes of a cell of a column of dtype [dt]. *)
Definition fixed_cell (unidecode : string -> string) (dt : dtype) (v : value)
  : value :=
  match dt, v with
  | DObject, VStr s => VStr (capitalize (lower (unidecode s)))
  | DObject, _ => VNull
  | DNumber, _ => v
  end.

Definition dtype_at (t : DataFrame) (j : nat) : dtype :=
  nth j (header t).*2 DObject.

(** The frame once the loop of [fix_string_case] has handled the first [k]
    columns, and once it has handled them all. *)
Definition fixed_row (unidecode : string -> string) (t : DataFrame) (k : nat)
    (r : list value) : list value :=
  imap (fun j v => if (j <? k)%nat then fixed_cell unidecode (dtype_at t j) v else v) r.

Definition fixed_upto (unidecode : string -> string) (k : nat) (t : DataFrame)
  : DataFrame :=
  mkDF (header t) (map (fixed_row unidecode t k) (rows t)).

Definition fixed (unidecode : string -> string) (t : DataFrame) : DataFrame :=
  mkDF (header t)
       (map (imap (fun j v => fixed_cell unidecode (dtype_at t j) v)) (rows t)).

(** Column [k], labelled [c], rewritten cell by cell. *)
Definition update_column (k : nat) (c : string) (dt : dtype)
    (f : value -> value) (t : DataFrame) : DataFrame :=
  mkDF (<[k := (c, dt)]> (header t))
       (map (fun r => <[k := f (cell k r)]> r) (rows t)).

(** A computation that leaves [self.dataframe] naming what it named. *)
Definition keeps_managed {A} (m : M A) : Prop :=
  forall w, self_dataframe (m w).2 = self_dataframe w.

Definition notice : string :=
  "DataFrame does not contain required columns: municipio and departamento".

(** The exact percentage of the cells of column [i] that satisfy [f]. *)
Definition exact_percentage (f : value -> bool) (data : DataFrame) (i : nat) : Q :=
  (Z.of_nat (length (filter (fun b => b = true) (map f (column_cells data i))))
   # Pos.of_nat (length (rows data))) * 100.

(** Descending order of the cells of column [i], missing cells last. *)
Definition descending (i : nat) (r1 r2 : list value) : Prop :=
  value_leb (cell i r2) (cell i r1) = true.

(** A computation that may rewrite the frame [d] and create frames, and
    leaves every other frame of the heap as it is. *)
Definition frames_kept {A} (d : nat) (m : M A) : Prop :=
  forall w,
    (length (heap w) <= length (heap (m w).2))%nat
    /\ forall j, j <> d -> (j < length (heap w))%nat ->
                 heap (m w).2 !! j = heap w !! j.

(** The [municipio] column cannot take part in the concatenation of line
    134: it is numeric, or one of its cells is a number. *)
Definition municipio_not_text (t : DataFrame) : bool :=
  match getitem t "municipio" with
  | Ok m => negb (bool_decide (s_dtype m = DObject)
                  && forallb is_str_or_null (s_values m))
  | Raise _ => false
  end.

(** Calls a program can make on a [DataManager]; an exception that comes
    out of one is caught by the caller, who goes on with the next. *)
Inductive call : Type :=
| FixStringCase (dataframe : nat)
| GeocodeDataframe (dataframe : option nat)
| SaveToCsv (dataframe : nat) (filename : string)
| GetDataframe.

Section Calls.

Variable unidecode : string -> string.
Variable service : value -> option Location.
Variable to_csv : DataFrame -> string -> option string.

Definition run_call (c : call) (w : world) : world :=
  match c with
  | FixStringCase d => (fix_string_case unidecode d w).2
  | GeocodeDataframe d => (geocode_dataframe service d w).2
  | SaveToCsv d filename => (save_to_csv to_csv d filename w).2
  | GetDataframe => (get_dataframe w).2
  end.

Definition run_calls (cs : list call) (w : world) : world :=
  foldl (fun w c => run_call c w) w cs.

End Calls.

(** Column [k] is an object column that holds a number and no text: the
    dtype pandas infers for what [apply(remove_accents)] returns is then
    numeric. *)
Definition numbers_without_text (t : DataFrame) (k : nat) : bool :=
  bool_decide (dtype_at t k = DObject)
  && existsb is_num (column_cells t k)
  && negb (existsb is_str (column_cells t k)).

(** The two key columns are there, both of object dtype. *)
Definition object_keys (t : DataFrame) : bool :=
  match getitem t "municipio", getitem t "departamento" with
  | Ok m, Ok d =>
      bool_decide (s_dtype m = DObject) && bool_decide (s_dtype d = DObject)
  | _, _ => false
  end.

(** The group key of a row: its cells in the group-by columns, which stand
    at the positions [kis]. *)
Definition group_key (kis : list nat) (r : list value) : list value :=
  map (fun i => cell i r) kis.

(** A key with no missing cell; [groupby] leaves the others out. *)
Definition complete_key (k : list value) : bool :=
  forallb (fun v => negb (isnull v)) k.

(** A number between the two bounds of a histogram. *)
Definition within (range_min range_max : Z) (v : value) : bool :=
  match v with
  | VNum z => (range_min <=? z) && (z <=? range_max)
  | _ => false
  end.

(** The text a percentage table shows for the height of a bar. *)
Definition shown_percentage (p : string * float) : string * string :=
  (p.1, float_str (round_2 p.2) +:+ "%").

(** The table an endpoint gives, when loading it succeeds. *)
Definition loaded (requests_get : string -> DataGovAPI.Response + string)
    (http_error : DataGovAPI.Response -> string)
    (read_json : string -> DataFrame + string) (endpoint : string)
  : option DataFrame :=
  match DataGovAPI.try_load requests_get http_error read_json endpoint with
  | inl df => Some df
  | inr _ => None
  end.

(** *** Sample tables *)

Definition only_municipio : DataFrame :=
  mkDF [("municipio", DObject); ("cultivo", DObject)]
       [[VStr "Bogota"; VStr "Papa"]; [VStr "Cali"; VStr "Cafe"]].

Definition bogota : DataFrame :=
  mkDF [("municipio", DObject); ("departamento", DObject); ("producci_n_t", DNumber)]
       [[VStr "Bogota"; VStr "Cundinamarca"; VNum 10]].

Definition bogota_service (q : value) : option Location :=
  if bool_decide (q = VStr "Bogota, Cundinamarca, Colombia")
  then Some (mkLocation 4 (-74)) else None.

(** The table of the specification's example, as loaded. *)
Definition bogota_raw : DataFrame :=
  mkDF [("municipio", DObject); ("departamento", DObject); ("producci_n_t", DNumber)]
       [[VStr "BOGOTA"; VStr "CUNDINAMARCA"; VNum 10]].

(** A service that places every query at one point. *)
Definition constant_service (q : value) : option Location :=
  Some (mkLocation 4 (-74)).

(** [unidecode] on ASCII text, which it returns as it is. *)
Definition ascii_unidecode (s : string) : string := s.

(** A text column in which one cell is a number. *)
Definition mixed_codes : DataFrame :=
  mkDF [("codigo", DObject)] [[VStr "BOGOTA"]; [VNum 5]].

(** A header and no row, as a CSV file with only its first line gives. *)
Definition no_rows : DataFrame :=
  mkDF [("municipio", DObject); ("departamento", DObject)] [].

Definition numeric_municipio : DataFrame :=
  mkDF [("municipio", DNumber); ("departamento", DObject)]
       [[VNum 5001; VStr "Antioquia"]].

Definition missing_municipio : DataFrame :=
  mkDF [("municipio", DObject); ("departamento", DObject)]
       [[VNull; VStr "Valle"]; [VStr "Cali"; VStr "Valle"]].

(** Three records of two municipalities, of which [bogota_service] knows
    one. *)
Definition three_towns : DataFrame :=
  mkDF [("municipio", DObject); ("departamento", DObject); ("producci_n_t", DNumber)]
       [[VStr "Bogota"; VStr "Cundinamarca"; VNum 10];
        [VStr "Cali"; VStr "Valle"; VNum 20];
        [VStr "Bogota"; VStr "Cundinamarca"; VNum 30]].

(** A table with a column of its own labelled [location_x]. *)
Definition with_location_x : DataFrame :=
  mkDF [("municipio", DObject); ("departamento", DObject); ("location_x", DObject)]
       [[VStr "Bogota"; VStr "Cundinamarca"; VStr "sede"]].

(** A table that already carries a [latitude] column. *)
Definition with_latitude : DataFrame :=
  mkDF [("municipio", DObject); ("departamento", DObject); ("latitude", DNumber)]
       [[VStr "Bogota"; VStr "Cundinamarca"; VNum 5]].

Definition harvests : DataFrame :=
  mkDF [("anio", DNumber); ("valor", DNumber)]
       [[VNum 2020; VNum 3]; [VNum 2020; VNum 4]; [VNum 2021; VNum 5]].

(** The named aggregation [registros=("valor", "count")]. *)
Definition yearly_records : list (string * (string * aggfunc)) :=
  [("registros", ("valor", agg_count))].

(** The named aggregation [index=("valor", "count")], whose name is the
    label [reset_index] would give to the index. *)
Definition index_records : list (string * (string * aggfunc)) :=
  [("index", ("valor", agg_count))].

(** An object column of numeric codes beside a text column. *)
Definition coded : DataFrame :=
  mkDF [("municipio", DObject); ("codigo", DObject)]
       [[VStr "CALI"; VNum 76001]; [VStr "BOGOTA"; VNull]].

(** Key columns as a careless export leaves them: upper case, and a
    numeric code where a name should be. *)
Definition mixed_municipio : DataFrame :=
  mkDF [("municipio", DObject); ("departamento", DObject)]
       [[VStr "CALI"; VStr "VALLE"]; [VNum 5001; VStr "ANTIOQUIA"]].

(** Three harvest records, the last one entered twice. *)
Definition repeated_rows : DataFrame :=
  mkDF [("cultivo", DObject); ("anio", DNumber)]
       [[VStr "Papa"; VNum 2020]; [VStr "Cafe"; VNull];
        [VStr "Cafe"; VNull]; [VStr "Papa"; VNum 2021]].

(** Harvest records, one of them without a year. *)
Definition undated_harvest : DataFrame :=
  mkDF [("anio", DNumber); ("valor", DNumber)]
       [[VNum 2020; VNum 3]; [VNull; VNum 4]; [VNum 2021; VNum 5];
        [VNum 2021; VNum 6]].

(** Yields, one of them missing. *)
Definition yields : DataFrame :=
  mkDF [("cultivo", DObject); ("rendimiento", DNumber)]
       [[VStr "Papa"; VNum 12]; [VStr "Cafe"; VNull];
        [VStr "Maiz"; VNum 40]; [VStr "Arroz"; VNum 7]].

(** ** Proofs *)

(** *** Running the state monad *)

Section Run.
Context {A B : Type}.

Lemma run_ret (a : A) (k : A -> M B) w : bind (ret a) k w = k a w.
Proof. reflexivity. Qed.

Lemma run_lift_Ok (r : result A) (a : A) (k : A -> M B) w :
  r = Ok a -> bind (lift r) k w = k a w.
Proof. intros ->. reflexivity. Qed.

Lemma run_lift_Raise (r : result A) e (k : A -> M B) w :
  r = Raise e -> bind (lift r) k w = (Raise e, w).
Proof. intros ->. reflexivity. Qed.

End Run.

Lemma run_load {B} d t (k : DataFrame -> M B) w :
  heap w !! d = Some t -> bind (load d) k w = k t w.
Proof. intros H. unfold bind, load. rewrite H. reflexivity. Qed.

Lemma run_store {B} d df (k : unit -> M B) w :
  bind (store d df) k w
  = k tt (mkWorld (<[d := df]> (heap w)) (self_dataframe w)
                  (geocode_calls w) (stdout w)).
Proof. reflexivity. Qed.

Lemma run_alloc {B} df (k : nat -> M B) w :
  bind (alloc df) k w
  = k (length (heap w))
      (mkWorld (heap w ++ [df]) (self_dataframe w) (geocode_calls w) (stdout w)).
Proof. reflexivity. Qed.

Lemma run_print {B} line (k : unit -> M B) w :
  bind (print line) k w
  = k tt (mkWorld (heap w) (self_dataframe w) (geocode_calls w)
                  (stdout w ++ [line])).
Proof. reflexivity. Qed.

(** The loop of lines 143-145: one call per element, in order. *)
Lemma mapM_geocode service (l : list value) w :
  mapM (geocode service) l w
  = (Ok (map service l),
     mkWorld (heap w) (self_dataframe w) (geocode_calls w ++ l) (stdout w)).
Proof.
  revert w. induction l as [|x l IH]; intros w.
  - cbn. rewrite app_nil_r. destruct w; reflexivity.
  - cbn [mapM]. unfold bind at 1. unfold geocode at 1.
    unfold bind at 1. rewrite IH. cbn.
    rewrite <- app_assoc. reflexivity.
Qed.

(** *** The enricher without its two columns *)

Lemma has_column_false t c : c ∉ columns t -> has_column t c = false.
Proof. intros H. unfold has_column. by rewrite bool_decide_eq_false. Qed.

Lemma geocode_skip service w d t :
  heap w !! d = Some t ->
  "municipio" ∉ columns t \/ "departamento" ∉ columns t ->
  geocode_dataframe service (Some d) w
  = (Ok d, mkWorld (heap w) (self_dataframe w) (geocode_calls w)
                   (stdout w ++ [notice])).
Proof.
  intros Hd Hmiss. unfold geocode_dataframe.
  rewrite run_ret, (run_load _ _ _ _ Hd).
  assert (has_column t "municipio" && has_column t "departamento" = false) as ->.
  { destruct Hmiss as [H|H]; rewrite (has_column_false _ _ H);
      [reflexivity | apply andb_false_r]. }
  reflexivity.
Qed.

(** C4.  When the table lacks the [municipio] or the [departamento] column,
    [geocode_dataframe] returns normally, and what it returns is the very
    frame it was given; no frame of the heap is changed (no column added, no
    row altered), no lookup is made, and the only effect is one line of
    notice on the output.  The table is the argument, or the managed one
    when the argument is left out. *)
Theorem geocode_missing_columns_noop service w dataframe d t :
  dataframe = Some d \/ (dataframe = None /\ self_dataframe w = Some d) ->
  heap w !! d = Some t ->
  "municipio" ∉ columns t \/ "departamento" ∉ columns t ->
  geocode_dataframe service dataframe w
  = (Ok d, mkWorld (heap w) (self_dataframe w) (geocode_calls w)
                   (stdout w ++ [notice])).
Proof.
  intros [-> | [-> Hself]] Hd Hmiss.
  - by apply geocode_skip with t.
  - rewrite <- (geocode_skip service w d t Hd Hmiss).
    unfold geocode_dataframe, bind at 1 3, get_self_dataframe, ret.
    rewrite Hself. reflexivity.
Qed.

Lemma geocode_missing_columns_noop_witness :
  geocode_dataframe (fun _ => None) None (mkWorld [only_municipio] (Some 0%nat) [] [])
  = (Ok 0%nat, mkWorld [only_municipio] (Some 0%nat) [] [notice]).
Proof.
  apply (geocode_missing_columns_noop (fun _ => None)
           (mkWorld [only_municipio] (Some 0%nat) [] []) None 0%nat only_municipio).
  - right. split; reflexivity.
  - reflexivity.
  - right. apply (proj1 (bool_decide_eq_false _)). reflexivity.
Defined.

(** C7.  [fix_string_case] does change the managed frame in place, but
    [geocode_dataframe] does not leave the coordinates in it.  Run on the
    managed table (argument left out), it returns a new frame that carries
    them, while [self.dataframe] still names the old frame afterwards, and
    that frame has gained only the [geolocalizacion] column: the test
    [dataframe is self.dataframe] of line 162 is made after [dataframe] has
    been rebound to the merged frame. *)
Theorem geocode_managed_table_lacks_coordinates unidecode :
  let w0 := mkWorld [bogota_raw] (Some 0%nat) [] [] in
  let cleaned := fix_string_case unidecode 0%nat w0 in
  let out := geocode_dataframe constant_service None cleaned.2 in
  cleaned.1 = Ok 0%nat
  /\ rows <$> heap cleaned.2 !! 0%nat
     = Some [[VStr (capitalize (lower (unidecode "BOGOTA")));
              VStr (capitalize (lower (unidecode "CUNDINAMARCA"))); VNum 10]]
  /\ out.1 = Ok 1%nat
  /\ self_dataframe out.2 = Some 0%nat
  /\ columns <$> heap out.2 !! 0%nat
     = Some ["municipio"; "departamento"; "producci_n_t"; "geolocalizacion"]
  /\ columns <$> heap out.2 !! 1%nat
     = Some ["municipio"; "departamento"; "producci_n_t"; "geolocalizacion";
             "location"; "latitude"; "longitude"].
Proof. repeat split. Qed.

(** *** Rounding *)

Lemma rint_cases q :
  (rint q = Qfloor q /\ q - inject_Z (Qfloor q) <= 1 # 2)%Q
  \/ (rint q = (Qfloor q + 1)%Z /\ 1 # 2 <= q - inject_Z (Qfloor q))%Q.
Proof.
  unfold rint. cbv zeta.
  destruct (q - inject_Z (Qfloor q) ?= 1 # 2)%Q eqn:E.
  - apply Qeq_alt in E.
    destruct (Z.even (Qfloor q)); [left|right]; split; auto; rewrite E; lra.
  - apply Qlt_alt in E. left. split; auto. lra.
  - apply Qgt_alt in E. right. split; auto. lra.
Qed.

Lemma rint_near q : (Qabs (inject_Z (rint q) - q) <= 1 # 2)%Q.
Proof.
  pose proof (Qfloor_le q) as H1. pose proof (Qlt_floor q) as H2.
  rewrite inject_Z_plus in H2. change (inject_Z 1) with 1%Q in H2.
  apply Qabs_case; intros _;
  destruct (rint_cases q) as [[-> H]|[-> H]];
    try (rewrite inject_Z_plus; change (inject_Z 1) with 1%Q); lra.
Qed.

Lemma rint_le q m : (q <= inject_Z m)%Q -> rint q <= m.
Proof.
  intros H. pose proof (Qfloor_le q) as H1.
  destruct (rint_cases q) as [[-> H']|[-> H']].
  - rewrite Zle_Qle. lra.
  - assert (inject_Z (Qfloor q) < inject_Z m)%Q as H3 by lra.
    rewrite <- Zlt_Qlt in H3. lia.
Qed.

Lemma rint_nonneg q : (0 <= q)%Q -> 0 <= rint q.
Proof.
  intros H. apply Qfloor_resp_le in H. change (Qfloor 0) with 0 in H.
  destruct (rint_cases q) as [[-> _]|[-> _]]; lia.
Qed.

Lemma rint_comp q q' : (q == q')%Q -> rint q = rint q'.
Proof.
  intros H. unfold rint. rewrite (Qfloor_comp _ _ H).
  assert (q - inject_Z (Qfloor q') == q' - inject_Z (Qfloor q'))%Q as E
    by (apply Qplus_comp; [exact H | reflexivity]).
  rewrite (Qcompare_comp _ _ E _ _ (Qeq_refl _)). reflexivity.
Qed.

(** *** Percentages per column *)

Lemma no_true_cells (f : value -> bool) (l : list value) :
  Forall (fun x => f x = false) l ->
  filter (fun b : bool => b = true) (map f l) = [].
Proof.
  induction 1 as [|x l Hx _ IH]; [reflexivity|].
  cbn [map]. rewrite filter_cons. rewrite Hx.
  destruct (decide (false = true)); [discriminate | exact IH].
Qed.

Lemma share_bounds (k n : nat) :
  (k <= n)%nat -> (0 < n)%nat ->
  (0 <= (Z.of_nat k # Pos.of_nat n) * 100 * 100 <= inject_Z 10000)%Q.
Proof.
  intros Hk Hn.
  assert (0 <= Z.of_nat k # Pos.of_nat n <= 1)%Q as [H0 H1].
  { unfold Qle. cbn [Qnum Qden]. destruct n as [|m]; [lia|].
    rewrite <- Pos.of_nat_succ, Zpos_P_of_succ_nat. lia. }
  change (inject_Z 10000) with 10000%Q. split; lra.
Qed.

Lemma pct_arith (h p : Q) :
  (0 <= h <= 10000)%Q -> (-(1 # 2) <= h - p * 100 * 100 <= 1 # 2)%Q ->
  (0 <= h / 100 <= 100)%Q /\ (Qabs (h / 100 - p * 100) <= 1 # 200)%Q.
Proof.
  intros [H0 H1] [H2 H3].
  unfold Qdiv. change (/ 100)%Q with (1 # 100)%Q.
  split; [split; lra|].
  apply Qabs_Qle_condition. split; lra.
Qed.

Lemma percentages_spec (f : value -> bool) data i c :
  rows data <> [] ->
  columns data !! i = Some c ->
  exists v : Q,
    percentages f data !! i = Some (c, float_str (Some v) +:+ "%")
    /\ (0 <= v <= 100)%Q
    /\ (exists h : Z, v = (inject_Z h / 100)%Q)
    /\ (Qabs (v - exact_percentage f data i) <= 1 # 200)%Q
    /\ (Forall (fun x => f x = false) (column_cells data i) ->
        percentages f data !! i = Some (c, "0.0%")).
Proof.
  intros Hrows Hc. unfold percentages, exact_percentage.
  rewrite list_lookup_imap, Hc. cbn [fmap option_fmap option_map].
  assert (length (map f (column_cells data i)) = length (rows data)) as Hlen
    by (unfold column_cells; by rewrite !length_map).
  assert (0 < length (rows data))%nat as Hpos
    by (destruct (rows data); [done | cbn; lia]).
  set (bs := map f (column_cells data i)) in *.
  set (k := length (filter (fun b : bool => b = true) bs)).
  assert (k <= length (rows data))%nat as Hk
    by (rewrite <- Hlen; apply length_filter).
  assert (mean bs = Some (Z.of_nat k # Pos.of_nat (length (rows data)))) as ->.
  { unfold mean. destruct bs; [cbn in Hlen; lia|]. by rewrite Hlen. }
  cbn [times_100 round_2 fmap option_fmap option_map].
  set (p := (Z.of_nat k # Pos.of_nat (length (rows data)))%Q).
  destruct (share_bounds k (length (rows data)) Hk Hpos) as [Hlo Hhi].
  fold p in Hlo, Hhi.
  pose proof (rint_nonneg _ Hlo) as Hh0. pose proof (rint_le _ _ Hhi) as Hh1.
  pose proof (rint_near (p * 100 * 100)) as Hnear.
  apply Qabs_Qle_condition in Hnear. destruct Hnear as [Hn1 Hn2].
  rewrite Zle_Qle in Hh0, Hh1.
  change (inject_Z 0) with 0%Q in Hh0. change (inject_Z 10000) with 10000%Q in Hh1.
  destruct (pct_arith (inject_Z (rint (p * 100 * 100))) p) as [Hv Hclose];
    [by split | by split |].
  eexists. split; [reflexivity|].
  split; [exact Hv|].
  split; [eexists; reflexivity|].
  split.
  - exact Hclose.
  - intros Hnone. do 2 f_equal.
    assert (k = 0%nat) as Hk0 by (unfold k, bs, column_cells; by rewrite no_true_cells).
    assert (rint (p * 100 * 100) = 0) as ->.
    { rewrite (rint_comp _ 0); [reflexivity|].
      unfold p. rewrite Hk0. unfold Qeq. cbn. lia. }
    reflexivity.
Qed.

(** C8 (amended).  For every table with at least one row, the text
    [missing_values] shows for a column is a number [v] followed by [%],
    where [v] lies in [0, 100], has two decimals and is within half a
    hundredth of the exact percentage of missing cells; for a column with
    no missing cell the text is exactly ["0.0%"]. *)
Theorem missing_values_percentage data i c :
  rows data <> [] ->
  columns data !! i = Some c ->
  exists v : Q,
    missing_values data !! i = Some (c, float_str (Some v) +:+ "%")
    /\ (0 <= v <= 100)%Q
    /\ (exists h : Z, v = (inject_Z h / 100)%Q)
    /\ (Qabs (v - exact_percentage isnull data i) <= 1 # 200)%Q
    /\ (Forall (fun x => isnull x = false) (column_cells data i) ->
        missing_values data !! i = Some (c, "0.0%")).
Proof. apply percentages_spec. Qed.

Lemma missing_values_percentage_witness :
  exists v : Q,
    missing_values missing_municipio !! 1%nat
    = Some ("departamento", float_str (Some v) +:+ "%")
    /\ (0 <= v <= 100)%Q
    /\ (exists h : Z, v = (inject_Z h / 100)%Q)
    /\ (Qabs (v - exact_percentage isnull missing_municipio 1) <= 1 # 200)%Q
    /\ (Forall (fun x => isnull x = false) (column_cells missing_municipio 1) ->
        missing_values missing_municipio !! 1%nat = Some ("departamento", "0.0%")).
Proof.
  apply (missing_values_percentage missing_municipio 1 "departamento");
    [discriminate | reflexivity].
Defined.

(** C8 as stated fails on a table without rows: its columns have no
    missing cell, and the text shown for them is ["nan%"]. *)
Lemma missing_values_no_rows :
  Forall (fun x => isnull x = false) (column_cells no_rows 0)
  /\ missing_values no_rows = [("municipio", "nan%"); ("departamento", "nan%")].
Proof. split; [constructor | reflexivity]. Qed.

(** C9 (amended).  For every table with at least one row and every column,
    text or numeric, the text [zero_values] shows is a number [v] followed
    by [%], where [v] has two decimals and is within half a hundredth of the
    exact percentage of cells equal to 0; for a column that holds only text
    it is ["0.0%"]. *)
Theorem zero_values_percentage data i c :
  rows data <> [] ->
  columns data !! i = Some c ->
  exists v : Q,
    zero_values data !! i = Some (c, float_str (Some v) +:+ "%")
    /\ (exists h : Z, v = (inject_Z h / 100)%Q)
    /\ (Qabs (v - exact_percentage eq_zero data i) <= 1 # 200)%Q
    /\ (Forall (fun x => is_str x = true) (column_cells data i) ->
        zero_values data !! i = Some (c, "0.0%")).
Proof.
  intros Hrows Hc.
  destruct (percentages_spec eq_zero data i c Hrows Hc)
    as (v & Hv & _ & Hh & Hnear & Hzero).
  exists v. repeat split; try assumption.
  intros Htext. apply Hzero.
  eapply Forall_impl; [exact Htext|].
  intros [s| |]; cbn; congruence.
Qed.

Lemma zero_values_percentage_witness :
  exists v : Q,
    zero_values bogota !! 0%nat = Some ("municipio", float_str (Some v) +:+ "%")
    /\ (exists h : Z, v = (inject_Z h / 100)%Q)
    /\ (Qabs (v - exact_percentage eq_zero bogota 0) <= 1 # 200)%Q
    /\ (Forall (fun x => is_str x = true) (column_cells bogota 0) ->
        zero_values bogota !! 0%nat = Some ("municipio", "0.0%")).
Proof.
  apply (zero_values_percentage bogota 0 "municipio");
    [discriminate | reflexivity].
Defined.

(** C9 as stated fails on a table without rows: a column that (vacuously)
    holds only text is shown as ["nan%"]. *)
Lemma zero_values_no_rows :
  Forall (fun x => is_str x = true) (column_cells no_rows 0)
  /\ zero_values no_rows = [("municipio", "nan%"); ("departamento", "nan%")].
Proof. split; [constructor | reflexivity]. Qed.

(** *** Sorting *)

Section Sorting.
Context {A : Type} (before : A -> A -> bool).
Hypothesis before_total : forall x y, before x y = false -> before y x = true.

Let R (x y : A) : Prop := before x y = true.

Lemma length_insert_by x l : length (insert_by before x l) = S (length l).
Proof.
  induction l as [|y l IH]; [reflexivity|].
  cbn. destruct (before x y); cbn; congruence.
Qed.

Lemma length_sort_by l : length (sort_by before l) = length l.
Proof.
  induction l as [|x l IH]; [reflexivity|].
  cbn. rewrite length_insert_by. unfold sort_by in IH. congruence.
Qed.

Lemma HdRel_insert_by y x l :
  R y x -> HdRel R y l -> HdRel R y (insert_by before x l).
Proof.
  intros Hyx Hl. destruct l as [|z l]; cbn.
  - by constructor.
  - inversion Hl; subst. destruct (before x z); by constructor.
Qed.

Lemma Sorted_insert_by x l : Sorted R l -> Sorted R (insert_by before x l).
Proof.
  induction 1 as [|y l Hs IH Hhd]; cbn.
  - repeat constructor.
  - destruct (before x y) eqn:E.
    + constructor; [by constructor | by constructor].
    + constructor; [exact IH|].
      apply HdRel_insert_by; [by apply before_total | exact Hhd].
Qed.

Lemma Sorted_sort_by l : Sorted R (sort_by before l).
Proof.
  induction l as [|x l IH]; [constructor|].
  cbn. by apply Sorted_insert_by.
Qed.

End Sorting.

Lemma Sorted_take {A} (R : A -> A -> Prop) n l :
  Sorted R l -> Sorted R (take n l).
Proof.
  intros H. revert n. induction H as [|x l Hs IH Hhd]; intros [|n]; cbn;
    try constructor.
  - apply IH.
  - destruct Hhd; destruct n; cbn; by constructor.
Qed.

Lemma value_leb_total a b : value_leb a b = false -> value_leb b a = true.
Proof.
  destruct a as [x|x|], b as [y|y|]; cbn; try congruence.
  - intros H. destruct (String.leb_total x y) as [H'|H']; congruence.
  - lia.
Qed.

(** *** The grouped table *)

Lemma set_columns_Ok df labels df' :
  set_columns df labels = Ok df' ->
  columns df' = labels /\ rows df' = rows df.
Proof.
  unfold set_columns. case_bool_decide as Hlen; [|discriminate].
  intros [= <-]. split; [|reflexivity].
  unfold columns. cbn. apply fst_zip. rewrite length_fmap. lia.
Qed.

Lemma insert_by_snd {A B} (before : B -> B -> bool) (x : A * B) l :
  (insert_by (fun p q => before p.2 q.2) x l).*2 = insert_by before x.2 l.*2.
Proof.
  induction l as [|y l IH]; [done|].
  cbn. destruct (before x.2 y.2); cbn; by rewrite ?IH.
Qed.

Lemma sort_by_snd {A B} (before : B -> B -> bool) (l : list (A * B)) :
  (sort_by (fun p q => before p.2 q.2) l).*2 = sort_by before l.*2.
Proof.
  induction l as [|x l IH]; [done|].
  cbn. rewrite insert_by_snd. unfold sort_by in IH. by rewrite IH.
Qed.

Lemma snd_imap_pair {A} (l : list A) : (imap (fun n r => (n, r)) l).*2 = l.
Proof.
  apply list_eq. intros j. rewrite list_lookup_fmap, list_lookup_imap.
  by destruct (l !! j).
Qed.

Lemma sort_values_desc_Ok df c index df' :
  sort_values_desc df c = Ok (index, df') ->
  exists i, index_of c (columns df) = Some i
    /\ header df' = header df
    /\ rows df' = sort_by (fun r1 r2 => value_leb (cell i r2) (cell i r1)) (rows df)
    /\ length index = length (rows df').
Proof.
  unfold sort_values_desc, find_column.
  destruct (index_of c (columns df)) as [i|]; [|discriminate]. cbn [rbind].
  destruct (_ && _); [discriminate|].
  intros [= <- <-]. exists i. split; [done|]. split; [done|]. cbn [rows]. split.
  - rewrite (sort_by_snd (fun r1 r2 => value_leb (cell i r2) (cell i r1))).
    by rewrite snd_imap_pair.
  - by rewrite !length_fmap.
Qed.

Lemma without_label_absent {A} c labels (l : list A) :
  c ∉ labels -> without_label c labels l = l.
Proof.
  revert l. induction labels as [|label labels IH]; intros l Hc; [by destruct l|].
  apply not_elem_of_cons in Hc as [Hne Hc]. destruct l as [|x l]; [done|].
  cbn. rewrite bool_decide_eq_false_2 by done. by rewrite IH.
Qed.

(** On a frame without a column "index", the column that [reset_index]
    inserts is the one that [drop] takes out again. *)
Lemma reset_index_drop_plain index df :
  "index" ∉ columns df ->
  length index = length (rows df) ->
  reset_index_drop index df = Ok df.
Proof.
  intros Hc Hlen. unfold reset_index_drop, has_column.
  rewrite (bool_decide_eq_false_2 _ Hc). cbv iota.
  rewrite (bool_decide_eq_false_2 _ Hc). f_equal.
  unfold drop_columns. unfold columns at 1 2. cbn [header rows fmap list_fmap fst].
  fold (columns df). cbn [without_label]. rewrite bool_decide_eq_true_2 by done.
  destruct df as [hdr rws]. cbn [header rows] in *. f_equal.
  - by apply without_label_absent.
  - change (columns (mkDF hdr rws)) with (hdr.*1) in *.
    revert index Hlen. induction rws as [|r rws IH]; intros [|n index] Hlen;
      try done.
    cbn. rewrite without_label_absent by done. f_equal. apply IH. by injection Hlen.
Qed.

(** The steps of [grouped_table] after the grouping, on labels that leave
    "index" alone. *)
Lemma grouped_table_steps data group_by_columns aggregation_columns
    sort_by_column top_n out :
  "index" ∉ group_by_columns ++ aggregation_columns.*1 ->
  grouped_table data group_by_columns aggregation_columns sort_by_column top_n
  = Ok out ->
  exists g1 g i,
    groupby_agg data group_by_columns aggregation_columns = Ok g1
    /\ columns g = group_by_columns ++ aggregation_columns.*1
    /\ index_of sort_by_column (columns g) = Some i
    /\ rows g = sort_by (fun r1 r2 => value_leb (cell i r2) (cell i r1)) (rows g1)
    /\ forall n, grouped_table data group_by_columns aggregation_columns
                   sort_by_column n = Ok (head g (default 10 n)).
Proof.
  intros Hidx Hrun. unfold grouped_table in *.
  destruct (groupby_agg _ _ _) as [g1|]; [|discriminate]. cbn [rbind] in *.
  destruct (set_columns _ _) as [g2|] eqn:H2; [|discriminate]. cbn [rbind] in *.
  destruct (sort_values_desc _ _) as [[index g3]|] eqn:H3; [|discriminate].
  cbn [rbind fst snd] in *.
  apply set_columns_Ok in H2 as [Hcols Hrows2].
  apply sort_values_desc_Ok in H3 as (i & Hi & Hhdr & Hrows & Hlen).
  assert (columns g3 = group_by_columns ++ aggregation_columns.*1) as Hcols3
    by (unfold columns in *; by rewrite Hhdr).
  rewrite reset_index_drop_plain in * by (by rewrite ?Hcols3).
  cbn [rbind] in *.
  exists g1, g3, i. split; [done|]. split; [done|].
  split; [by rewrite Hcols3, <- Hcols|]. split; [by rewrite Hrows, Hrows2 | done].
Qed.

Lemma length_head df n :
  0 <= n -> Z.of_nat (length (rows (head df n))) <= n.
Proof.
  intros Hn. unfold head. destruct (0 <=? n) eqn:E; [|lia].
  cbn. rewrite length_take. lia.
Qed.

Lemma rows_head df n : exists m, rows (head df n) = take m (rows df).
Proof. unfold head. destruct (0 <=? n); eexists; reflexivity. Qed.

Lemma header_head df n : header (head df n) = header df.
Proof. unfold head. by destruct (0 <=? n). Qed.

(** C5 (amended).  On a table whose column labels are distinct, with
    group-by columns and aggregation names none of which is "index":
    whenever [grouped_table] returns a table and the limit [top_n] (10 when
    left out) is not negative, that table has at most [top_n] rows, its
    columns are the group-by columns followed by the names of the
    aggregations, and its rows are in descending order of the sort column,
    missing cells last. *)
Theorem grouped_table_top_sorted data group_by_columns aggregation_columns
    sort_by_column top_n out :
  NoDup (columns data) ->
  "index" ∉ group_by_columns ++ aggregation_columns.*1 ->
  grouped_table data group_by_columns aggregation_columns sort_by_column top_n
  = Ok out ->
  0 <= default 10 top_n ->
  Z.of_nat (length (rows out)) <= default 10 top_n
  /\ columns out = group_by_columns ++ aggregation_columns.*1
  /\ exists i, index_of sort_by_column (columns out) = Some i
       /\ Sorted (descending i) (rows out).
Proof.
  intros _ Hidx Hrun Htop.
  destruct (grouped_table_steps _ _ _ _ _ _ Hidx Hrun)
    as (g1 & g & i & _ & Hcols & Hi & Hrows & Hall).
  rewrite Hall in Hrun. injection Hrun as <-.
  assert (columns (head g (default 10 top_n)) = columns g) as Hsame
    by (unfold columns; by rewrite header_head).
  split; [by apply length_head|].
  split; [by rewrite Hsame|].
  exists i. split; [by rewrite Hsame|].
  destruct (rows_head g (default 10 top_n)) as [m ->].
  apply Sorted_take. rewrite Hrows.
  apply (Sorted_sort_by (fun r1 r2 => value_leb (cell i r2) (cell i r1))).
  intros x y. apply value_leb_total.
Qed.

Lemma grouped_table_top_sorted_witness :
  Z.of_nat (length (rows (mkDF [("anio", DNumber); ("registros", DNumber)]
                               [[VNum 2020; VNum 2]]))) <= 1
  /\ columns (mkDF [("anio", DNumber); ("registros", DNumber)] [[VNum 2020; VNum 2]])
     = ["anio"] ++ yearly_records.*1
  /\ exists i,
       index_of "registros"
         (columns (mkDF [("anio", DNumber); ("registros", DNumber)]
                        [[VNum 2020; VNum 2]]))
       = Some i
       /\ Sorted (descending i)
            (rows (mkDF [("anio", DNumber); ("registros", DNumber)]
                        [[VNum 2020; VNum 2]])).
Proof.
  apply (grouped_table_top_sorted harvests ["anio"] yearly_records "registros"
           (Some 1));
    [apply (bool_decide_unpack _); reflexivity
    | apply (bool_decide_unpack _); reflexivity
    | reflexivity | cbn; lia].
Defined.

(** C5 as stated fails for a negative limit, for which [head] keeps all
    rows but the last ones: with [top_n = -1] and two groups, one row is
    returned, which is more than [top_n].  It fails where the table lacks
    the sort column, no table being returned.  And it fails where an
    aggregation is named "index": [reset_index] then inserts the index as
    "level_0" and [drop] takes out the aggregation itself, so that the
    table returned has the columns [level_0] and [anio], not [anio] and
    [index], and has lost the column it was sorted by. *)
Lemma grouped_table_negative_limit :
  (exists out,
     grouped_table harvests ["anio"] yearly_records "registros" (Some (-1)) = Ok out
     /\ ~ Z.of_nat (length (rows out)) <= -1)
  /\ grouped_table harvests ["anio"] yearly_records "cosecha" None = Raise KeyError
  /\ grouped_table harvests ["anio"] index_records "index" None
     = Ok (mkDF [("level_0", DNumber); ("anio", DNumber)]
                [[VNum 0; VNum 2020]; [VNum 1; VNum 2021]]).
Proof.
  split; [|split; reflexivity].
  eexists. split; [reflexivity|]. cbn. lia.
Qed.

(** *** Labels and cells *)

Lemma index_of_Some c cs i :
  index_of c cs = Some i -> cs !! i = Some c.
Proof.
  revert i. induction cs as [|c' cs IH]; intros i; cbn; [discriminate|].
  case_bool_decide as E.
  - intros [= <-]. by subst.
  - destruct (index_of c cs) as [j|]; cbn; [|discriminate].
    intros [= <-]. by apply IH.
Qed.

Lemma index_of_None c cs : index_of c cs = None <-> c ∉ cs.
Proof.
  induction cs as [|c' cs IH]; cbn.
  - split; [intros _; apply not_elem_of_nil | done].
  - rewrite not_elem_of_cons. case_bool_decide as E.
    + split; [discriminate | intros [H _]; congruence].
    + destruct (index_of c cs) as [j|]; cbn.
      * split; [discriminate|]. intros [_ H]. by apply IH in H.
      * split; [|done]. intros _. split; [congruence | by apply IH].
Qed.

Lemma index_of_elem c cs : c ∈ cs -> exists i, index_of c cs = Some i.
Proof.
  intros H. destruct (index_of c cs) as [i|] eqn:E; [by exists i|].
  by apply index_of_None in E.
Qed.

Lemma index_of_app_l c cs l i :
  index_of c cs = Some i -> index_of c (cs ++ l) = Some i.
Proof.
  revert i. induction cs as [|c' cs IH]; intros i; cbn; [discriminate|].
  case_bool_decide; [done|].
  destruct (index_of c cs) as [j|]; cbn; [|discriminate].
  intros [= <-]. by rewrite (IH j).
Qed.

Lemma index_of_app_r c cs l :
  c ∉ cs -> index_of c (cs ++ l) = (fun j => (length cs + j)%nat) <$> index_of c l.
Proof.
  induction cs as [|c' cs IH]; cbn.
  - intros _. by destruct (index_of c l).
  - rewrite not_elem_of_cons. intros [Hne Hnot].
    rewrite bool_decide_eq_false_2 by congruence.
    rewrite (IH Hnot). by destruct (index_of c l).
Qed.

Lemma index_of_insert c cs i :
  index_of c cs = Some i -> <[i := c]> cs = cs.
Proof. intros H. apply list_insert_id. by apply index_of_Some. Qed.

Lemma cell_lookup i r : cell i r = default VNull (r !! i).
Proof. unfold cell. apply nth_lookup. Qed.

Lemma cell_app_l i r l : (i < length r)%nat -> cell i (r ++ l) = cell i r.
Proof. intros H. rewrite !cell_lookup. by rewrite lookup_app_l. Qed.

Lemma cell_app_r i r l : cell (length r + i) (r ++ l) = cell i l.
Proof. rewrite !cell_lookup. by rewrite lookup_app_r, Nat.add_comm, Nat.add_sub by lia. Qed.

Lemma cell_insert_eq i v r : (i < length r)%nat -> cell i (<[i := v]> r) = v.
Proof. intros H. rewrite cell_lookup. by rewrite list_lookup_insert_eq. Qed.

Lemma cell_insert_ne i j v r : i <> j -> cell j (<[i := v]> r) = cell j r.
Proof. intros H. rewrite !cell_lookup. by rewrite list_lookup_insert_ne. Qed.

Lemma wf_row t r : wf t = true -> r ∈ rows t -> length r = length (columns t).
Proof.
  unfold wf, columns. rewrite forallb_forall, length_fmap. intros H Hr.
  apply list_elem_of_In in Hr. apply H in Hr. by apply bool_decide_eq_true in Hr.
Qed.

Lemma zip_with_map_same {A B C} (f : A -> B -> C) (g : A -> B) (l : list A) :
  zip_with f l (map g l) = map (fun x => f x (g x)) l.
Proof. induction l; cbn; congruence. Qed.

Lemma map_ext_elem {A B} (f g : A -> B) (l : list A) :
  (forall x, x ∈ l -> f x = g x) -> map f l = map g l.
Proof.
  intros H. apply map_ext_in. intros x Hx. apply H. by apply list_elem_of_In.
Qed.

(** *** Assigning a column and reading it back *)

Lemma columns_setitem_new t c s :
  c ∉ columns t -> columns (setitem t c s) = columns t ++ [c].
Proof.
  intros H. unfold setitem. apply index_of_None in H. rewrite H.
  unfold columns. cbn. by rewrite fmap_app.
Qed.

Lemma columns_setitem_old t c s :
  c ∈ columns t -> columns (setitem t c s) = columns t.
Proof.
  intros H. unfold setitem. destruct (index_of_elem _ _ H) as [i Hi]. rewrite Hi.
  unfold columns. cbn. rewrite list_fmap_insert. cbn.
  by apply index_of_insert.
Qed.

Lemma rows_setitem t c dt (g : list value -> value) :
  rows (setitem t c (mkSeries dt (map g (rows t))))
  = map (fun r => match index_of c (columns t) with
                  | Some i => <[i := g r]> r
                  | None => r ++ [g r]
                  end) (rows t).
Proof.
  unfold setitem. destruct (index_of c (columns t)) as [i|]; cbn.
  - apply (zip_with_map_same (fun r v => <[i := v]> r) g).
  - apply (zip_with_map_same (fun r v => r ++ [v]) g).
Qed.

Lemma getitem_setitem t c dt (g : list value -> value) :
  wf t = true ->
  getitem (setitem t c (mkSeries dt (map g (rows t)))) c
  = Ok (mkSeries dt (map g (rows t))).
Proof.
  intros Hwf. unfold getitem.
  destruct (index_of c (columns t)) as [i|] eqn:Hi.
  - assert (c ∈ columns t) as Hin
      by (apply list_elem_of_lookup; exists i; by apply index_of_Some).
    rewrite (columns_setitem_old _ _ _ Hin), Hi.
    pose proof (lookup_lt_Some _ _ _ (index_of_Some _ _ _ Hi)) as Hlt.
    f_equal. f_equal.
    + unfold setitem. rewrite Hi. cbn. rewrite list_fmap_insert. cbn.
      unfold columns in Hlt. rewrite length_fmap in Hlt.
      apply nth_lookup_Some. rewrite list_lookup_insert_eq; [done|].
      by rewrite length_fmap.
    + rewrite rows_setitem, Hi, map_map. apply map_ext_elem. intros r Hr.
      apply cell_insert_eq. by rewrite (wf_row t r Hwf Hr).
  - apply index_of_None in Hi.
    rewrite (columns_setitem_new _ _ _ Hi), (index_of_app_r _ _ _ Hi).
    cbn. rewrite bool_decide_eq_true_2 by done. cbn. rewrite Nat.add_0_r.
    f_equal. f_equal.
    + unfold setitem. apply index_of_None in Hi. rewrite Hi. cbn.
      rewrite fmap_app. cbn. unfold columns. rewrite length_fmap.
      apply nth_lookup_Some.
      rewrite lookup_app_r by (rewrite length_fmap; lia).
      by rewrite length_fmap, Nat.sub_diag.
    + rewrite rows_setitem. apply index_of_None in Hi. rewrite Hi, map_map.
      apply map_ext_elem. intros r Hr.
      rewrite <- (wf_row t r Hwf Hr).
      rewrite <- (Nat.add_0_r (length r)). by rewrite cell_app_r.
Qed.

(** *** The key column *)

Lemma rmap_Ok {A B} (f : A -> result B) (g : A -> B) (l : list A) :
  (forall x, x ∈ l -> f x = Ok (g x)) -> rmap f l = Ok (map g l).
Proof.
  induction l as [|x l IH]; intros H; [reflexivity|].
  cbn. rewrite (H x) by left. cbn.
  rewrite IH; [reflexivity|]. intros y Hy. apply H. by right.
Qed.

Lemma rzip_with_Ok {R A B C} (f : A -> B -> result C)
    (a : R -> A) (b : R -> B) (g : R -> C) (l : list R) :
  (forall r, r ∈ l -> f (a r) (b r) = Ok (g r)) ->
  rzip_with f (map a l) (map b l) = Ok (map g l).
Proof.
  induction l as [|x l IH]; intros H; [reflexivity|].
  cbn. rewrite (H x) by left. cbn.
  rewrite IH; [reflexivity|]. intros y Hy. apply H. by right.
Qed.

Lemma getitem_column t c i :
  index_of c (columns t) = Some i ->
  getitem t c = Ok (mkSeries (nth i (header t).*2 DObject) (map (cell i) (rows t))).
Proof. intros H. unfold getitem. by rewrite H. Qed.

Lemma text_keys_inv t :
  text_keys t = true ->
  exists mi di,
    index_of "municipio" (columns t) = Some mi
    /\ index_of "departamento" (columns t) = Some di
    /\ nth mi (header t).*2 DObject = DObject
    /\ (forall r, r ∈ rows t -> is_str_or_null (cell mi r) = true)
    /\ (forall r, r ∈ rows t -> is_str_or_null (cell di r) = true).
Proof.
  unfold text_keys, getitem.
  destruct (index_of "municipio" (columns t)) as [mi|]; [|discriminate].
  destruct (index_of "departamento" (columns t)) as [di|]; [|discriminate].
  cbn [s_dtype s_values]. rewrite !andb_true_iff, !forallb_forall.
  intros [[Hdt Hm] Hd]. apply bool_decide_eq_true in Hdt.
  exists mi, di. repeat split; try done.
  - intros r Hr. apply Hm, in_map. by apply list_elem_of_In.
  - intros r Hr. apply Hd, in_map. by apply list_elem_of_In.
Qed.

Lemma text_keys_columns t :
  text_keys t = true ->
  has_column t "municipio" && has_column t "departamento" = true.
Proof.
  intros H. destruct (text_keys_inv t H) as (mi & di & Hmi & Hdi & _).
  unfold has_column. rewrite !bool_decide_eq_true_2; [done| |].
  - apply list_elem_of_lookup. exists di. by apply index_of_Some.
  - apply list_elem_of_lookup. exists mi. by apply index_of_Some.
Qed.

(** Lines 134: the three concatenations succeed on text keys and give the
    Location Keys. *)
Lemma key_series t mi di :
  index_of "municipio" (columns t) = Some mi ->
  index_of "departamento" (columns t) = Some di ->
  (forall r, r ∈ rows t -> is_str_or_null (cell mi r) = true) ->
  (forall r, r ∈ rows t -> is_str_or_null (cell di r) = true) ->
  forall dt,
  exists s1 s2,
    add_str (mkSeries DObject (map (cell mi) (rows t))) ", " = Ok s1
    /\ add_series s1 (mkSeries dt (map (cell di) (rows t))) = Ok s2
    /\ add_str s2 ", Colombia" = Ok (mkSeries DObject (row_keys t)).
Proof.
  intros Hmi Hdi Hm Hd dt.
  set (k1 := fun r => match cell mi r with VStr a => VStr (a +:+ ", ") | _ => VNull end).
  set (k2 := fun r => match cell mi r, cell di r with
                      | VStr a, VStr b => VStr ((a +:+ ", ") +:+ b)
                      | _, _ => VNull
                      end).
  exists (mkSeries DObject (map k1 (rows t))), (mkSeries DObject (map k2 (rows t))).
  split; [|split].
  - unfold add_str. cbn [s_dtype s_values].
    rewrite (rmap_Ok _ (fun v => match v with VStr a => VStr (a +:+ ", ") | _ => VNull end)).
    + cbn. by rewrite map_map.
    + intros v Hv. apply list_elem_of_fmap in Hv as (r & -> & Hr).
      specialize (Hm r Hr). by destruct (cell mi r).
  - unfold add_series. cbn [s_values].
    rewrite (rzip_with_Ok add_cells k1 (cell di) k2); [reflexivity|].
    intros r Hr. specialize (Hm r Hr). specialize (Hd r Hr). unfold k1, k2.
    by destruct (cell mi r), (cell di r).
  - unfold add_str. cbn [s_dtype s_values].
    rewrite (rmap_Ok _ (fun v => match v with VStr a => VStr (a +:+ ", Colombia") | _ => VNull end)).
    + cbn. rewrite map_map. do 2 f_equal. unfold row_keys.
      apply map_ext_elem. intros r Hr. unfold row_key, k2. rewrite Hmi, Hdi.
      specialize (Hm r Hr). specialize (Hd r Hr).
      by destruct (cell mi r), (cell di r).
    + intros v Hv. apply list_elem_of_fmap in Hv as (r & -> & Hr).
      specialize (Hm r Hr). specialize (Hd r Hr). unfold k2.
      by destruct (cell mi r), (cell di r).
Qed.

(** *** Distinct keys *)

Lemma elem_of_unique_from seen l x :
  x ∈ unique_from seen l <-> x ∈ l /\ x ∉ seen.
Proof.
  revert seen. induction l as [|y l IH]; intros seen; cbn.
  - split; [by intros H%elem_of_nil | by intros [H%elem_of_nil _]].
  - case_bool_decide as Hy.
    + rewrite IH, elem_of_cons. split; [intros [? ?]; auto|].
      intros [[->|?] ?]; [done | auto].
    + rewrite !elem_of_cons, IH, not_elem_of_cons.
      split.
      * intros [->|[? [? ?]]]; auto.
      * intros [[->|?] ?]; [by left|].
        destruct (decide (x = y)) as [->|]; [by left | right; auto].
Qed.

Lemma NoDup_unique_from seen l : NoDup (unique_from seen l).
Proof.
  revert seen. induction l as [|y l IH]; intros seen; cbn; [constructor|].
  case_bool_decide; [apply IH|].
  constructor; [|apply IH].
  rewrite elem_of_unique_from, not_elem_of_cons. intros [_ [? _]]. done.
Qed.

Lemma unique_from_ext seen seen' l :
  (forall x, x ∈ seen <-> x ∈ seen') -> unique_from seen l = unique_from seen' l.
Proof.
  revert seen seen'. induction l as [|y l IH]; intros seen seen' H; [reflexivity|].
  cbn. rewrite (bool_decide_ext _ _ (H y)). case_bool_decide.
  - by apply IH.
  - f_equal. apply IH. intros x. rewrite !elem_of_cons. by rewrite H.
Qed.

Lemma unique_from_app seen l1 l2 :
  unique_from seen (l1 ++ l2) = unique_from seen l1 ++ unique_from (l1 ++ seen) l2.
Proof.
  revert seen. induction l1 as [|y l1 IH]; intros seen; [reflexivity|].
  cbn. case_bool_decide as Hy.
  - rewrite IH. f_equal. apply unique_from_ext. intros x.
    rewrite elem_of_cons, !elem_of_app. split; [tauto|].
    intros [->|[?|?]]; auto.
  - cbn. rewrite IH. do 2 f_equal. apply unique_from_ext. intros x.
    rewrite !elem_of_cons, !elem_of_app, !elem_of_cons. tauto.
Qed.

(** *** The join *)

Lemma flat_map_singletons {A B} (g : A -> list B) (f : A -> B) (l : list A) :
  (forall x, x ∈ l -> g x = [f x]) -> flat_map g l = map f l.
Proof.
  induction l as [|x l IH]; intros H; [reflexivity|].
  cbn. rewrite (H x) by left. cbn. f_equal. apply IH. intros y Hy. apply H. by right.
Qed.

Lemma filter_looked_up_none service ul k :
  k ∉ ul ->
  filter (fun r => cell 0 r = k) (map (looked_up service) ul) = [].
Proof.
  induction ul as [|x ul IH]; [reflexivity|].
  rewrite not_elem_of_cons. intros [Hne Hnot]. cbn [map].
  rewrite filter_cons. cbn [cell looked_up nth].
  destruct (decide (x = k)); [congruence | by apply IH].
Qed.

Lemma filter_looked_up service ul k :
  NoDup ul -> k ∈ ul ->
  filter (fun r => cell 0 r = k) (map (looked_up service) ul) = [looked_up service k].
Proof.
  induction 1 as [|x ul Hx Hnd IH]; [by intros H%elem_of_nil|].
  rewrite elem_of_cons. intros Hk. cbn [map].
  rewrite filter_cons. cbn [cell looked_up nth].
  destruct (decide (x = k)) as [->|Hne].
  - by rewrite filter_looked_up_none.
  - destruct Hk as [->|Hk]; [done | by apply IH].
Qed.

(** *** One run of the enricher *)

Lemma location_data_eq service (l : list value) :
  imap (fun i_pos i_coordinate =>
          [ nth i_pos l VNull;
            coordinate latitude i_coordinate;
            coordinate longitude i_coordinate ])
       (map service l)
  = map (looked_up service) l.
Proof.
  apply list_eq. intros i.
  rewrite list_lookup_imap. change (map service l) with (service <$> l).
  change (map (looked_up service) l) with (looked_up service <$> l).
  rewrite !list_lookup_fmap.
  destruct (l !! i) as [k|] eqn:E; cbn; [|reflexivity].
  by rewrite nth_lookup, E.
Qed.

Lemma geocode_run service w d t :
  heap w !! d = Some t ->
  wf t = true ->
  text_keys t = true ->
  geocode_dataframe service (Some d) w
  = match enriched service t with
    | Ok merged =>
        (Ok (length (heap w)),
         mkWorld (<[d := with_keys t]> (heap w) ++ [merged]) (self_dataframe w)
                 (geocode_calls w ++ unique_from [] (row_keys t)) (stdout w))
    | Raise e =>
        (Raise e,
         mkWorld (<[d := with_keys t]> (heap w)) (self_dataframe w)
                 (geocode_calls w ++ unique_from [] (row_keys t)) (stdout w))
    end.
Proof.
  intros Hd Hwf Htk.
  destruct (text_keys_inv t Htk) as (mi & di & Hmi & Hdi & Hdt & Hm & Hdv).
  destruct (key_series t mi di Hmi Hdi Hm Hdv (nth di (header t).*2 DObject))
    as (s1 & s2 & E1 & E2 & E3).
  pose proof (lookup_lt_Some _ _ _ Hd) as Hlt.
  unfold geocode_dataframe.
  rewrite run_ret, (run_load _ _ _ _ Hd), (text_keys_columns t Htk).
  rewrite (run_lift_Ok _ _ _ _ (getitem_column t _ _ Hmi)), Hdt.
  rewrite (run_lift_Ok _ _ _ _ E1).
  rewrite (run_lift_Ok _ _ _ _ (getitem_column t _ _ Hdi)).
  rewrite (run_lift_Ok _ _ _ _ E2), (run_lift_Ok _ _ _ _ E3).
  rewrite run_store. fold (with_keys t).
  rewrite (run_load _ (with_keys t)) by (cbn; by apply list_lookup_insert_eq).
  rewrite (run_lift_Ok _ _ _ _ (getitem_setitem t "geolocalizacion" DObject (row_key t) Hwf)).
  unfold unique. cbn [s_values]. fold (row_keys t).
  unfold bind at 1. rewrite mapM_geocode. cbn [heap self_dataframe geocode_calls stdout].
  rewrite location_data_eq.
  rewrite (run_load _ (with_keys t)) by (cbn; by apply list_lookup_insert_eq).
  fold lookup_labels. fold (enriched service t).
  destruct (enriched service t) as [merged|e] eqn:Hen.
  - rewrite (run_lift_Ok _ merged) by reflexivity.
    rewrite run_alloc. unfold bind, get_self_dataframe, set_self_dataframe, ret.
    cbn. rewrite length_insert.
    case_bool_decide as E; cbn; [rewrite <- E|]; reflexivity.
  - by rewrite (run_lift_Raise _ e).
Qed.

Lemma rows_with_keys t : rows (with_keys t) = map (keyed t) (rows t).
Proof. unfold with_keys, row_keys. by rewrite rows_setitem. Qed.

Lemma geo_index t :
  index_of "geolocalizacion" (columns (with_keys t))
  = Some (default (length (columns t)) (index_of "geolocalizacion" (columns t))).
Proof.
  unfold with_keys.
  destruct (index_of "geolocalizacion" (columns t)) as [i|] eqn:Hi; cbn.
  - rewrite columns_setitem_old; [done|].
    apply list_elem_of_lookup. exists i. by apply index_of_Some.
  - apply index_of_None in Hi.
    rewrite (columns_setitem_new _ _ _ Hi), (index_of_app_r _ _ _ Hi).
    cbn [index_of]. rewrite bool_decide_eq_true_2 by done. cbn.
    f_equal. lia.
Qed.

Lemma keyed_key t r :
  length r = length (columns t) ->
  cell (default (length (columns t)) (index_of "geolocalizacion" (columns t)))
       (keyed t r)
  = row_key t r.
Proof.
  intros Hlen. unfold keyed.
  destruct (index_of "geolocalizacion" (columns t)) as [i|] eqn:Hi; cbn.
  - apply cell_insert_eq. rewrite Hlen.
    eapply lookup_lt_Some. by apply index_of_Some.
  - rewrite <- Hlen, <- (Nat.add_0_r (length r)). by rewrite cell_app_r.
Qed.

Lemma keyed_other t r j c :
  length r = length (columns t) ->
  columns t !! j = Some c -> c <> "geolocalizacion" ->
  keyed t r !! j = r !! j.
Proof.
  intros Hlen Hj Hc. unfold keyed.
  destruct (index_of "geolocalizacion" (columns t)) as [i|] eqn:Hi.
  - apply list_lookup_insert_ne. intros ->.
    apply index_of_Some in Hi. congruence.
  - apply lookup_app_l. rewrite Hlen. by eapply lookup_lt_Some.
Qed.

Lemma length_keyed t r :
  (length r <= length (keyed t r))%nat.
Proof.
  unfold keyed. destruct (index_of _ _).
  - by rewrite length_insert.
  - rewrite length_app. lia.
Qed.

Lemma columns_from_records keys r rs :
  columns (from_records keys (r :: rs)) = keys.
Proof.
  unfold columns, from_records. cbn [header]. apply list_eq. intros i.
  rewrite list_lookup_fmap, list_lookup_imap. by destruct (keys !! i).
Qed.

Lemma items_overlap_lengths l r a b :
  items_overlap_with_suffix l r = Ok (a, b) ->
  length a = length l /\ length b = length r.
Proof.
  unfold items_overlap_with_suffix. destruct (_ || _); [discriminate|].
  intros [= <- <-]. by rewrite !length_map.
Qed.

Lemma unique_nonempty (l : list value) : l <> [] -> unique_from [] l <> [].
Proof.
  destruct l as [|x l]; [done|]. intros _ H.
  assert (x ∈ unique_from [] (x :: l)) as Hx
    by (apply elem_of_unique_from; split; [by left | apply not_elem_of_nil]).
  rewrite H in Hx. by apply elem_of_nil in Hx.
Qed.

(** What the join returns: every row of the input, in order, with its
    key and the three cells looked up for that key. *)
Lemma enriched_Ok service t left right :
  wf t = true ->
  rows t <> [] ->
  items_overlap_with_suffix (columns (with_keys t)) lookup_labels = Ok (left, right) ->
  exists hdr,
    hdr.*1 = left ++ right
    /\ (exists dts, hdr.*2 = (header (with_keys t)).*2 ++ dts)
    /\ enriched service t
       = Ok (mkDF hdr (map (fun r => keyed t r ++ looked_up service (row_key t r))
                           (rows t))).
Proof.
  intros Hwf Hrows Hlab.
  unfold enriched, merge_left. rewrite geo_index.
  pose proof (NoDup_unique_from [] (row_keys t)) as Hnd.
  assert (forall r, r ∈ rows t -> row_key t r ∈ unique_from [] (row_keys t)) as Hin.
  { intros r Hr. apply elem_of_unique_from. split; [|apply not_elem_of_nil].
    unfold row_keys. apply list_elem_of_fmap. by exists r. }
  assert (unique_from [] (row_keys t) <> []) as Hne.
  { apply unique_nonempty. unfold row_keys. by destruct (rows t). }
  destruct (unique_from [] (row_keys t)) as [|k0 ul] eqn:Hul; [done|].
  cbn [map]. rewrite columns_from_records.
  change (index_of "location" lookup_labels) with (Some 0%nat).
  rewrite Hlab. cbn [rbind fst snd].
  destruct (items_overlap_lengths _ _ _ _ Hlab) as [Hl Hr].
  eexists. split; [|split; [|f_equal; f_equal]].
  - apply fst_zip. rewrite !length_app, !length_fmap, Hl, Hr.
    unfold columns. rewrite length_fmap. cbn. lia.
  - eexists. apply snd_zip. rewrite !length_app, !length_fmap, Hl, Hr.
    unfold columns. rewrite length_fmap. cbn. lia.
  - rewrite rows_with_keys. cbn [rows from_records].
    rewrite (flat_map_singletons _
               (fun r => r ++ looked_up service
                  (cell (default (length (columns t))
                           (index_of "geolocalizacion" (columns t))) r))).
    + rewrite map_map. apply map_ext_elem. intros r Hr'.
      by rewrite (keyed_key t r (wf_row t r Hwf Hr')).
    + intros r' Hr'. apply list_elem_of_fmap in Hr' as (r & -> & Hr').
      rewrite (keyed_key t r (wf_row t r Hwf Hr')).
      change (looked_up service k0 :: map (looked_up service) ul)
        with (map (looked_up service) (k0 :: ul)).
      by rewrite (filter_looked_up service (k0 :: ul) _ Hnd (Hin r Hr')).
Qed.

Lemma join_labels_inv t :
  join_labels_ok t = true ->
  exists left right,
    items_overlap_with_suffix (columns (with_keys t)) lookup_labels = Ok (left, right).
Proof.
  unfold join_labels_ok.
  destruct (items_overlap_with_suffix _ _) as [[left right]|]; [|discriminate].
  intros _. by exists left, right.
Qed.

(** The run of the enricher on a table it accepts. *)
Lemma geocode_run_Ok service w d t left right :
  heap w !! d = Some t ->
  wf t = true -> text_keys t = true -> rows t <> [] ->
  items_overlap_with_suffix (columns (with_keys t)) lookup_labels = Ok (left, right) ->
  exists hdr,
    hdr.*1 = left ++ right
    /\ (exists dts, hdr.*2 = (header (with_keys t)).*2 ++ dts)
    /\ geocode_dataframe service (Some d) w
       = (Ok (length (heap w)),
          mkWorld (<[d := with_keys t]> (heap w)
                   ++ [mkDF hdr (map (fun r => keyed t r ++ looked_up service (row_key t r))
                                     (rows t))])
                  (self_dataframe w)
                  (geocode_calls w ++ unique_from [] (row_keys t)) (stdout w)).
Proof.
  intros Hd Hwf Htk Hrows Hlab.
  destruct (enriched_Ok service t left right Hwf Hrows Hlab)
    as (hdr & Hhdr & Hdts & Hen).
  exists hdr. split; [exact Hhdr|]. split; [exact Hdts|].
  by rewrite (geocode_run service w d t Hd Hwf Htk), Hen.
Qed.

Lemma lookup_fresh {A} (l : list A) (x : A) : (l ++ [x]) !! length l = Some x.
Proof. by rewrite lookup_app_r, Nat.sub_diag. Qed.




(** C2 (amended).  For every table with distinct column labels whose
    [municipio] and [departamento] columns hold text or missing values, the
    enricher writes into
    [geolocalizacion], for each row, the key built from the two cells of
    that row (their texts joined as in [location_key], a missing value when
    either is missing), and calls the lookup once per distinct key, the
    distinct keys being taken in order of first appearance. *)
Theorem geocode_one_lookup_per_key service w d t :
  heap w !! d = Some t ->
  wf t = true ->
  NoDup (columns t) ->
  text_keys t = true ->
  exists mi di calls,
    index_of "municipio" (columns t) = Some mi
    /\ index_of "departamento" (columns t) = Some di
    /\ heap (geocode_dataframe service (Some d) w).2 !! d = Some (with_keys t)
    /\ getitem (with_keys t) "geolocalizacion"
       = Ok (mkSeries DObject
               (map (fun r => location_key (cell mi r) (cell di r)) (rows t)))
    /\ geocode_calls (geocode_dataframe service (Some d) w).2
       = geocode_calls w ++ calls
    /\ NoDup calls
    /\ (forall k, k ∈ calls <-> k ∈ row_keys t)
    /\ length calls = length (remove_dups (row_keys t))
    /\ (forall n, unique_from [] (take n (row_keys t)) `prefix_of` calls).
Proof.
  intros Hd Hwf _ Htk.
  destruct (text_keys_inv t Htk) as (mi & di & Hmi & Hdi & _).
  exists mi, di, (unique_from [] (row_keys t)).
  pose proof (NoDup_unique_from [] (row_keys t)) as Hnd.
  assert (forall k, k ∈ unique_from [] (row_keys t) <-> k ∈ row_keys t) as Hel.
  { intros k. rewrite elem_of_unique_from. split; [tauto|].
    intros H. split; [done | apply not_elem_of_nil]. }
  pose proof (lookup_lt_Some _ _ _ Hd) as Hlt.
  split; [exact Hmi|]. split; [exact Hdi|].
  split; [|split; [|split; [|split; [|split; [|split]]]]]; try done.
  - rewrite (geocode_run service w d t Hd Hwf Htk).
    destruct (enriched service t); cbn [snd heap].
    + rewrite lookup_app_l by (by rewrite length_insert).
      by apply list_lookup_insert_eq.
    + by apply list_lookup_insert_eq.
  - unfold with_keys, row_keys. rewrite (getitem_setitem _ _ _ _ Hwf).
    do 2 f_equal. apply map_ext. intros r. unfold row_key. by rewrite Hmi, Hdi.
  - rewrite (geocode_run service w d t Hd Hwf Htk).
    by destruct (enriched service t).
  - apply Permutation_length, NoDup_Permutation; [done | apply NoDup_remove_dups|].
    intros k. by rewrite Hel, elem_of_remove_dups.
  - intros n. rewrite <- (take_drop n (row_keys t)) at 2.
    rewrite unique_from_app. by eexists.
Qed.

Lemma geocode_one_lookup_per_key_witness :
  exists mi di calls,
    index_of "municipio" (columns three_towns) = Some mi
    /\ index_of "departamento" (columns three_towns) = Some di
    /\ heap (geocode_dataframe bogota_service (Some 0%nat)
               (mkWorld [three_towns] None [] [])).2 !! 0%nat
       = Some (with_keys three_towns)
    /\ getitem (with_keys three_towns) "geolocalizacion"
       = Ok (mkSeries DObject
               (map (fun r => location_key (cell mi r) (cell di r))
                    (rows three_towns)))
    /\ geocode_calls (geocode_dataframe bogota_service (Some 0%nat)
                        (mkWorld [three_towns] None [] [])).2
       = geocode_calls (mkWorld [three_towns] None [] []) ++ calls
    /\ NoDup calls
    /\ (forall k, k ∈ calls <-> k ∈ row_keys three_towns)
    /\ length calls = length (remove_dups (row_keys three_towns))
    /\ (forall n, unique_from [] (take n (row_keys three_towns))
                  `prefix_of` calls).
Proof.
  apply (geocode_one_lookup_per_key bogota_service
           (mkWorld [three_towns] None [] []) 0%nat three_towns);
    [reflexivity | reflexivity | apply (bool_decide_unpack _); reflexivity
    | reflexivity].
Defined.

(** C2 as stated fails on tables that have both columns: where the
    municipality is missing the key is a missing value, not a text ending
    in ", Colombia", and it is looked up all the same; and on a numeric
    [municipio] column no key is built and no lookup made. *)
Lemma geocode_key_not_always_text :
  (let out := geocode_dataframe bogota_service (Some 0%nat)
                (mkWorld [missing_municipio] None [] []) in
   heap out.2 !! 0%nat
   = Some (mkDF [("municipio", DObject); ("departamento", DObject);
                 ("geolocalizacion", DObject)]
                [[VNull; VStr "Valle"; VNull];
                 [VStr "Cali"; VStr "Valle"; VStr "Cali, Valle, Colombia"]])
   /\ geocode_calls out.2 = [VNull; VStr "Cali, Valle, Colombia"])
  /\ (let out := geocode_dataframe bogota_service (Some 0%nat)
                   (mkWorld [numeric_municipio] None [] []) in
      out.1 = Raise TypeError /\ geocode_calls out.2 = []
      /\ heap out.2 = [numeric_municipio]).
Proof. repeat split. Qed.

(** *** Labels of the join *)

Lemma filter_none {A} (P : A -> Prop) `{forall x, Decision (P x)} (l : list A) :
  (forall x, x ∈ l -> ~ P x) -> filter P l = [].
Proof.
  induction l as [|x l IH]; intros Hl; [reflexivity|].
  rewrite filter_cons. destruct (decide (P x)) as [HP|_].
  - exfalso. by apply (Hl x); [left|].
  - apply IH. intros y Hy. apply Hl. by right.
Qed.

Lemma duplicated_from_fresh seen l :
  NoDup l -> (forall x, x ∈ l -> x ∉ seen) ->
  duplicated_from seen l = replicate (length l) false.
Proof.
  intros Hnd. revert seen. induction Hnd as [|x l Hx Hnd IH]; intros seen Hs;
    [reflexivity|].
  cbn. rewrite bool_decide_eq_false_2 by (apply Hs; by left).
  f_equal. apply IH. intros y Hy. rewrite not_elem_of_cons. split.
  - intros ->. done.
  - apply Hs. by right.
Qed.

Lemma no_dups_from_fresh (ds : list bool) n :
  existsb id (zip_with (fun d o => d && negb o) (replicate n false) ds) = false.
Proof.
  revert ds. induction n as [|n IH]; intros [|d ds]; cbn; auto.
Qed.

(** Renaming a suffix of the labels into fresh, distinct labels causes no
    duplicate. *)
Lemma caused_dups_fresh_tail cols a b s1 s2 :
  (forall x, x ∈ s1 <-> x ∈ s2) ->
  NoDup b ->
  (forall x, x ∈ b -> (x ∉ cols) /\ (x ∉ s1)) ->
  existsb id (zip_with (fun d o => d && negb o)
                (duplicated_from s1 (cols ++ b)) (duplicated_from s2 (cols ++ a)))
  = false.
Proof.
  intros Hs Hnd. revert s1 s2 Hs. induction cols as [|c cols IH]; intros s1 s2 Hs Hb.
  - cbn [app]. rewrite (duplicated_from_fresh s1 b Hnd).
    + apply no_dups_from_fresh.
    + intros x Hx. by apply Hb.
  - cbn. rewrite (bool_decide_ext _ _ (Hs c)).
    destruct (bool_decide (c ∈ s2)); cbn.
    + apply IH.
      * intros x. rewrite !elem_of_cons. by rewrite Hs.
      * intros x Hx. destruct (Hb x Hx) as [H1 H2].
        rewrite not_elem_of_cons in H1. rewrite not_elem_of_cons. tauto.
    + apply IH.
      * intros x. rewrite !elem_of_cons. by rewrite Hs.
      * intros x Hx. destruct (Hb x Hx) as [H1 H2].
        rewrite not_elem_of_cons in H1. rewrite not_elem_of_cons. tauto.
Qed.

Lemma lacks_inv t labels c :
  lacks t labels = true -> c ∈ labels -> c ∉ columns t.
Proof.
  unfold lacks. rewrite forallb_forall. intros H Hc.
  apply list_elem_of_In, H in Hc. apply negb_true_iff in Hc.
  by apply bool_decide_eq_false in Hc.
Qed.

(** The labels of the first join, on a table that has none of the four
    labels the enricher writes. *)
Lemma first_join_labels cols :
  (forall c, c ∈ enricher_labels -> c ∉ cols) ->
  items_overlap_with_suffix (cols ++ ["geolocalizacion"]) lookup_labels
  = Ok (cols ++ ["geolocalizacion"], lookup_labels).
Proof.
  intros Hfresh. unfold items_overlap_with_suffix.
  assert (filter (fun x => x ∈ lookup_labels) (cols ++ ["geolocalizacion"]) = []) as ->.
  { rewrite filter_app, (filter_none _ cols); [reflexivity|].
    intros x Hx Hin. apply (Hfresh x); [|done].
    unfold enricher_labels. by right. }
  assert (forall l, map (suffixed [] "_x") l = l) as Hid
    by (intros l; rewrite <- (map_id l) at 2; by apply map_ext).
  assert (forall l, map (suffixed [] "_y") l = l) as Hid'
    by (intros l; rewrite <- (map_id l) at 2; by apply map_ext).
  rewrite Hid, Hid'.
  assert (caused_dups (cols ++ ["geolocalizacion"]) (cols ++ ["geolocalizacion"]) = false) as ->.
  { unfold caused_dups, duplicated. apply caused_dups_fresh_tail; [done| |].
    - apply NoDup_singleton.
    - intros x Hx. apply list_elem_of_singleton in Hx. subst x.
      split; [|apply not_elem_of_nil]. apply Hfresh. by left. }
  reflexivity.
Qed.

(** C10 (amended).  For every table with distinct column labels, at
    least one row and text key columns that has no column labelled
    [geolocalizacion], [location],
    [latitude] or [longitude], the table [geocode_dataframe] returns has the
    columns of the input followed by exactly those four, and its [location]
    column repeats its [geolocalizacion] column cell for cell. *)
Theorem geocode_adds_four_columns service w d t :
  heap w !! d = Some t ->
  wf t = true ->
  NoDup (columns t) ->
  text_keys t = true ->
  rows t <> [] ->
  lacks t enricher_labels = true ->
  exists d' t',
    (geocode_dataframe service (Some d) w).1 = Ok d'
    /\ heap (geocode_dataframe service (Some d) w).2 !! d' = Some t'
    /\ columns t'
       = columns t ++ ["geolocalizacion"; "location"; "latitude"; "longitude"]
    /\ exists g l,
         getitem t' "geolocalizacion" = Ok g
         /\ getitem t' "location" = Ok l
         /\ s_values l = s_values g.
Proof.
  intros Hd Hwf _ Htk Hrows Hlacks.
  assert (forall c, c ∈ enricher_labels -> c ∉ columns t) as Hfresh
    by (intros c; by apply lacks_inv).
  assert ("geolocalizacion" ∉ columns t) as Hgeo by (apply Hfresh; by left).
  assert (columns (with_keys t) = columns t ++ ["geolocalizacion"]) as Hcols
    by (by apply columns_setitem_new).
  pose proof (first_join_labels (columns t) Hfresh) as Hlab.
  rewrite <- Hcols in Hlab at 1.
  destruct (geocode_run_Ok service w d t _ _ Hd Hwf Htk Hrows Hlab)
    as (hdr & Hhdr & _ & ->).
  eexists _, _. split; [reflexivity|]. cbn [fst snd heap].
  split; [rewrite <- (length_insert (heap w) d (with_keys t)); apply lookup_fresh|].
  assert (columns (mkDF hdr (map (fun r => keyed t r ++ looked_up service (row_key t r))
                                 (rows t)))
          = columns t ++ ["geolocalizacion"; "location"; "latitude"; "longitude"])
    as Hout by (unfold columns at 1; cbn [header]; by rewrite Hhdr, <- app_assoc).
  split; [exact Hout|].
  unfold getitem. rewrite Hout.
  rewrite (index_of_app_r _ _ _ Hgeo).
  assert ("location" ∉ columns t) as Hloc by (apply Hfresh; right; by left).
  rewrite (index_of_app_r _ _ _ Hloc).
  change (index_of "geolocalizacion" _) with (Some 0%nat).
  change (index_of "location" _) with (Some 1%nat).
  cbn [fmap option_fmap option_map]. eexists _, _.
  split; [reflexivity|]. split; [reflexivity|]. cbn [s_values rows].
  rewrite !map_map. apply map_ext_elem. intros r Hr.
  pose proof (wf_row t r Hwf Hr) as Hlen.
  apply index_of_None in Hgeo. unfold keyed. rewrite Hgeo.
  rewrite <- Hlen, <- app_assoc. by rewrite !cell_app_r.
Qed.

Lemma geocode_adds_four_columns_witness :
  exists d' t',
    (geocode_dataframe bogota_service (Some 0%nat)
       (mkWorld [three_towns] None [] [])).1 = Ok d'
    /\ heap (geocode_dataframe bogota_service (Some 0%nat)
               (mkWorld [three_towns] None [] [])).2 !! d' = Some t'
    /\ columns t'
       = columns three_towns
         ++ ["geolocalizacion"; "location"; "latitude"; "longitude"]
    /\ exists g l,
         getitem t' "geolocalizacion" = Ok g
         /\ getitem t' "location" = Ok l
         /\ s_values l = s_values g.
Proof.
  apply (geocode_adds_four_columns bogota_service
           (mkWorld [three_towns] None [] []) 0%nat three_towns);
    [reflexivity | reflexivity | apply (bool_decide_unpack _); reflexivity
    | reflexivity | discriminate | reflexivity].
Defined.

(** C10 as stated fails on a table that already has one of the labels: a
    [latitude] column of the input comes out as [latitude_x], the looked-up
    one as [latitude_y], and the output has no [latitude] column. *)
Lemma geocode_renames_existing_latitude :
  let out := geocode_dataframe bogota_service (Some 0%nat)
               (mkWorld [with_latitude] None [] []) in
  out.1 = Ok 1%nat
  /\ columns <$> heap out.2 !! 1%nat
     = Some ["municipio"; "departamento"; "latitude_x"; "geolocalizacion";
             "location"; "latitude_y"; "longitude"].
Proof. split; reflexivity. Qed.

(** *** Running the enricher on its own output *)

Lemma text_keys_intro t mi di :
  index_of "municipio" (columns t) = Some mi ->
  index_of "departamento" (columns t) = Some di ->
  nth mi (header t).*2 DObject = DObject ->
  (forall r, r ∈ rows t -> is_str_or_null (cell mi r) = true) ->
  (forall r, r ∈ rows t -> is_str_or_null (cell di r) = true) ->
  text_keys t = true.
Proof.
  intros Hmi Hdi Hdt Hm Hd. unfold text_keys, getitem. rewrite Hmi, Hdi.
  cbn [s_dtype s_values]. rewrite Hdt, bool_decide_eq_true_2 by done.
  rewrite !andb_true_iff, !forallb_forall. split; [split; [done|]|].
  - intros v Hv. apply in_map_iff in Hv as (r & <- & Hr).
    apply Hm. by apply list_elem_of_In.
  - intros v Hv. apply in_map_iff in Hv as (r & <- & Hr).
    apply Hd. by apply list_elem_of_In.
Qed.

(** The labels of the second join: the three lookup columns of the first
    output get [_x], the new ones [_y]. *)
Lemma second_join_labels cols :
  (forall c, c ∈ enricher_labels ++ suffixed_labels -> c ∉ cols) ->
  items_overlap_with_suffix (cols ++ enricher_labels) lookup_labels
  = Ok (cols ++ "geolocalizacion" :: suffixed_labels,
        ["location_y"; "latitude_y"; "longitude_y"]).
Proof.
  intros Hfresh. unfold items_overlap_with_suffix.
  assert (filter (fun x => x ∈ lookup_labels) (cols ++ enricher_labels)
          = lookup_labels) as ->.
  { rewrite filter_app, (filter_none _ cols); [reflexivity|].
    intros x Hx Hin. apply (Hfresh x); [|done].
    apply elem_of_app. left. unfold enricher_labels. by right. }
  rewrite map_app.
  assert (map (suffixed lookup_labels "_x") cols = cols) as ->.
  { rewrite <- (map_id cols) at 2. apply map_ext_elem. intros c Hc.
    unfold suffixed. rewrite bool_decide_eq_false_2; [done|].
    intros Hin. apply (Hfresh c); [|done].
    apply elem_of_app. left. unfold enricher_labels. by right. }
  change (map (suffixed lookup_labels "_x") enricher_labels)
    with ("geolocalizacion" :: suffixed_labels).
  change (map (suffixed lookup_labels "_y") lookup_labels)
    with ["location_y"; "latitude_y"; "longitude_y"].
  assert (caused_dups (cols ++ enricher_labels)
            (cols ++ "geolocalizacion" :: suffixed_labels) = false) as ->.
  { unfold caused_dups, duplicated. apply caused_dups_fresh_tail; [done| |].
    - apply (bool_decide_unpack _). reflexivity.
    - intros x Hx. split; [|apply not_elem_of_nil]. apply Hfresh.
      unfold suffixed_labels in Hx. unfold enricher_labels, suffixed_labels.
      rewrite elem_of_cons in Hx. rewrite elem_of_app, elem_of_cons.
      tauto. }
  reflexivity.
Qed.

Section Twice.
Variable service : value -> option Location.
Variable t : DataFrame.
Hypothesis Hwf : wf t = true.
Hypothesis Htk : text_keys t = true.
Hypothesis Hfresh :
  forall c, c ∈ enricher_labels ++ suffixed_labels -> c ∉ columns t.

(** Any frame with the rows and labels of the first output. *)
Variable t1 : DataFrame.
Hypothesis Hcols1 : columns t1 = columns t ++ enricher_labels.
Hypothesis Hdts1 : exists dts, (header t1).*2 = (header (with_keys t)).*2 ++ dts.
Hypothesis Hrows1 : rows t1 = map (joined_row service t) (rows t).

Lemma geo_fresh : index_of "geolocalizacion" (columns t) = None.
Proof.
  apply index_of_None, Hfresh, elem_of_app. left. by left.
Qed.

Lemma joined_row_shape r :
  r ∈ rows t ->
  joined_row service t r = (r ++ [row_key t r]) ++ looked_up service (row_key t r)
  /\ length r = length (columns t).
Proof.
  intros Hr. split; [|by apply wf_row].
  unfold joined_row, keyed. by rewrite geo_fresh.
Qed.

Lemma cell_joined_row i r :
  r ∈ rows t -> (i < length (columns t))%nat ->
  cell i (joined_row service t r) = cell i r.
Proof.
  intros Hr Hi. destruct (joined_row_shape r Hr) as [-> Hlen].
  rewrite <- app_assoc. apply cell_app_l. lia.
Qed.

Lemma row_key_first_output r :
  r ∈ rows t -> row_key t1 (joined_row service t r) = row_key t r.
Proof.
  intros Hr. destruct (text_keys_inv t Htk) as (mi & di & Hmi & Hdi & _).
  unfold row_key. rewrite Hcols1.
  rewrite (index_of_app_l _ _ _ _ Hmi), (index_of_app_l _ _ _ _ Hdi), Hmi, Hdi.
  rewrite !cell_joined_row; try done.
  - eapply lookup_lt_Some. by apply index_of_Some.
  - eapply lookup_lt_Some. by apply index_of_Some.
Qed.

Lemma row_keys_first_output : row_keys t1 = row_keys t.
Proof.
  unfold row_keys. rewrite Hrows1, map_map. apply map_ext_elem.
  apply row_key_first_output.
Qed.

Lemma wf_first_output : wf t1 = true.
Proof.
  unfold wf. apply forallb_forall. intros r1 Hr1. apply bool_decide_eq_true.
  rewrite Hrows1 in Hr1. apply in_map_iff in Hr1 as (r & <- & Hr).
  apply list_elem_of_In in Hr. destruct (joined_row_shape r Hr) as [-> Hlen].
  rewrite <- (length_fmap fst (header t1)). fold (columns t1). rewrite Hcols1.
  rewrite !length_app, Hlen. cbn. lia.
Qed.

Lemma text_keys_first_output : text_keys t1 = true.
Proof.
  destruct (text_keys_inv t Htk) as (mi & di & Hmi & Hdi & Hdt & Hm & Hd).
  pose proof (lookup_lt_Some _ _ _ (index_of_Some _ _ _ Hmi)) as Hmlt.
  pose proof (lookup_lt_Some _ _ _ (index_of_Some _ _ _ Hdi)) as Hdlt.
  apply (text_keys_intro t1 mi di).
  - rewrite Hcols1. by apply index_of_app_l.
  - rewrite Hcols1. by apply index_of_app_l.
  - destruct Hdts1 as [dts ->].
    unfold with_keys, setitem. rewrite geo_fresh. cbn [header].
    rewrite fmap_app, <- app_assoc.
    rewrite app_nth1; [done|]. unfold columns in Hmlt.
    rewrite length_fmap in Hmlt. rewrite length_fmap. exact Hmlt.
  - intros r1 Hr1. rewrite Hrows1 in Hr1.
    apply list_elem_of_fmap in Hr1 as (r & -> & Hr).
    rewrite cell_joined_row by done. by apply Hm.
  - intros r1 Hr1. rewrite Hrows1 in Hr1.
    apply list_elem_of_fmap in Hr1 as (r & -> & Hr).
    rewrite cell_joined_row by done. by apply Hd.
Qed.

Lemma second_labels :
  items_overlap_with_suffix (columns (with_keys t1)) lookup_labels
  = Ok (columns t ++ "geolocalizacion" :: suffixed_labels,
        ["location_y"; "latitude_y"; "longitude_y"]).
Proof.
  unfold with_keys. rewrite columns_setitem_old.
  - rewrite Hcols1. by apply second_join_labels.
  - rewrite Hcols1. apply elem_of_app. right. by left.
Qed.

(** A row of the second output: the row of the first, then its own three
    lookup cells again. *)
Lemma joined_row_second r :
  r ∈ rows t ->
  joined_row service t1 (joined_row service t r)
  = joined_row service t r
    ++ drop (S (length (columns t))) (joined_row service t r).
Proof.
  intros Hr. unfold joined_row at 1.
  rewrite (row_key_first_output r Hr).
  destruct (joined_row_shape r Hr) as [Hshape Hlen].
  assert (index_of "geolocalizacion" (columns t1) = Some (length (columns t))) as Hgi.
  { rewrite Hcols1, index_of_app_r by (by apply index_of_None, geo_fresh).
    change (index_of "geolocalizacion" enricher_labels) with (Some 0%nat).
    cbn. f_equal. lia. }
  unfold keyed. rewrite Hgi, (row_key_first_output r Hr). f_equal.
  - apply list_insert_id. rewrite Hshape, <- app_assoc.
    rewrite lookup_app_r by lia. by rewrite Hlen, Nat.sub_diag.
  - rewrite Hshape. rewrite drop_app_length'; [done|].
    rewrite length_app. cbn. lia.
Qed.

End Twice.




(** *** The managed table is never rebound *)

Lemma keeps_managed_bind {A B} (m : M A) (k : A -> M B) :
  keeps_managed m -> (forall a, keeps_managed (k a)) -> keeps_managed (bind m k).
Proof.
  intros Hm Hk w. unfold bind. specialize (Hm w).
  destruct (m w) as [[a|e] w']; cbn in *; [|done].
  by rewrite Hk.
Qed.

Lemma keeps_managed_mapM {A B} (f : A -> M B) (l : list A) :
  (forall a, keeps_managed (f a)) -> keeps_managed (mapM f l).
Proof.
  intros Hf. induction l as [|x l IH]; [done|].
  cbn [mapM]. apply keeps_managed_bind; [apply Hf|]. intros y.
  apply keeps_managed_bind; [apply IH | done].
Qed.

(** Lines 162-163: when the test holds, the assignment writes back the
    name that is already there. *)
Lemma keeps_managed_update {B} (dataframe : nat) (k : unit -> M B) :
  (forall u, keeps_managed (k u)) ->
  keeps_managed
    (let* managed := get_self_dataframe in
     let* u := if bool_decide (Some dataframe = managed)
               then set_self_dataframe (Some dataframe) else ret tt in
     k u).
Proof.
  intros Hk w. unfold bind at 1, get_self_dataframe.
  case_bool_decide as E; unfold bind, set_self_dataframe, ret.
  - specialize (Hk tt (mkWorld (heap w) (Some dataframe) (geocode_calls w) (stdout w))).
    destruct (k tt _) as [r w']. cbn in *. congruence.
  - specialize (Hk tt w). by destruct (k tt w).
Qed.

Lemma geocode_never_rebinds service dataframe w :
  self_dataframe (geocode_dataframe service dataframe w).2 = self_dataframe w.
Proof.
  revert w. change (keeps_managed (geocode_dataframe service dataframe)).
  unfold geocode_dataframe.
  apply keeps_managed_bind; [by destruct dataframe|].
  intros [d|]; [|done].
  apply keeps_managed_bind; [done|]. intros df.
  destruct (_ && _).
  - repeat (apply keeps_managed_bind; [done|]; intros ?).
    apply keeps_managed_bind; [by apply keeps_managed_mapM|]. intros ?.
    do 3 (apply keeps_managed_bind; [done|]; intros ?).
    by apply keeps_managed_update.
  - by apply keeps_managed_bind.
Qed.

(** *** The loop of the normalizer *)

Lemma index_of_NoDup cs k c :
  NoDup cs -> cs !! k = Some c -> index_of c cs = Some k.
Proof.
  intros Hnd. revert k. induction Hnd as [|c' cs Hc' Hnd IH]; intros k; [done|].
  destruct k as [|k]; cbn.
  - intros [= ->]. by rewrite bool_decide_eq_true_2.
  - intros Hk. rewrite bool_decide_eq_false_2.
    + by rewrite (IH k Hk).
    + intros ->. apply Hc'. by eapply list_elem_of_lookup_2.
Qed.

Lemma header_lookup t k c :
  columns t !! k = Some c -> header t !! k = Some (c, dtype_at t k).
Proof.
  unfold columns, dtype_at. rewrite list_lookup_fmap.
  destruct (header t !! k) as [[c' dt]|] eqn:E; [|discriminate].
  cbn. intros [= ->]. f_equal. f_equal. symmetry.
  apply nth_lookup_Some. by rewrite list_lookup_fmap, E.
Qed.

Lemma setitem_update t c k dt f :
  index_of c (columns t) = Some k ->
  setitem t c (mkSeries dt (map f (map (cell k) (rows t))))
  = update_column k c dt f t.
Proof.
  intros Hk. unfold setitem, update_column. rewrite Hk. cbn [s_dtype s_values].
  f_equal. rewrite map_map.
  apply (zip_with_map_same (fun r v => <[k := v]> r) (fun r => f (cell k r))).
Qed.

Lemma columns_update t k c dt f :
  columns t !! k = Some c -> columns (update_column k c dt f t) = columns t.
Proof.
  intros Hk. unfold columns, update_column. cbn [header].
  rewrite list_fmap_insert. by apply list_insert_id.
Qed.

Lemma wf_update t k c dt f :
  wf t = true -> wf (update_column k c dt f t) = true.
Proof.
  unfold wf, update_column. cbn [header rows]. rewrite !forallb_forall.
  intros H r' Hr'. apply in_map_iff in Hr' as (r & <- & Hr).
  apply H in Hr. apply bool_decide_eq_true in Hr. apply bool_decide_eq_true.
  by rewrite !length_insert.
Qed.

Lemma dtype_at_update t k c dt f :
  (k < length (header t))%nat -> dtype_at (update_column k c dt f t) k = dt.
Proof.
  intros Hk. unfold dtype_at, update_column. cbn [header].
  rewrite list_fmap_insert. apply nth_lookup_Some.
  rewrite list_lookup_insert_eq; [done|]. by rewrite length_fmap.
Qed.

Lemma update_column_ext t k c dt f g :
  (forall v, f v = g v) -> update_column k c dt f t = update_column k c dt g t.
Proof.
  intros H. unfold update_column. f_equal. apply map_ext. intros r. by rewrite H.
Qed.

Lemma update_update t k c dt dt' f f' :
  wf t = true -> (k < length (header t))%nat ->
  update_column k c dt' f' (update_column k c dt f t)
  = update_column k c dt' (fun v => f' (f v)) t.
Proof.
  intros Hwf Hk. unfold update_column. cbn [header rows]. f_equal.
  - apply list_insert_insert_eq.
  - rewrite map_map. apply map_ext_elem. intros r Hr.
    rewrite list_insert_insert_eq. f_equal. f_equal.
    apply cell_insert_eq. rewrite (wf_row t r Hwf Hr).
    unfold columns. by rewrite length_fmap.
Qed.

Lemma update_same t k c :
  wf t = true -> columns t !! k = Some c ->
  update_column k c (dtype_at t k) (fun v => v) t = t.
Proof.
  intros Hwf Hk. unfold update_column. destruct t as [hdr rws]. f_equal.
  - apply list_insert_id. by apply (header_lookup (mkDF hdr rws)).
  - cbn [rows]. rewrite <- (map_id rws) at 2. apply map_ext_elem. intros r Hr.
    apply list_insert_id. rewrite cell_lookup.
    pose proof (wf_row _ r Hwf Hr) as Hlen. apply lookup_lt_Some in Hk.
    destruct (lookup_lt_is_Some_2 r k) as [v Hv]; [lia|]. by rewrite Hv.
Qed.

Lemma str_method_Ok f s s' :
  str_method f s = Ok s' ->
  s_dtype s = DObject /\ s' = mkSeries DObject (map (str_cell f) (s_values s)).
Proof.
  unfold str_method. case_bool_decide as Hdt; [|discriminate].
  destruct (_ || _); [|discriminate]. cbn. by intros [= <-].
Qed.

Lemma fixed_cell_object unidecode v :
  str_cell capitalize (str_cell lower (remove_accents unidecode v))
  = fixed_cell unidecode DObject v.
Proof.
  by destruct v.
Qed.

(** One turn of the loop, when it completes: the column is rewritten cell
    by cell, and nothing else changes. *)
Lemma fix_column_Ok unidecode w d T k c w' :
  heap w !! d = Some T ->
  wf T = true ->
  columns T !! k = Some c ->
  index_of c (columns T) = Some k ->
  fix_column unidecode d c w = (Ok tt, w') ->
  w' = mkWorld
         (<[d := update_column k c (dtype_at T k)
                   (fixed_cell unidecode (dtype_at T k)) T]> (heap w))
         (self_dataframe w) (geocode_calls w) (stdout w).
Proof.
  intros Hd Hwf Hc Hk.
  pose proof (lookup_lt_Some _ _ _ Hd) as Hlt.
  assert (k < length (header T))%nat as Hklt.
  { apply lookup_lt_Some in Hc. unfold columns in Hc. by rewrite length_fmap in Hc. }
  unfold fix_column.
  rewrite (run_load _ _ _ _ Hd), (run_lift_Ok _ _ _ _ (getitem_column T c k Hk)).
  cbn [s_dtype]. fold (dtype_at T k).
  destruct (dtype_at T k) eqn:Hdt.
  2:{ rewrite bool_decide_eq_false_2 by done. intros [= <-].
      rewrite (update_column_ext _ _ _ _ _ (fun v => v)) by done.
      rewrite <- Hdt, update_same by done.
      rewrite list_insert_id by done. by destruct w. }
  rewrite bool_decide_eq_true_2 by done.
  rewrite (run_load _ _ _ _ Hd), (run_lift_Ok _ _ _ _ (getitem_column T c k Hk)).
  unfold apply. cbn [s_values]. rewrite setitem_update by done. rewrite run_store.
  set (T1 := update_column k c _ (remove_accents unidecode) T).
  assert (wf T1 = true) as Hwf1 by (by apply wf_update).
  assert (columns T1 = columns T) as Hcols1 by (by apply columns_update).
  rewrite (run_load _ T1) by (cbn; by apply list_lookup_insert_eq).
  rewrite (run_lift_Ok _ _ _ _ (getitem_column T1 c k ltac:(by rewrite Hcols1))).
  destruct (str_method lower _) as [s2|e] eqn:E2;
    [|rewrite (run_lift_Raise _ e) by done; discriminate].
  rewrite (run_lift_Ok _ s2) by done.
  apply str_method_Ok in E2 as [_ ->]. cbn [s_values].
  rewrite setitem_update by (by rewrite Hcols1). rewrite run_store.
  set (T2 := update_column k c DObject (str_cell lower) T1).
  assert (wf T2 = true) as Hwf2 by (by apply wf_update).
  assert (columns T2 = columns T) as Hcols2
    by (unfold T2; rewrite columns_update; by rewrite Hcols1).
  rewrite (run_load _ T2)
    by (cbn; apply list_lookup_insert_eq; by rewrite length_insert).
  rewrite (run_lift_Ok _ _ _ _ (getitem_column T2 c k ltac:(by rewrite Hcols2))).
  destruct (str_method capitalize _) as [s3|e] eqn:E3;
    [|rewrite (run_lift_Raise _ e) by done; discriminate].
  rewrite (run_lift_Ok _ s3) by done.
  apply str_method_Ok in E3 as [_ ->]. cbn [s_values].
  rewrite setitem_update by (by rewrite Hcols2).
  unfold store. cbn. intros [= <-]. f_equal.
  rewrite !list_insert_insert_eq. f_equal.
  unfold T2. rewrite update_update; [|done|].
  - unfold T1. rewrite update_update by done.
    apply update_column_ext. intros v. apply fixed_cell_object.
  - unfold T1, update_column. cbn [header]. by rewrite length_insert.
Qed.

Lemma fixed_row_0 unidecode t r : fixed_row unidecode t 0 r = r.
Proof.
  unfold fixed_row. apply list_eq. intros j. rewrite list_lookup_imap.
  by destruct (r !! j).
Qed.

Lemma fixed_upto_0 unidecode t : fixed_upto unidecode 0 t = t.
Proof.
  unfold fixed_upto. destruct t as [hdr rws]. f_equal. cbn [rows].
  transitivity (map (fun r : list value => r) rws); [|apply map_id].
  apply map_ext. intros r. apply fixed_row_0.
Qed.

Lemma fixed_upto_all unidecode t :
  wf t = true -> fixed_upto unidecode (length (columns t)) t = fixed unidecode t.
Proof.
  intros Hwf. unfold fixed_upto, fixed. f_equal. apply map_ext_elem. intros r Hr.
  unfold fixed_row. apply imap_ext. intros j v Hj. cbv beta.
  apply lookup_lt_Some in Hj. rewrite (wf_row t r Hwf Hr) in Hj.
  by rewrite (proj2 (Nat.ltb_lt _ _) Hj).
Qed.

Lemma fixed_upto_S unidecode t k c :
  wf t = true ->
  columns t !! k = Some c ->
  update_column k c (dtype_at t k) (fixed_cell unidecode (dtype_at t k))
    (fixed_upto unidecode k t)
  = fixed_upto unidecode (S k) t.
Proof.
  intros Hwf Hc. unfold update_column, fixed_upto. cbn [header rows]. f_equal.
  - apply list_insert_id. by apply header_lookup.
  - rewrite map_map. apply map_ext_elem. intros r Hr.
    assert (k < length r)%nat as Hk
      by (rewrite (wf_row t r Hwf Hr); by eapply lookup_lt_Some).
    destruct (lookup_lt_is_Some_2 r k Hk) as [v Hv].
    apply list_eq. intros j. unfold fixed_row.
    destruct (decide (j = k)) as [->|Hne].
    + rewrite list_lookup_insert_eq by (by rewrite length_imap).
      rewrite cell_lookup, !list_lookup_imap, Hv.
      cbn [fmap option_fmap option_map default].
      rewrite Nat.ltb_irrefl, (proj2 (Nat.ltb_lt k (S k))) by lia. done.
    + rewrite list_lookup_insert_ne by done. rewrite !list_lookup_imap.
      destruct (r !! j) as [u|]; [|done].
      cbn [fmap option_fmap option_map].
      destruct (j <? k)%nat eqn:E1, (j <? S k)%nat eqn:E2; try done.
      * apply Nat.ltb_lt in E1. apply Nat.ltb_ge in E2. lia.
      * apply Nat.ltb_ge in E1. apply Nat.ltb_lt in E2. lia.
Qed.

(** The whole loop, by induction on the columns still to handle. *)
Lemma fix_loop unidecode d t :
  wf t = true ->
  NoDup (columns t) ->
  forall rest k w w',
    drop k (columns t) = rest ->
    heap w !! d = Some (fixed_upto unidecode k t) ->
    forM_ rest (fix_column unidecode d) w = (Ok tt, w') ->
    w' = mkWorld (<[d := fixed_upto unidecode (k + length rest) t]> (heap w))
                 (self_dataframe w) (geocode_calls w) (stdout w).
Proof.
  intros Hwf Hnd rest. induction rest as [|c rest IH]; intros k w w' Hrest Hd.
  - cbn. intros [= <-]. rewrite Nat.add_0_r, list_insert_id by done. by destruct w.
  - assert (columns t !! k = Some c) as Hc.
    { pose proof (lookup_drop (columns t) k 0) as H.
      rewrite Hrest, Nat.add_0_r in H. by symmetry. }
    assert (drop (S k) (columns t) = rest) as Hrest'.
    { rewrite <- Nat.add_1_r, <- drop_drop, Hrest. reflexivity. }
    cbn [forM_]. unfold bind at 1.
    destruct (fix_column unidecode d c w) as [[[]|e] w1] eqn:E1; [|discriminate].
    apply (fix_column_Ok unidecode w d _ k c w1 Hd) in E1; try done.
    + change (dtype_at (fixed_upto unidecode k t) k) with (dtype_at t k) in E1.
      rewrite fixed_upto_S in E1 by done. subst w1. intros Hloop.
      apply (IH (S k)) in Hloop; [| done |].
      * subst w'. cbn [heap self_dataframe geocode_calls stdout].
        rewrite list_insert_insert_eq.
        replace (S k + length rest)%nat with (k + length (c :: rest))%nat
          by (cbn [length]; lia).
        reflexivity.
      * cbn [heap]. apply list_lookup_insert_eq. by eapply lookup_lt_Some.
    + unfold wf, fixed_upto. cbn [header rows]. apply forallb_forall.
      intros r' Hr'. apply in_map_iff in Hr' as (r & <- & Hr).
      apply bool_decide_eq_true. unfold fixed_row. rewrite length_imap.
      apply list_elem_of_In in Hr. rewrite (wf_row t r Hwf Hr).
      unfold columns. by rewrite length_fmap.
    + by apply index_of_NoDup.
Qed.

(** C3.  Whenever [fix_string_case] returns, it returns the frame it was
    given, rewritten in place into [fixed unidecode t]: the header, the
    number of rows and the number of cells of each row are kept; in a text
    (object) column a text cell [s] becomes
    [capitalize (lower (unidecode s))] and a missing cell stays missing;
    in a numeric column every cell is kept.  But a cell of a text column
    that is neither text nor missing does not pass through unchanged, as
    the inner [remove_accents] would have it: the [.str] methods that
    follow turn it into a missing value. *)
Theorem fix_string_case_cells unidecode w dataframe t :
  heap w !! dataframe = Some t ->
  wf t = true ->
  NoDup (columns t) ->
  is_Ok (fix_string_case unidecode dataframe w).1 = true ->
  fix_string_case unidecode dataframe w
  = (Ok dataframe,
     mkWorld (<[dataframe := fixed unidecode t]> (heap w)) (self_dataframe w)
             (geocode_calls w) (stdout w)).
Proof.
  intros Hd Hwf Hnd. unfold fix_string_case.
  rewrite !(run_load _ _ _ _ Hd). unfold bind.
  destruct (forM_ _ _ w) as [[[]|e] w'] eqn:Hloop; [intros _|discriminate].
  apply (fix_loop unidecode dataframe t Hwf Hnd _ 0%nat) in Hloop.
  - subst w'. rewrite Nat.add_0_l, fixed_upto_all by done. reflexivity.
  - reflexivity.
  - by rewrite fixed_upto_0.
Qed.

Lemma fix_string_case_cells_witness :
  fix_string_case ascii_unidecode 0%nat (mkWorld [mixed_codes] None [] [])
  = (Ok 0%nat,
     mkWorld [mkDF [("codigo", DObject)] [[VStr "Bogota"]; [VNull]]] None [] []).
Proof.
  apply (fix_string_case_cells ascii_unidecode (mkWorld [mixed_codes] None [] [])
           0%nat mixed_codes);
    [reflexivity | reflexivity | apply (bool_decide_unpack _); reflexivity
    | reflexivity].
Defined.

(** ** Further properties of the code *)

(** *** What the enricher leaves alone *)

Lemma frames_kept_same_heap {A} d (m : M A) :
  (forall w, heap (m w).2 = heap w) -> frames_kept d m.
Proof. intros H w. rewrite H. split; [lia | done]. Qed.

Lemma frames_kept_bind {A B} d (m : M A) (k : A -> M B) :
  frames_kept d m -> (forall a, frames_kept d (k a)) -> frames_kept d (bind m k).
Proof.
  intros Hm Hk w. unfold bind. destruct (Hm w) as [Hlen Hsame].
  destruct (m w) as [[a|e] w1]; cbn [snd] in *; [|by split].
  destruct (Hk a w1) as [Hlen' Hsame']. split; [lia|].
  intros j Hj Hlt. rewrite Hsame' by (done || lia). by apply Hsame.
Qed.

Lemma frames_kept_store d df : frames_kept d (store d df).
Proof.
  intros w. cbn. rewrite length_insert. split; [lia|].
  intros j Hj _. by apply list_lookup_insert_ne.
Qed.

Lemma frames_kept_alloc d df : frames_kept d (alloc df).
Proof.
  intros w. cbn. rewrite length_app. split; [lia|].
  intros j _ Hlt. by apply lookup_app_l.
Qed.

Lemma frames_kept_mapM {A B} d (f : A -> M B) (l : list A) :
  (forall a, frames_kept d (f a)) -> frames_kept d (mapM f l).
Proof.
  intros Hf. induction l as [|x l IH]; [by apply frames_kept_same_heap|].
  cbn [mapM]. apply frames_kept_bind; [apply Hf|]. intros y.
  apply frames_kept_bind; [apply IH | intros ys; by apply frames_kept_same_heap].
Qed.

Lemma frames_kept_forM {A} d (l : list A) (f : A -> M unit) :
  (forall a, frames_kept d (f a)) -> frames_kept d (forM_ l f).
Proof.
  intros Hf. induction l as [|x l IH]; [by apply frames_kept_same_heap|].
  cbn [forM_]. apply frames_kept_bind; [apply Hf | done].
Qed.

Ltac frames_step :=
  first [ apply frames_kept_store
        | apply frames_kept_alloc
        | (apply frames_kept_same_heap; intros ?; reflexivity) ].

Lemma frames_kept_geocode service d :
  frames_kept d (geocode_dataframe service (Some d)).
Proof.
  intros w. unfold geocode_dataframe. rewrite run_ret. revert w.
  apply frames_kept_bind; [frames_step|]. intros df.
  destruct (_ && _).
  - do 5 (apply frames_kept_bind; [frames_step|]; intros ?).
    do 3 (apply frames_kept_bind; [frames_step|]; intros ?).
    apply frames_kept_bind; [apply frames_kept_mapM; intros ?; frames_step|].
    intros ?.
    do 3 (apply frames_kept_bind; [frames_step|]; intros ?).
    apply frames_kept_bind; [frames_step|]. intros managed.
    apply frames_kept_bind; [|intros ?; frames_step].
    destruct (bool_decide _); frames_step.
  - apply frames_kept_bind; [frames_step|]. intros ?. frames_step.
Qed.

Lemma frames_kept_fix_column unidecode d c :
  frames_kept d (fix_column unidecode d c).
Proof.
  unfold fix_column.
  do 2 (apply frames_kept_bind; [frames_step|]; intros ?).
  destruct (bool_decide _); [|frames_step].
  do 3 (apply frames_kept_bind; [frames_step|]; intros ?).
  do 4 (apply frames_kept_bind; [frames_step|]; intros ?).
  do 3 (apply frames_kept_bind; [frames_step|]; intros ?).
  frames_step.
Qed.

Lemma frames_kept_fix_string_case unidecode d :
  frames_kept d (fix_string_case unidecode d).
Proof.
  unfold fix_string_case.
  apply frames_kept_bind; [frames_step|]. intros df.
  apply frames_kept_bind; [|intros ?; frames_step].
  apply frames_kept_forM. intros c. apply frames_kept_fix_column.
Qed.

Lemma geocode_default_argument service w d :
  self_dataframe w = Some d ->
  geocode_dataframe service None w = geocode_dataframe service (Some d) w.
Proof.
  intros Hself. unfold geocode_dataframe, bind at 1 3, get_self_dataframe, ret.
  by rewrite Hself.
Qed.

(** X1.  The two methods of [DataManager] that work on a table change that
    table only: every other frame alive before the call is the same after
    it, whether the call returns or raises, and no frame is deleted. *)
Theorem methods_touch_only_their_table unidecode service w d j :
  j <> d ->
  (j < length (heap w))%nat ->
  heap (geocode_dataframe service (Some d) w).2 !! j = heap w !! j
  /\ heap (fix_string_case unidecode d w).2 !! j = heap w !! j.
Proof.
  intros Hj Hlt. split.
  - by apply frames_kept_geocode.
  - by apply frames_kept_fix_string_case.
Qed.

Lemma methods_touch_only_their_table_witness :
  heap (geocode_dataframe bogota_service (Some 0%nat)
          (mkWorld [bogota; only_municipio] None [] [])).2 !! 1%nat
  = heap (mkWorld [bogota; only_municipio] None [] []) !! 1%nat
  /\ heap (fix_string_case ascii_unidecode 0%nat
            (mkWorld [bogota; only_municipio] None [] [])).2 !! 1%nat
     = heap (mkWorld [bogota; only_municipio] None [] []) !! 1%nat.
Proof.
  apply (methods_touch_only_their_table ascii_unidecode bogota_service
           (mkWorld [bogota; only_municipio] None [] []) 0%nat 1%nat);
    [discriminate | cbn; lia].
Defined.

(** *** Exceptions of the enricher *)

Lemma rmap_add_str_raises (l : list value) (t : string) :
  forallb is_str_or_null l = false ->
  rmap (fun v => add_cells v (VStr t)) l = Raise TypeError.
Proof.
  induction l as [|v l IH]; [discriminate|].
  cbn [forallb rmap]. destruct v as [s|z|]; cbn.
  - intros H. by rewrite (IH H).
  - done.
  - intros H. by rewrite (IH H).
Qed.

(** X2.  When the [municipio] column is not a text column (it is numeric, or
    one of its cells is a number), [geocode_dataframe] raises [TypeError]
    and has changed nothing: no column is added to the table, no lookup is
    made, nothing is printed. *)
Theorem geocode_type_error_changes_nothing service w d t :
  heap w !! d = Some t ->
  has_column t "departamento" = true ->
  municipio_not_text t = true ->
  geocode_dataframe service (Some d) w = (Raise TypeError, w).
Proof.
  intros Hd Hdep Hbad. unfold municipio_not_text, getitem in Hbad.
  destruct (index_of "municipio" (columns t)) as [mi|] eqn:Hmi; [|discriminate].
  cbn [s_dtype s_values] in Hbad.
  assert (has_column t "municipio" = true) as Hmun.
  { apply bool_decide_eq_true. apply list_elem_of_lookup. exists mi.
    by apply index_of_Some. }
  unfold geocode_dataframe.
  rewrite run_ret, (run_load _ _ _ _ Hd), Hmun, Hdep.
  cbn [andb]. rewrite (run_lift_Ok _ _ _ _ (getitem_column t _ _ Hmi)).
  apply run_lift_Raise. unfold add_str. cbn [s_dtype s_values].
  destruct (nth mi (header t).*2 DObject); [|done].
  rewrite bool_decide_eq_true_2 in Hbad by done. cbn in Hbad.
  apply negb_true_iff in Hbad. by rewrite rmap_add_str_raises.
Qed.

Lemma geocode_type_error_changes_nothing_witness :
  geocode_dataframe bogota_service (Some 0%nat)
    (mkWorld [numeric_municipio] None [] [])
  = (Raise TypeError, mkWorld [numeric_municipio] None [] []).
Proof.
  apply (geocode_type_error_changes_nothing bogota_service
           (mkWorld [numeric_municipio] None [] []) 0%nat numeric_municipio);
    reflexivity.
Defined.

(** X3.  On a table with distinct column labels that has the two text
    columns and no row,
    [geocode_dataframe] raises [KeyError] (the lookup frame built from an
    empty list has no [location] column to join on).  No lookup has been
    made, but the table is no longer what it was: the [geolocalizacion]
    column of line 134 has been written to it. *)
Theorem geocode_no_rows_key_error service w d t :
  heap w !! d = Some t ->
  NoDup (columns t) ->
  rows t = [] ->
  text_keys t = true ->
  geocode_dataframe service (Some d) w
  = (Raise KeyError,
     mkWorld (<[d := with_keys t]> (heap w)) (self_dataframe w)
             (geocode_calls w) (stdout w))
  /\ has_column (with_keys t) "geolocalizacion" = true
  /\ rows (with_keys t) = [].
Proof.
  intros Hd _ Hrows Htk.
  assert (wf t = true) as Hwf by (unfold wf; by rewrite Hrows).
  split; [|split].
  - rewrite (geocode_run service w d t Hd Hwf Htk).
    unfold enriched, merge_left, row_keys. rewrite geo_index, Hrows.
    cbn [map unique_from from_records]. cbn. by rewrite app_nil_r.
  - apply bool_decide_eq_true. apply list_elem_of_lookup.
    eexists. apply index_of_Some. apply geo_index.
  - by rewrite rows_with_keys, Hrows.
Qed.

Lemma geocode_no_rows_key_error_witness :
  geocode_dataframe bogota_service (Some 0%nat) (mkWorld [no_rows] None [] [])
  = (Raise KeyError,
     mkWorld (<[0%nat := with_keys no_rows]>
                (heap (mkWorld [no_rows] None [] [])))
             (self_dataframe (mkWorld [no_rows] None [] []))
             (geocode_calls (mkWorld [no_rows] None [] []))
             (stdout (mkWorld [no_rows] None [] [])))
  /\ has_column (with_keys no_rows) "geolocalizacion" = true
  /\ rows (with_keys no_rows) = [].
Proof.
  apply (geocode_no_rows_key_error bogota_service (mkWorld [no_rows] None [] [])
           0%nat no_rows);
    [reflexivity | apply (bool_decide_unpack _); reflexivity
    | reflexivity | reflexivity].
Defined.

(** *** The managed table *)

Lemma keeps_managed_forM {A} (l : list A) (f : A -> M unit) :
  (forall a, keeps_managed (f a)) -> keeps_managed (forM_ l f).
Proof.
  intros Hf. induction l as [|x l IH]; [done|].
  cbn [forM_]. apply keeps_managed_bind; [apply Hf | intros _; apply IH].
Qed.

Lemma keeps_managed_fix_column unidecode d c :
  keeps_managed (fix_column unidecode d c).
Proof.
  unfold fix_column.
  apply keeps_managed_bind; [done|]. intros df.
  apply keeps_managed_bind; [done|]. intros s.
  case_bool_decide; [|done].
  repeat (apply keeps_managed_bind; [done|]; intros ?). done.
Qed.

Lemma keeps_managed_fix_string_case unidecode d :
  keeps_managed (fix_string_case unidecode d).
Proof.
  unfold fix_string_case.
  apply keeps_managed_bind; [done|]. intros df.
  apply keeps_managed_bind; [|done].
  apply keeps_managed_forM. intros c. apply keeps_managed_fix_column.
Qed.

Lemma keeps_managed_save_to_csv to_csv d filename :
  keeps_managed (save_to_csv to_csv d filename).
Proof.
  unfold save_to_csv. apply keeps_managed_bind; [done|]. intros df.
  by destruct (to_csv df filename).
Qed.

Lemma run_calls_managed unidecode service to_csv cs w :
  self_dataframe (run_calls unidecode service to_csv cs w) = self_dataframe w.
Proof.
  revert w. induction cs as [|c cs IH]; intros w; [done|].
  change (self_dataframe
            (run_calls unidecode service to_csv cs
               (run_call unidecode service to_csv c w)) = self_dataframe w).
  rewrite IH. destruct c as [d|d|d f|]; cbn [run_call].
  - apply keeps_managed_fix_string_case.
  - apply geocode_never_rebinds.
  - apply keeps_managed_save_to_csv.
  - done.
Qed.

(** X4.  No method of [DataManager] ever assigns a table to [self.dataframe].
    Any sequence of calls to [fix_string_case], [geocode_dataframe],
    [save_to_csv] and [get_dataframe], whatever their arguments and
    whether they return or raise, leaves [self.dataframe] naming what it
    named before.  So after [__init__] and any such calls [get_dataframe]
    returns [None], and [geocode_dataframe] called without a table raises
    [AttributeError] and does nothing else. *)
Theorem manager_never_holds_a_table unidecode service to_csv cs :
  (forall w,
     self_dataframe (run_calls unidecode service to_csv cs w) = self_dataframe w)
  /\ get_dataframe (run_calls unidecode service to_csv cs init)
     = (Ok None, run_calls unidecode service to_csv cs init)
  /\ geocode_dataframe service None (run_calls unidecode service to_csv cs init)
     = (Raise AttributeError, run_calls unidecode service to_csv cs init).
Proof.
  split; [intros w; apply run_calls_managed|].
  pose proof (run_calls_managed unidecode service to_csv cs init) as H.
  cbn [init self_dataframe] in H.
  unfold geocode_dataframe, get_dataframe, bind, get_self_dataframe.
  by rewrite H.
Qed.

(** *** Exceptions of the normalizer *)

Lemma str_method_Raise f s e : str_method f s = Raise e -> e = AttributeError.
Proof.
  unfold str_method. destruct (_ && _); [discriminate|]. by intros [= <-].
Qed.

Lemma wf_fixed_upto unidecode k t : wf t = true -> wf (fixed_upto unidecode k t) = true.
Proof.
  intros Hwf. unfold wf, fixed_upto. cbn [header rows]. apply forallb_forall.
  intros r' Hr'. apply in_map_iff in Hr' as (r & <- & Hr).
  apply bool_decide_eq_true. unfold fixed_row. rewrite length_imap.
  apply list_elem_of_In in Hr. rewrite (wf_row t r Hwf Hr).
  unfold columns. by rewrite length_fmap.
Qed.

Lemma column_cells_fixed_upto unidecode k t :
  column_cells (fixed_upto unidecode k t) k = column_cells t k.
Proof.
  unfold column_cells, fixed_upto. cbn [rows]. rewrite map_map.
  apply map_ext. intros r. rewrite !cell_lookup. unfold fixed_row.
  rewrite list_lookup_imap. destruct (r !! k) as [v|]; [|done].
  cbn [fmap option_fmap option_map default]. by rewrite Nat.ltb_irrefl.
Qed.

(** One turn of the loop raises nothing but [AttributeError]. *)
Lemma fix_column_Raise unidecode w d T k c e w' :
  heap w !! d = Some T ->
  wf T = true ->
  index_of c (columns T) = Some k ->
  fix_column unidecode d c w = (Raise e, w') ->
  e = AttributeError.
Proof.
  intros Hd Hwf Hk.
  assert (columns T !! k = Some c) as Hc by (by apply index_of_Some).
  pose proof (lookup_lt_Some _ _ _ Hd) as Hlt.
  unfold fix_column.
  rewrite (run_load _ _ _ _ Hd), (run_lift_Ok _ _ _ _ (getitem_column T c k Hk)).
  cbn [s_dtype]. case_bool_decide; [|discriminate].
  rewrite (run_load _ _ _ _ Hd), (run_lift_Ok _ _ _ _ (getitem_column T c k Hk)).
  unfold apply. cbn [s_values]. rewrite setitem_update by done. rewrite run_store.
  set (T1 := update_column k c _ (remove_accents unidecode) T).
  assert (wf T1 = true) as Hwf1 by (by apply wf_update).
  assert (columns T1 = columns T) as Hcols1 by (by apply columns_update).
  rewrite (run_load _ T1) by (cbn; by apply list_lookup_insert_eq).
  rewrite (run_lift_Ok _ _ _ _ (getitem_column T1 c k ltac:(by rewrite Hcols1))).
  destruct (str_method lower _) as [s2|e2] eqn:E2.
  2:{ rewrite (run_lift_Raise _ e2) by done. intros [= <- _].
      by apply str_method_Raise in E2. }
  rewrite (run_lift_Ok _ s2) by done.
  apply str_method_Ok in E2 as [_ ->]. cbn [s_values].
  rewrite setitem_update by (by rewrite Hcols1). rewrite run_store.
  set (T2 := update_column k c DObject (str_cell lower) T1).
  assert (columns T2 = columns T) as Hcols2
    by (unfold T2; rewrite columns_update; by rewrite Hcols1).
  rewrite (run_load _ T2)
    by (cbn; apply list_lookup_insert_eq; by rewrite length_insert).
  rewrite (run_lift_Ok _ _ _ _ (getitem_column T2 c k ltac:(by rewrite Hcols2))).
  destruct (str_method capitalize _) as [s3|e3] eqn:E3.
  2:{ rewrite (run_lift_Raise _ e3) by done. intros [= <- _].
      by apply str_method_Raise in E3. }
  rewrite (run_lift_Ok _ s3) by done. discriminate.
Qed.

Lemma existsb_is_str_remove_accents unidecode l :
  existsb is_str (map (remove_accents unidecode) l) = existsb is_str l.
Proof.
  induction l as [|[| |] l IH]; cbn; by rewrite ?IH.
Qed.

Lemma existsb_is_num_remove_accents unidecode l :
  existsb is_num (map (remove_accents unidecode) l) = existsb is_num l.
Proof.
  induction l as [|[| |] l IH]; cbn; by rewrite ?IH.
Qed.

(** The turn of the loop on a column of numbers without text: the column
    comes back numeric from [apply], and [.str] refuses it. *)
Lemma fix_column_numbers unidecode w d T k c :
  heap w !! d = Some T ->
  wf T = true ->
  index_of c (columns T) = Some k ->
  numbers_without_text T k = true ->
  (fix_column unidecode d c w).1 = Raise AttributeError.
Proof.
  intros Hd Hwf Hk Hnum.
  assert (columns T !! k = Some c) as Hc by (by apply index_of_Some).
  assert (k < length (header T))%nat as Hklt.
  { apply lookup_lt_Some in Hc. unfold columns in Hc. by rewrite length_fmap in Hc. }
  unfold numbers_without_text in Hnum.
  apply andb_true_iff in Hnum as [Hnum Hstr].
  apply andb_true_iff in Hnum as [Hdt Hnum].
  apply bool_decide_eq_true in Hdt. apply negb_true_iff in Hstr.
  unfold fix_column.
  rewrite (run_load _ _ _ _ Hd), (run_lift_Ok _ _ _ _ (getitem_column T c k Hk)).
  cbn [s_dtype]. fold (dtype_at T k). rewrite Hdt.
  rewrite bool_decide_eq_true_2 by done.
  rewrite (run_load _ _ _ _ Hd), (run_lift_Ok _ _ _ _ (getitem_column T c k Hk)).
  unfold apply. cbn [s_values]. fold (column_cells T k).
  unfold infer_dtype.
  rewrite existsb_is_str_remove_accents, existsb_is_num_remove_accents, Hstr, Hnum.
  unfold column_cells. rewrite setitem_update by done. rewrite run_store.
  set (T1 := update_column k c DNumber (remove_accents unidecode) T).
  assert (columns T1 = columns T) as Hcols1 by (by apply columns_update).
  rewrite (run_load _ T1) by (cbn; apply list_lookup_insert_eq; by eapply lookup_lt_Some).
  rewrite (run_lift_Ok _ _ _ _ (getitem_column T1 c k ltac:(by rewrite Hcols1))).
  fold (dtype_at T1 k). unfold T1 at 1. rewrite dtype_at_update by done.
  by rewrite (run_lift_Raise _ AttributeError).
Qed.

Lemma raising_loop unidecode d t k :
  wf t = true ->
  NoDup (columns t) ->
  (k < length (columns t))%nat ->
  numbers_without_text t k = true ->
  forall n j w,
    (k = j + n)%nat ->
    heap w !! d = Some (fixed_upto unidecode j t) ->
    (forM_ (drop j (columns t)) (fix_column unidecode d) w).1 = Raise AttributeError.
Proof.
  intros Hwf Hnd Hk Hnum n. induction n as [|n IH]; intros j w Hj Hd.
  - rewrite Nat.add_0_r in Hj. subst j.
    destruct (lookup_lt_is_Some_2 (columns t) k Hk) as [c Hc].
    rewrite (drop_S _ c k Hc). cbn [forM_]. unfold bind.
    pose proof (fix_column_numbers unidecode w d (fixed_upto unidecode k t) k c Hd
                  (wf_fixed_upto _ _ _ Hwf)) as H.
    destruct (fix_column unidecode d c w) as [[[]|e] w1]; cbn [fst] in *.
    + exfalso. enough (Ok tt = Raise AttributeError) by discriminate.
      apply H; [by apply index_of_NoDup|].
      unfold numbers_without_text in *.
      by rewrite column_cells_fixed_upto.
    + apply H; [by apply index_of_NoDup|].
      unfold numbers_without_text in *.
      by rewrite column_cells_fixed_upto.
  - assert (j < length (columns t))%nat as Hjlt by lia.
    destruct (lookup_lt_is_Some_2 (columns t) j Hjlt) as [c Hc].
    rewrite (drop_S _ c j Hc). cbn [forM_]. unfold bind.
    assert (index_of c (columns (fixed_upto unidecode j t)) = Some j) as Hidx
      by (by apply index_of_NoDup).
    destruct (fix_column unidecode d c w) as [[[]|e] w1] eqn:E1.
    + apply (fix_column_Ok unidecode w d _ j c w1 Hd) in E1;
        [| by apply wf_fixed_upto | done | done].
      change (dtype_at (fixed_upto unidecode j t) j) with (dtype_at t j) in E1.
      rewrite fixed_upto_S in E1 by done. subst w1.
      apply (IH (S j)); [lia|]. cbn [heap].
      apply list_lookup_insert_eq. by eapply lookup_lt_Some.
    + cbn [fst]. f_equal.
      by apply (fix_column_Raise unidecode w d _ j c e w1 Hd (wf_fixed_upto _ _ _ Hwf)).
Qed.

(** X5.  [fix_string_case] cannot handle an object column of numbers: when some
    object column of the table holds a number and no text, the call raises
    [AttributeError] (the [.str] accessor of line 108 refuses the column,
    which [apply] has made numeric) and returns no table. *)
Theorem fix_string_case_numbers_raise unidecode w d t k :
  heap w !! d = Some t ->
  wf t = true ->
  NoDup (columns t) ->
  (k < length (columns t))%nat ->
  numbers_without_text t k = true ->
  (fix_string_case unidecode d w).1 = Raise AttributeError.
Proof.
  intros Hd Hwf Hnd Hk Hnum. unfold fix_string_case.
  rewrite (run_load _ _ _ _ Hd). unfold bind.
  pose proof (raising_loop unidecode d t k Hwf Hnd Hk Hnum k 0%nat w eq_refl) as H.
  rewrite fixed_upto_0 in H. specialize (H Hd). cbn [drop] in H.
  destruct (forM_ _ _ w) as [[[]|e] w1]; cbn in *;
    [discriminate | by injection H as ->].
Qed.

Lemma fix_string_case_numbers_raise_witness :
  (fix_string_case ascii_unidecode 0%nat (mkWorld [coded] None [] [])).1
  = Raise AttributeError.
Proof.
  apply (fix_string_case_numbers_raise ascii_unidecode
           (mkWorld [coded] None [] []) 0%nat coded 1%nat);
    [reflexivity | reflexivity | apply (bool_decide_unpack _); reflexivity
    | cbn; lia | reflexivity].
Defined.

(** *** The normalizer before the enricher *)

(** What a call that returns has done. *)
Lemma fix_string_case_run unidecode w d t :
  heap w !! d = Some t ->
  wf t = true ->
  NoDup (columns t) ->
  is_Ok (fix_string_case unidecode d w).1 = true ->
  fix_string_case unidecode d w
  = (Ok d,
     mkWorld (<[d := fixed unidecode t]> (heap w)) (self_dataframe w)
             (geocode_calls w) (stdout w)).
Proof.
  intros Hd Hwf Hnd. unfold fix_string_case.
  rewrite !(run_load _ _ _ _ Hd). unfold bind.
  destruct (forM_ _ _ w) as [[[]|e] w'] eqn:Hloop; [intros _|discriminate].
  apply (fix_loop unidecode d t Hwf Hnd _ 0%nat) in Hloop.
  - subst w'. rewrite Nat.add_0_l, fixed_upto_all by done. reflexivity.
  - reflexivity.
  - by rewrite fixed_upto_0.
Qed.

Lemma wf_fixed unidecode t : wf t = true -> wf (fixed unidecode t) = true.
Proof.
  intros Hwf. rewrite <- fixed_upto_all by done. by apply wf_fixed_upto.
Qed.

Lemma cell_fixed unidecode t j r :
  cell j (imap (fun j v => fixed_cell unidecode (dtype_at t j) v) r)
  = match r !! j with
    | Some v => fixed_cell unidecode (dtype_at t j) v
    | None => VNull
    end.
Proof.
  rewrite cell_lookup, list_lookup_imap. by destruct (r !! j).
Qed.

Lemma fixed_cell_text unidecode v :
  is_str_or_null (fixed_cell unidecode DObject v) = true.
Proof. by destruct v. Qed.

Lemma text_keys_fixed unidecode t :
  object_keys t = true -> text_keys (fixed unidecode t) = true.
Proof.
  unfold object_keys, getitem.
  destruct (index_of "municipio" (columns t)) as [mi|] eqn:Hmi; [|discriminate].
  destruct (index_of "departamento" (columns t)) as [di|] eqn:Hdi; [|discriminate].
  cbn [s_dtype]. fold (dtype_at t mi) (dtype_at t di).
  intros H. apply andb_true_iff in H as [Hm Hd].
  apply bool_decide_eq_true in Hm, Hd.
  apply (text_keys_intro _ mi di); try done.
  - intros r' Hr'. cbn [rows fixed] in Hr'.
    apply list_elem_of_fmap in Hr' as (r & -> & _).
    rewrite cell_fixed, Hm. destruct (r !! mi); [apply fixed_cell_text | done].
  - intros r' Hr'. cbn [rows fixed] in Hr'.
    apply list_elem_of_fmap in Hr' as (r & -> & _).
    rewrite cell_fixed, Hd. destruct (r !! di); [apply fixed_cell_text | done].
Qed.

Lemma merge_left_Raise left right lk rk e :
  merge_left left right lk rk = Raise e -> e = KeyError \/ e = MergeError.
Proof.
  unfold merge_left.
  destruct (index_of lk _); [|intros [= <-]; by left].
  destruct (index_of rk _); [|intros [= <-]; by left].
  unfold items_overlap_with_suffix. destruct (_ || _); cbn; [|discriminate].
  intros [= <-]. by right.
Qed.

(** X6.  Normalising first keeps [TypeError] out of the enrichment.  When the
    two key columns are object columns and [fix_string_case] returns, a
    following [geocode_dataframe] on the same table does not raise
    [TypeError], whatever the key cells were: the numbers among them have
    become missing values, which line 134 concatenates into a missing
    key. *)
Theorem normalised_table_geocodes_without_type_error unidecode service w d t :
  heap w !! d = Some t ->
  wf t = true ->
  NoDup (columns t) ->
  object_keys t = true ->
  is_Ok (fix_string_case unidecode d w).1 = true ->
  (geocode_dataframe service (Some d) (fix_string_case unidecode d w).2).1
  <> Raise TypeError.
Proof.
  intros Hd Hwf Hnd Hkeys Hok.
  rewrite (fix_string_case_run unidecode w d t Hd Hwf Hnd Hok). cbn [snd].
  set (w1 := mkWorld _ _ _ _).
  assert (heap w1 !! d = Some (fixed unidecode t)) as Hd1.
  { cbn [w1 heap]. apply list_lookup_insert_eq. by eapply lookup_lt_Some. }
  rewrite (geocode_run service w1 d _ Hd1 (wf_fixed _ _ Hwf)
             (text_keys_fixed unidecode t Hkeys)).
  unfold enriched.
  destruct (merge_left _ _ _ _) as [m|e] eqn:E; [discriminate|].
  cbn [fst]. apply merge_left_Raise in E as [-> | ->]; discriminate.
Qed.

Lemma normalised_table_geocodes_without_type_error_witness :
  (geocode_dataframe constant_service (Some 0%nat)
     (fix_string_case ascii_unidecode 0%nat
        (mkWorld [mixed_municipio] None [] [])).2).1
  <> Raise TypeError.
Proof.
  apply (normalised_table_geocodes_without_type_error ascii_unidecode
           constant_service (mkWorld [mixed_municipio] None [] []) 0%nat
           mixed_municipio);
    [reflexivity | reflexivity | apply (bool_decide_unpack _); reflexivity
    | reflexivity | reflexivity].
Defined.

(** *** The normalizer twice *)

Lemma lower_char_idem c : lower_char (lower_char c) = lower_char c.
Proof. destruct c as [[] [] [] [] [] [] [] []]; reflexivity. Qed.

Lemma upper_lower_char c :
  upper_char (lower_char (upper_char (lower_char c))) = upper_char (lower_char c).
Proof. destruct c as [[] [] [] [] [] [] [] []]; reflexivity. Qed.

Lemma lower_idem s : lower (lower s) = lower s.
Proof.
  induction s as [|c s IH]; [done|]. cbn [lower]. by rewrite lower_char_idem, IH.
Qed.

(** Text in the normal form of [fix_string_case] is left as it is by
    [str.lower] followed by [str.capitalize]. *)
Lemma capitalize_lower_idem s :
  capitalize (lower (capitalize (lower s))) = capitalize (lower s).
Proof.
  destruct s as [|c s]; [done|]. cbn [lower capitalize].
  by rewrite upper_lower_char, !lower_idem.
Qed.

Lemma fixed_cell_idem unidecode dt v :
  (forall s, unidecode (capitalize (lower (unidecode s)))
             = capitalize (lower (unidecode s))) ->
  fixed_cell unidecode dt (fixed_cell unidecode dt v) = fixed_cell unidecode dt v.
Proof.
  intros H. destruct dt, v as [s| |]; cbn; try done.
  by rewrite H, capitalize_lower_idem.
Qed.

Lemma fixed_idem unidecode t :
  (forall s, unidecode (capitalize (lower (unidecode s)))
             = capitalize (lower (unidecode s))) ->
  fixed unidecode (fixed unidecode t) = fixed unidecode t.
Proof.
  intros H. unfold fixed at 1. cbn [header rows fixed]. unfold fixed. f_equal.
  rewrite map_map. apply map_ext. intros r. apply list_eq. intros j.
  rewrite !list_lookup_imap. destruct (r !! j) as [v|]; [|done].
  cbn [fmap option_fmap option_map]. f_equal.
  change (dtype_at (mkDF (header t) _) j) with (dtype_at t j).
  by apply fixed_cell_idem.
Qed.

(** X7.  [fix_string_case] on a table it has already normalised changes
    nothing: when [unidecode] leaves the normalised texts as they are (they
    are ASCII) and the two calls return, the second leaves the table, and
    everything else, as the first left it. *)
Theorem fix_string_case_twice unidecode w d t :
  heap w !! d = Some t ->
  wf t = true ->
  NoDup (columns t) ->
  (forall s, unidecode (capitalize (lower (unidecode s)))
             = capitalize (lower (unidecode s))) ->
  is_Ok (fix_string_case unidecode d w).1 = true ->
  is_Ok (fix_string_case unidecode d (fix_string_case unidecode d w).2).1 = true ->
  fix_string_case unidecode d (fix_string_case unidecode d w).2
  = (Ok d, (fix_string_case unidecode d w).2).
Proof.
  intros Hd Hwf Hnd Huni Hok1.
  rewrite (fix_string_case_run unidecode w d t Hd Hwf Hnd Hok1). cbn [snd].
  set (w1 := mkWorld _ _ _ _). intros Hok2.
  assert (heap w1 !! d = Some (fixed unidecode t)) as Hd1.
  { cbn [w1 heap]. apply list_lookup_insert_eq. by eapply lookup_lt_Some. }
  rewrite (fix_string_case_run unidecode w1 d _ Hd1 (wf_fixed _ _ Hwf) Hnd Hok2).
  f_equal. rewrite fixed_idem by done. unfold w1. cbn. f_equal.
  apply list_insert_insert_eq.
Qed.

Lemma fix_string_case_twice_witness :
  fix_string_case ascii_unidecode 0%nat
    (fix_string_case ascii_unidecode 0%nat (mkWorld [bogota_raw] None [] [])).2
  = (Ok 0%nat,
     (fix_string_case ascii_unidecode 0%nat (mkWorld [bogota_raw] None [] [])).2).
Proof.
  apply (fix_string_case_twice ascii_unidecode (mkWorld [bogota_raw] None [] [])
           0%nat bogota_raw);
    [reflexivity | reflexivity | apply (bool_decide_unpack _); reflexivity
    | intros s; reflexivity | reflexivity | reflexivity].
Defined.

(** *** Duplicated rows and distinct values *)

Lemma dedup_from_ext seen seen' l :
  (forall x, x ∈ seen <-> x ∈ seen') -> dedup_from seen l = dedup_from seen' l.
Proof.
  revert seen seen'. induction l as [|y l IH]; intros seen seen' H; [reflexivity|].
  cbn. rewrite (bool_decide_ext _ _ (H y)). case_bool_decide.
  - by apply IH.
  - f_equal. apply IH. intros x. rewrite !elem_of_cons. by rewrite H.
Qed.

Lemma shown_rows_from seen l :
  let shown := (filter (fun rb : list value * bool => rb.2 = true)
                  (zip l (duplicated_rows_from seen l))).*1 in
  l ≡ₚ dedup_from seen l ++ shown
  /\ (forall r, r ∈ shown -> r ∈ seen \/ r ∈ dedup_from seen l)
  /\ (forall r, r ∈ dedup_from seen l -> r ∈ l /\ r ∉ seen)
  /\ NoDup (dedup_from seen l)
  /\ sublist shown l.
Proof.
  revert seen. induction l as [|x l IH]; intros seen.
  - cbn. split; [done|]. split; [by intros r H%elem_of_nil|].
    split; [by intros r H%elem_of_nil|]. split; [apply NoDup_nil_2 | constructor].
  - cbn [duplicated_rows_from dedup_from zip zip_with].
    destruct (IH (x :: seen)) as (Hp1 & Hs1 & Hk1 & Hn1 & Hsub1).
    rewrite filter_cons. cbn [snd]. case_bool_decide as Hx.
    + rewrite decide_True by done. cbn [fmap list_fmap fst].
      assert (dedup_from (x :: seen) l = dedup_from seen l) as Hext.
      { apply dedup_from_ext. intros y. rewrite elem_of_cons.
        split; [intros [->|?]; done | by right]. }
      rewrite Hext in *.
      split; [|split; [|split; [|split]]].
      * etrans; [apply Permutation_skip, Hp1 | apply Permutation_middle].
      * intros r [->|Hr]%elem_of_cons; [by left|].
        apply Hs1 in Hr as [[->|Hr]%elem_of_cons|Hr]; [by left | by left | by right].
      * intros r Hr. apply Hk1 in Hr as [? Hr]. split; [by right|].
        by apply not_elem_of_cons in Hr as [_ ?].
      * done.
      * by constructor.
    + rewrite decide_False by done.
      split; [|split; [|split; [|split]]].
      * cbn. by constructor.
      * intros r Hr. apply Hs1 in Hr as [[->|Hr]%elem_of_cons|Hr].
        -- right. by left.
        -- by left.
        -- right. by right.
      * intros r [->|Hr]%elem_of_cons; [split; [by left | done]|].
        apply Hk1 in Hr as [? Hr]. split; [by right|].
        by apply not_elem_of_cons in Hr as [_ ?].
      * constructor; [|done]. intros H. apply Hk1 in H as [_ H].
        apply H. by left.
      * by constructor.
Qed.

(** X8.  [duplicate_rows] shows the extra copies and nothing else: the rows of
    the table are, up to order, one first occurrence of each distinct row
    followed by the rows shown; every row shown is a copy of one of those
    first occurrences, the rows shown keep the order of the table, and none
    is shown when the rows of the table are distinct.  Two missing cells
    count as equal. *)
Theorem duplicate_rows_extra_copies data :
  columns data <> [] ->
  header (duplicate_rows data) = header data
  /\ sublist (rows (duplicate_rows data)) (rows data)
  /\ (exists firsts,
        NoDup firsts
        /\ rows data ≡ₚ firsts ++ rows (duplicate_rows data)
        /\ forall r, r ∈ rows (duplicate_rows data) -> r ∈ firsts)
  /\ (NoDup (rows data) -> rows (duplicate_rows data) = []).
Proof.
  intros _.
  destruct (shown_rows_from [] (rows data)) as (Hp & Hs & Hk & Hn & Hsub).
  cbn zeta in *. split; [done|]. split; [done|]. split.
  - exists (dedup_from [] (rows data)). split; [done|]. split; [done|].
    intros r Hr. apply Hs in Hr as [Hr%elem_of_nil|Hr]; done.
  - intros Hnd. unfold duplicate_rows, getitem_mask, duplicated_rows. cbn [rows].
    set (shown := (filter _ _).*1) in *.
    destruct shown as [|r shown'] eqn:E; [done|]. exfalso.
    assert (r ∈ dedup_from [] (rows data)) as Hin.
    { destruct (Hs r) as [H%elem_of_nil|H]; [by left|done|done]. }
    apply list_elem_of_split in Hin as (l1 & l2 & Hl).
    rewrite Hl in Hp. rewrite Hp in Hnd.
    rewrite <- app_assoc in Hnd. apply NoDup_app in Hnd as (_ & _ & Hnd).
    cbn in Hnd. apply NoDup_cons in Hnd as [Hnd _].
    apply Hnd. apply elem_of_app. right. by left.
Qed.

Lemma duplicate_rows_extra_copies_witness :
  header (duplicate_rows repeated_rows) = header repeated_rows
  /\ sublist (rows (duplicate_rows repeated_rows)) (rows repeated_rows)
  /\ (exists firsts,
        NoDup firsts
        /\ rows repeated_rows ≡ₚ firsts ++ rows (duplicate_rows repeated_rows)
        /\ forall r, r ∈ rows (duplicate_rows repeated_rows) -> r ∈ firsts)
  /\ (NoDup (rows repeated_rows) -> rows (duplicate_rows repeated_rows) = []).
Proof.
  apply (duplicate_rows_extra_copies repeated_rows). discriminate.
Defined.

Lemma rmap_imap {A B} (f : A -> result B) (g : nat -> A -> B) (l : list A) :
  (forall i x, l !! i = Some x -> f x = Ok (g i x)) -> rmap f l = Ok (imap g l).
Proof.
  revert g. induction l as [|x l IH]; intros g H; [done|].
  cbn [rmap imap]. rewrite (H 0%nat x eq_refl). cbn [rbind].
  rewrite (IH (g ∘ S)); [done|]. intros i y Hy. by apply (H (S i)).
Qed.

Lemma unique_values_run data :
  NoDup (columns data) ->
  unique_values data
  = Ok (imap (fun i c => (c, nunique (mkSeries (dtype_at data i) (column_cells data i))))
             (columns data)).
Proof.
  intros Hnd. unfold unique_values. apply rmap_imap. intros i c Hc.
  by rewrite (getitem_column data c i (index_of_NoDup _ _ _ Hnd Hc)).
Qed.

Lemma unique_from_NoDup seen (l : list value) :
  NoDup l -> (forall x, x ∈ l -> x ∉ seen) -> unique_from seen l = l.
Proof.
  intros Hnd. revert seen. induction Hnd as [|x l Hx Hnd IH]; intros seen Hs; [done|].
  cbn. rewrite bool_decide_eq_false_2 by (apply Hs; by left).
  f_equal. apply IH. intros y Hy. apply not_elem_of_cons. split.
  - intros ->. done.
  - apply Hs. by right.
Qed.

Lemma filter_all {A} (P : A -> Prop) `{forall x, Decision (P x)} (l : list A) :
  length (filter P l) = length l <-> Forall P l.
Proof.
  split.
  - intros Hlen. apply Forall_forall. intros x Hx.
    destruct (decide (P x)) as [|Hn]; [done|].
    pose proof (length_filter_lt P l x Hx Hn). lia.
  - intros HP. induction HP as [|x l Hx HP IH]; [done|].
    rewrite filter_cons, decide_True by done. cbn. by rewrite IH.
Qed.

(** The counts of [nunique]. *)
Lemma nunique_bounds dt (cells : list value) :
  let n := nunique (mkSeries dt cells) in
  (n <= length (filter (fun v => isnull v = false) cells))%nat
  /\ (n = 0%nat <-> Forall (fun v => isnull v = true) cells)
  /\ (n = length cells <->
      NoDup cells /\ Forall (fun v => isnull v = false) cells).
Proof.
  unfold nunique, unique. cbn [s_values].
  set (u := unique_from [] cells).
  assert (NoDup u) as Hu by apply NoDup_unique_from.
  assert (forall x, x ∈ u <-> x ∈ cells) as Hin.
  { intros x. unfold u. rewrite elem_of_unique_from. split; [by intros [? _]|].
    intros ?. split; [done | by intros ?%elem_of_nil]. }
  assert (u ⊆+ cells) as Hsub by (apply NoDup_submseteq; [done | by intros x ?%Hin]).
  split; [|split].
  - apply submseteq_length. apply NoDup_submseteq; [by apply NoDup_filter|].
    intros x [Hx Hxu]%list_elem_of_filter. apply list_elem_of_filter.
    split; [done | by apply Hin].
  - split.
    + intros H0. apply Forall_forall. intros x Hx.
      destruct (isnull x) eqn:E; [done|]. exfalso.
      assert (x ∈ filter (fun v => isnull v = false) u) as Hf
        by (apply list_elem_of_filter; split; [done | by apply Hin]).
      destruct (filter _ u); [by apply elem_of_nil in Hf | discriminate].
    + intros Hall. apply length_zero_iff_nil. apply elem_of_nil_inv.
      intros x [Hx Hxu]%list_elem_of_filter. apply Hin in Hxu.
      rewrite Forall_forall in Hall. specialize (Hall x Hxu). congruence.
  - pose proof (length_filter (fun v => isnull v = false) u) as H1.
    pose proof (submseteq_length _ _ Hsub) as H2.
    split.
    + intros Heq.
      assert (u ≡ₚ cells) as Hperm by (apply submseteq_length_Permutation; [done | lia]).
      split; [by rewrite <- Hperm|].
      rewrite <- Hperm. apply (proj1 (filter_all _ u)). lia.
    + intros [Hnd Hall]. unfold u. rewrite unique_from_NoDup; [|done|].
      * by apply (proj2 (filter_all _ cells)).
      * by intros x _ ?%elem_of_nil.
Qed.

(** X9.  [unique_values] reports one count per column, in column order.  The
    count of a column leaves its missing cells out: it is at most the
    number of cells that are not missing, it is 0 exactly when every cell
    is missing, and it reaches the number of rows exactly when the column
    has no missing cell and no repeated cell. *)
Theorem unique_values_counts data i c :
  NoDup (columns data) ->
  columns data !! i = Some c ->
  exists counts n,
    unique_values data = Ok counts
    /\ counts.*1 = columns data
    /\ counts !! i = Some (c, n)
    /\ (n <= length (filter (fun v => isnull v = false) (column_cells data i)))%nat
    /\ (n = 0%nat <-> Forall (fun v => isnull v = true) (column_cells data i))
    /\ (n = length (rows data) <->
        NoDup (column_cells data i)
        /\ Forall (fun v => isnull v = false) (column_cells data i)).
Proof.
  intros Hnd Hc. eexists _, _. split; [by apply unique_values_run|].
  split; [|split].
  - apply list_eq. intros j. rewrite list_lookup_fmap, list_lookup_imap.
    by destruct (columns data !! j).
  - rewrite list_lookup_imap, Hc. reflexivity.
  - pose proof (nunique_bounds (dtype_at data i) (column_cells data i)) as H.
    cbn zeta in H. unfold column_cells in H at 6. rewrite length_map in H. exact H.
Qed.

Lemma unique_values_counts_witness :
  exists counts n,
    unique_values repeated_rows = Ok counts
    /\ counts.*1 = columns repeated_rows
    /\ counts !! 1%nat = Some ("anio", n)
    /\ (n <= length (filter (fun v => isnull v = false)
                       (column_cells repeated_rows 1)))%nat
    /\ (n = 0%nat <-> Forall (fun v => isnull v = true) (column_cells repeated_rows 1))
    /\ (n = length (rows repeated_rows) <->
        NoDup (column_cells repeated_rows 1)
        /\ Forall (fun v => isnull v = false) (column_cells repeated_rows 1)).
Proof.
  apply (unique_values_counts repeated_rows 1%nat "anio");
    [apply (bool_decide_unpack _); reflexivity | reflexivity].
Defined.

(** *** The groups of the grouped table *)

Lemma insert_by_Permutation {A} (before : A -> A -> bool) x l :
  insert_by before x l ≡ₚ x :: l.
Proof.
  induction l as [|y l IH]; [done|].
  cbn. destruct (before x y); [done|].
  rewrite IH. apply Permutation_swap.
Qed.

Lemma sort_by_Permutation {A} (before : A -> A -> bool) l : sort_by before l ≡ₚ l.
Proof.
  induction l as [|x l IH]; [done|].
  cbn. rewrite insert_by_Permutation. by constructor.
Qed.

Lemma rmap_Forall2 {A B} (f : A -> result B) l out :
  rmap f l = Ok out -> Forall2 (fun x y => f x = Ok y) l out.
Proof.
  revert out. induction l as [|x l IH]; intros out; cbn.
  - intros [= <-]. constructor.
  - destruct (f x) as [y|] eqn:E; [|discriminate]. cbn.
    destruct (rmap f l) as [ys|]; [|discriminate]. cbn.
    intros [= <-]. constructor; [done | by apply IH].
Qed.

Lemma elem_of_dedup_keys (l : list (list value)) k : k ∈ dedup_keys l <-> k ∈ l.
Proof.
  unfold dedup_keys.
  destruct (shown_rows_from [] l) as (Hp & Hs & Hk & _ & _). cbn zeta in *.
  split; [by intros [? _]%Hk|].
  intros Hin. rewrite Hp in Hin. apply elem_of_app in Hin as [?|Hin]; [done|].
  by apply Hs in Hin as [?%elem_of_nil|?].
Qed.

Lemma NoDup_dedup_keys (l : list (list value)) : NoDup (dedup_keys l).
Proof.
  unfold dedup_keys. by destruct (shown_rows_from [] l) as (_ & _ & _ & ? & _).
Qed.

(** What [groupby(...).agg(...)] returns: one row per complete key of the
    data, each key once, the key cells first. *)
Lemma groupby_agg_Ok data by_ named g :
  groupby_agg data by_ named = Ok g ->
  exists kis keys,
    rmap (find_column data) by_ = Ok kis
    /\ length kis = length by_
    /\ NoDup keys
    /\ (forall k, k ∈ keys <->
          exists r0, r0 ∈ rows data /\ group_key kis r0 = k /\ complete_key k = true)
    /\ Forall2 (fun k r => exists aggs, r = k ++ aggs) keys (rows g).
Proof.
  unfold groupby_agg. destruct by_ as [|b by_]; [discriminate|].
  destruct named as [|na named]; [discriminate|].
  destruct (rmap (find_column data) (b :: by_)) as [kis|] eqn:Hkis; [|discriminate].
  cbn [rbind].
  destruct (rmap (fun na => find_column data na.2.1) (na :: named)) as [ais|];
    [|discriminate].
  cbn [rbind].
  set (keys := sort_by keys_leb _).
  destruct (rmap _ keys) as [out|] eqn:Hout; [|discriminate]. cbn [rbind].
  case_bool_decide; [|discriminate]. intros [= <-].
  exists kis, keys. split; [done|]. split; [|split; [|split]].
  - apply rmap_Forall2, Forall2_length in Hkis. done.
  - unfold keys. rewrite sort_by_Permutation. apply NoDup_dedup_keys.
  - intros k. unfold keys. rewrite sort_by_Permutation, elem_of_dedup_keys.
    rewrite list_elem_of_filter, list_elem_of_fmap. fold (complete_key k).
    split.
    + intros [Hc (r0 & -> & Hr0)]. by exists r0.
    + intros (r0 & Hr0 & <- & Hc). split; [done | by exists r0].
  - cbn [rows]. apply rmap_Forall2 in Hout.
    eapply Forall2_impl; [exact Hout|]. cbn beta. intros k r Hr.
    destruct (rzip_with _ _ _) as [aggs|]; [|discriminate].
    cbn in Hr. injection Hr as <-. by exists aggs.
Qed.

Lemma length_group_key kis r : length (group_key kis r) = length kis.
Proof. unfold group_key. by rewrite length_map. Qed.

(** X10.  The groups of [grouped_table], on a table whose column labels
    are distinct, with group-by columns and aggregation names none of
    which is "index".  Whenever it returns a table, every row
    of that table starts with the group key of some row of the data, a key
    with no missing cell, and no two rows start with the same key.  Rows
    of the data with a missing cell in a group-by column belong to no
    group.  When the table has fewer rows than the limit [top_n] (10 when
    left out), no group has been cut off: every complete group key of the
    data starts one of its rows. *)
Theorem grouped_table_groups data group_by_columns aggregation_columns
    sort_by_column top_n out :
  NoDup (columns data) ->
  "index" ∉ group_by_columns ++ aggregation_columns.*1 ->
  grouped_table data group_by_columns aggregation_columns sort_by_column top_n
  = Ok out ->
  exists kis,
    rmap (find_column data) group_by_columns = Ok kis
    /\ NoDup (map (take (length group_by_columns)) (rows out))
    /\ (forall r, r ∈ rows out ->
          exists r0, r0 ∈ rows data
            /\ take (length group_by_columns) r = group_key kis r0
            /\ complete_key (group_key kis r0) = true)
    /\ (Z.of_nat (length (rows out)) < default 10 top_n ->
        forall r0, r0 ∈ rows data -> complete_key (group_key kis r0) = true ->
          exists r, r ∈ rows out
            /\ take (length group_by_columns) r = group_key kis r0).
Proof.
  intros _ Hidx Hrun.
  destruct (grouped_table_steps _ _ _ _ _ _ Hidx Hrun)
    as (g1 & g3 & i & H1 & _ & _ & Hrows3 & Hhead).
  rewrite Hhead in Hrun. injection Hrun as <-. clear Hhead.
  apply groupby_agg_Ok in H1 as (kis & keys & Hkis & Hlen & Hnd & Hkeys & Hrows).
  assert (rows g3 ≡ₚ rows g1) as Hperm
    by (by rewrite Hrows3, sort_by_Permutation).
  set (n := length group_by_columns) in *.
  assert (forall k r, k ∈ keys -> (exists aggs, r = k ++ aggs) -> take n r = k) as Htake.
  { intros k r Hk [aggs ->]. apply Hkeys in Hk as (r0 & _ & <- & _).
    rewrite take_app_length'; [done|]. by rewrite length_group_key. }
  assert (map (take n) (rows g1) = keys) as Hmap.
  { clear -Hrows Htake. induction Hrows as [|k r ks rs Hkr Hrows IH]; [done|].
    cbn. f_equal.
    - apply Htake; [by left | done].
    - apply IH. intros k' r' Hk'. apply Htake. by right. }
  destruct (rows_head g3 (default 10 top_n)) as [m Hm].
  exists kis. split; [done|]. split; [|split].
  - rewrite Hm. rewrite <- firstn_map.
    eapply sublist_NoDup; [|apply sublist_take].
    rewrite Hperm, Hmap. done.
  - intros r Hr. rewrite Hm in Hr.
    apply (subseteq_take m (rows g3)) in Hr. rewrite Hperm in Hr.
    assert (take n r ∈ keys) as Hk.
    { rewrite <- Hmap. apply list_elem_of_fmap. by exists r. }
    apply Hkeys in Hk as (r0 & Hr0 & Hkey & Hc).
    exists r0. split; [done|]. split; [done | by rewrite Hkey].
  - intros Hfew r0 Hr0 Hc.
    assert (rows (head g3 (default 10 top_n)) = rows g3) as Hall.
    { unfold head in *. destruct (0 <=? default 10 top_n) eqn:E.
      - cbn [rows] in *. apply take_ge. rewrite length_take in Hfew. lia.
      - apply Z.leb_gt in E. lia. }
    rewrite Hall.
    assert (group_key kis r0 ∈ keys) as Hk by (apply Hkeys; by exists r0).
    rewrite <- Hmap in Hk. apply list_elem_of_fmap in Hk as (r & Hkey & Hr).
    exists r. split; [by rewrite Hperm | done].
Qed.

Lemma grouped_table_groups_witness :
  exists kis,
    rmap (find_column undated_harvest) ["anio"] = Ok kis
    /\ NoDup (map (take (length ["anio"]))
                (rows (mkDF [("anio", DNumber); ("registros", DNumber)]
                            [[VNum 2021; VNum 2]; [VNum 2020; VNum 1]])))
    /\ (forall r,
          r ∈ rows (mkDF [("anio", DNumber); ("registros", DNumber)]
                         [[VNum 2021; VNum 2]; [VNum 2020; VNum 1]]) ->
          exists r0, r0 ∈ rows undated_harvest
            /\ take (length ["anio"]) r = group_key kis r0
            /\ complete_key (group_key kis r0) = true)
    /\ (Z.of_nat (length (rows (mkDF [("anio", DNumber); ("registros", DNumber)]
                                     [[VNum 2021; VNum 2]; [VNum 2020; VNum 1]])))
        < default 10 None ->
        forall r0, r0 ∈ rows undated_harvest ->
          complete_key (group_key kis r0) = true ->
          exists r,
            r ∈ rows (mkDF [("anio", DNumber); ("registros", DNumber)]
                           [[VNum 2021; VNum 2]; [VNum 2020; VNum 1]])
            /\ take (length ["anio"]) r = group_key kis r0).
Proof.
  apply (grouped_table_groups undated_harvest ["anio"] yearly_records "registros"
           None);
    [apply (bool_decide_unpack _); reflexivity
    | apply (bool_decide_unpack _); reflexivity
    | reflexivity].
Defined.

(** *** The charts *)

Lemma float_geb_total a b : float_geb a b = false -> float_geb b a = true.
Proof.
  destruct a as [x|], b as [y|]; cbn; try done.
  intros H. apply Qle_bool_iff. apply Qlt_le_weak. apply Qnot_le_lt.
  intros Hle. apply Qle_bool_iff in Hle. congruence.
Qed.

(** X11.  The two percentage charts draw the numbers the two percentage tables
    round.  The bars of [visualize_missing_values] stand in descending
    order of height (NaN heights, which a table without rows gives, last)
    and, rounded and written as [missing_values] writes them, are the
    entries of that table up to order; the bars of [visualize_zero_values]
    are not sorted: they are the entries of [zero_values] in column
    order. *)
Theorem percentage_charts_match_tables data :
  Sorted (fun p q => float_geb p.2 q.2 = true) (bars (visualize_missing_values data))
  /\ map shown_percentage (bars (visualize_missing_values data))
     ≡ₚ missing_values data
  /\ map shown_percentage (bars (visualize_zero_values data)) = zero_values data.
Proof.
  unfold visualize_missing_values, visualize_zero_values, missing_values,
    zero_values, percentages. cbn [bars]. split; [|split].
  - apply (Sorted_sort_by (fun p q : string * float => float_geb p.2 q.2)).
    intros x y. apply float_geb_total.
  - rewrite sort_by_Permutation.
    match goal with |- ?a ≡ₚ ?b => enough (a = b) as -> by done end.
    apply list_eq. intros j. change map with (@fmap list _).
    by rewrite list_lookup_fmap, !list_lookup_imap; destruct (columns data !! j).
  - apply list_eq. intros j. change map with (@fmap list _).
    by rewrite list_lookup_fmap, !list_lookup_imap; destruct (columns data !! j).
Qed.

Lemma Sorted_weaken {A} (R S : A -> A -> Prop) l :
  (forall x y, R x y -> S x y) -> Sorted R l -> Sorted S l.
Proof.
  intros HRS. induction 1 as [|x l Hs IH Hhd]; constructor; [done|].
  destruct Hhd; constructor. by apply HRS.
Qed.

Lemma nat_geb_total (x y : string * nat) :
  (y.2 <=? x.2)%nat = false -> (x.2 <=? y.2)%nat = true.
Proof. intros H. apply Nat.leb_gt in H. apply Nat.leb_le. lia. Qed.

(** X12.  The chart of [visualize_unique_values] draws the counts that
    [unique_values] displays, largest first: its bars are the items of that
    dict up to order, in descending order of the count. *)
Theorem unique_values_chart_matches_table data :
  NoDup (columns data) ->
  exists counts,
    unique_values data = Ok counts
    /\ bars (visualize_unique_values data) ≡ₚ counts
    /\ Sorted (fun p q => (q.2 <= p.2)%nat) (bars (visualize_unique_values data)).
Proof.
  intros Hnd. eexists. split; [by apply unique_values_run|].
  unfold visualize_unique_values. cbn [bars]. split.
  - by rewrite sort_by_Permutation.
  - eapply Sorted_weaken; [|apply (Sorted_sort_by _ nat_geb_total)].
    intros p q H. cbv beta in H. by apply Nat.leb_le in H.
Qed.

Lemma unique_values_chart_matches_table_witness :
  exists counts,
    unique_values repeated_rows = Ok counts
    /\ bars (visualize_unique_values repeated_rows) ≡ₚ counts
    /\ Sorted (fun p q => (q.2 <= p.2)%nat)
         (bars (visualize_unique_values repeated_rows)).
Proof.
  apply (unique_values_chart_matches_table repeated_rows).
  apply (bool_decide_unpack _). reflexivity.
Defined.

Lemma box_check data cols :
  rmap (fun col => if has_column data col then Ok tt else Raise ValueError) cols
  = if bool_decide (Forall (fun c => c ∈ columns data) cols)
    then Ok (map (fun _ => tt) cols) else Raise ValueError.
Proof.
  induction cols as [|c cols IH]; [done|].
  cbn [rmap]. rewrite IH. unfold has_column.
  destruct (decide (c ∈ columns data)) as [Hc|Hc].
  - rewrite (bool_decide_eq_true_2 _ Hc). cbn [rbind].
    destruct (decide (Forall (fun c => c ∈ columns data) cols)) as [Hall|Hall].
    + rewrite (bool_decide_eq_true_2 _ Hall).
      by rewrite bool_decide_eq_true_2 by (by constructor).
    + rewrite (bool_decide_eq_false_2 _ Hall).
      rewrite bool_decide_eq_false_2; [done|]. by intros [_ ?]%Forall_cons.
  - rewrite (bool_decide_eq_false_2 _ Hc). cbn [rbind].
    rewrite bool_decide_eq_false_2; [done|]. by intros [? _]%Forall_cons.
Qed.

Lemma box_figures data cols :
  Forall (fun c => c ∈ columns data) cols ->
  exists figs,
    rmap (fun column =>
            try* s := getitem data column in
            Ok (mkBox column (s_values s) ("Distribution of " +:+ column)))
         cols = Ok figs
    /\ map box_y figs = cols
    /\ (forall b, b ∈ figs ->
          exists i, columns data !! i = Some (box_y b)
                    /\ box_points b = column_cells data i
                    /\ box_title b = "Distribution of " +:+ box_y b).
Proof.
  induction 1 as [|c cols Hc Hall (figs & Hrun & Hlab & Hfig)].
  - exists []. split; [done|]. split; [done|]. by intros b ?%elem_of_nil.
  - destruct (index_of_elem c (columns data) Hc) as [i Hi].
    eexists (_ :: figs). cbn [rmap].
    rewrite (getitem_column data c i Hi), Hrun. cbn [rbind s_values].
    split; [done|]. split; [cbn; by rewrite Hlab|].
    intros b [->|Hb]%elem_of_cons; [|by apply Hfig].
    exists i. cbn. split; [by apply index_of_Some | done].
Qed.

(** X13.  [visualize_box_plot] and the columns it is asked for.  With a list of
    columns that are all in the table, it returns one figure per requested
    column, in the order requested, each drawn from the cells of its column
    and titled after it; with a list that names a column the table lacks it
    raises [ValueError] and returns no figure; with [None] it returns one
    figure per numeric column, in column order, and cannot raise. *)
Theorem box_plot_checks_columns data cols :
  NoDup (columns data) ->
  (Forall (fun c => c ∈ columns data) cols ->
   exists figs,
     visualize_box_plot data (Some cols) = Ok figs
     /\ map box_y figs = cols
     /\ (forall b, b ∈ figs ->
           exists i, columns data !! i = Some (box_y b)
                     /\ box_points b = column_cells data i
                     /\ box_title b = "Distribution of " +:+ box_y b))
  /\ (~ Forall (fun c => c ∈ columns data) cols ->
      visualize_box_plot data (Some cols) = Raise ValueError)
  /\ (exists figs,
        visualize_box_plot data None = Ok figs
        /\ map box_y figs = numeric_columns data).
Proof.
  intros _. unfold visualize_box_plot. split; [|split].
  - intros Hall. rewrite box_check, bool_decide_eq_true_2 by done. cbn [rbind].
    by apply box_figures.
  - intros Hnot. by rewrite box_check, bool_decide_eq_false_2.
  - cbn [rbind].
    destruct (box_figures data (numeric_columns data)) as (figs & Hrun & Hlab & _).
    + apply Forall_forall. intros c Hc. unfold numeric_columns in Hc.
      apply list_elem_of_fmap in Hc as ([c' dt] & -> & Hc).
      apply list_elem_of_filter in Hc as [_ Hc].
      apply list_elem_of_fmap. by exists (c', dt).
    + by exists figs.
Qed.

Lemma box_plot_checks_columns_witness :
  (Forall (fun c => c ∈ columns yields) ["rendimiento"; "cultivo"] ->
   exists figs,
     visualize_box_plot yields (Some ["rendimiento"; "cultivo"]) = Ok figs
     /\ map box_y figs = ["rendimiento"; "cultivo"]
     /\ (forall b, b ∈ figs ->
           exists i, columns yields !! i = Some (box_y b)
                     /\ box_points b = column_cells yields i
                     /\ box_title b = "Distribution of " +:+ box_y b))
  /\ (~ Forall (fun c => c ∈ columns yields) ["rendimiento"; "cultivo"] ->
      visualize_box_plot yields (Some ["rendimiento"; "cultivo"]) = Raise ValueError)
  /\ (exists figs,
        visualize_box_plot yields None = Ok figs
        /\ map box_y figs = numeric_columns yields).
Proof.
  apply (box_plot_checks_columns yields ["rendimiento"; "cultivo"]).
  apply (bool_decide_unpack _). reflexivity.
Defined.

Lemma compare_cells_numbers (op : Z -> Z -> bool) dt cells bound :
  forallb (fun v => negb (is_str v)) cells = true ->
  compare_cells op (mkSeries dt cells) bound
  = Ok (map (fun v => match v with VNum z => op z bound | _ => false end) cells).
Proof.
  unfold compare_cells. cbn [s_values].
  induction cells as [|v cells IH]; [done|].
  cbn [forallb]. intros [Hv Hall]%andb_true_iff.
  cbn [rmap]. rewrite (IH Hall). by destruct v.
Qed.

Lemma masked_cells (i : nat) (f : value -> bool) (rws : list (list value)) :
  map (cell i)
      (filter (fun rb : list value * bool => rb.2 = true)
         (zip rws (map (fun r => f (cell i r)) rws))).*1
  = filter (fun v => f v = true) (map (cell i) rws).
Proof.
  induction rws as [|r rws IH]; [done|].
  cbn [map zip zip_with]. rewrite !filter_cons. cbn [snd].
  destruct (decide (f (cell i r) = true)); cbn; by rewrite IH.
Qed.

(** X14.  The range of [plot_histogram] on a numeric column of a table with
    distinct column labels.  With both bounds
    the histogram is drawn from the numbers of the column that lie between
    them, bounds included, in row order, the missing cells left out.  With
    one bound only, that bound is ignored: the histogram is drawn from
    every cell of the column. *)
Theorem plot_histogram_range data column i range_min range_max bins :
  NoDup (columns data) ->
  index_of column (columns data) = Some i ->
  dtype_at data i = DNumber ->
  forallb (fun v => negb (is_str v)) (column_cells data i) = true ->
  (exists h,
     plot_histogram data column (Some range_min) (Some range_max) bins = Ok h
     /\ hist_x h = filter (fun v => within range_min range_max v = true)
                          (column_cells data i))
  /\ (exists h,
        plot_histogram data column (Some range_min) None bins = Ok h
        /\ hist_x h = column_cells data i)
  /\ (exists h,
        plot_histogram data column None (Some range_max) bins = Ok h
        /\ hist_x h = column_cells data i).
Proof.
  intros _ Hi _ Hnum. unfold plot_histogram.
  rewrite !(getitem_column data column i Hi). cbn [rbind].
  split; [|split]; [|eexists; split; reflexivity ..].
  fold (column_cells data i).
  rewrite !compare_cells_numbers by done. cbn [rbind].
  rewrite (getitem_column (getitem_mask data _) column i Hi). cbn [rbind].
  eexists. split; [reflexivity|]. cbn [hist_x s_values].
  unfold getitem_mask. cbn [rows]. unfold column_cells.
  rewrite <- (masked_cells i (within range_min range_max)).
  f_equal. f_equal. f_equal. f_equal.
  rewrite !map_map. clear. induction (rows data) as [|r rws IH]; [done|].
  cbn. rewrite IH. f_equal. unfold within.
  destruct (cell i r) as [|z|]; try done.
  by rewrite Z.geb_leb.
Qed.

Lemma plot_histogram_range_witness :
  (exists h,
     plot_histogram yields "rendimiento" (Some 10) (Some 50) None = Ok h
     /\ hist_x h = filter (fun v => within 10 50 v = true)
                          (column_cells yields 1))
  /\ (exists h,
        plot_histogram yields "rendimiento" (Some 10) None None = Ok h
        /\ hist_x h = column_cells yields 1)
  /\ (exists h,
        plot_histogram yields "rendimiento" None (Some 50) None = Ok h
        /\ hist_x h = column_cells yields 1).
Proof.
  apply (plot_histogram_range yields "rendimiento" 1%nat 10 50 None);
    [apply (bool_decide_unpack _); reflexivity
    | reflexivity | reflexivity | reflexivity].
Defined.

(** *** Loading from the endpoint *)

Lemma load_all_from requests_get http_error read_json endpoints self :
  DataGovAPI.dataframe
    (DataGovAPI.load_all requests_get http_error read_json endpoints self)
  = match last (omap (loaded requests_get http_error read_json) endpoints) with
    | Some df => Some df
    | None => DataGovAPI.dataframe self
    end
  /\ length (DataGovAPI.printed
               (DataGovAPI.load_all requests_get http_error read_json endpoints self))
     = (length (DataGovAPI.printed self) + length endpoints)%nat.
Proof.
  revert self. induction endpoints as [|e es IH]; intros self.
  - cbn. split; [done | lia].
  - change (DataGovAPI.load_all requests_get http_error read_json (e :: es) self)
      with (DataGovAPI.load_all requests_get http_error read_json es
              (DataGovAPI.load_data requests_get http_error read_json e self)).
    destruct (IH (DataGovAPI.load_data requests_get http_error read_json e self))
      as [-> ->].
    cbn [omap list_omap].
    change (loaded requests_get http_error read_json e)
      with (match DataGovAPI.try_load requests_get http_error read_json e with
            | inl df => Some df
            | inr _ => None
            end).
    unfold DataGovAPI.load_data.
    destruct (DataGovAPI.try_load _ _ _ e) as [df|msg];
      cbn [DataGovAPI.dataframe DataGovAPI.printed].
    + split; [|rewrite length_app; cbn; lia].
      rewrite last_cons. by destruct (last _).
    + split; [done | rewrite length_app; cbn; lia].
Qed.

(** X15.  A load that fails does not clear the table of an earlier load.  After
    [__init__] and any sequence of calls to [load_data], none of which can
    raise, [get_dataframe] returns the table of the last call that
    succeeded, however many failed after it, and [None] when none
    succeeded; each call has printed one line. *)
Theorem load_data_keeps_last_table requests_get http_error read_json endpoints :
  DataGovAPI.get_dataframe
    (DataGovAPI.load_all requests_get http_error read_json endpoints DataGovAPI.init)
  = last (omap (loaded requests_get http_error read_json) endpoints)
  /\ length (DataGovAPI.printed
               (DataGovAPI.load_all requests_get http_error read_json endpoints
                  DataGovAPI.init))
     = length endpoints.
Proof.
  destruct (load_all_from requests_get http_error read_json endpoints DataGovAPI.init)
    as [H1 H2].
  unfold DataGovAPI.get_dataframe. rewrite H1, H2. split; [|done].
  by destruct (last _).
Qed.

(** *** The rows the grouped table leaves out *)

Lemma ascii_compare_trans a b c :
  Ascii.compare a b <> Gt -> Ascii.compare b c <> Gt -> Ascii.compare a c <> Gt.
Proof.
  unfold Ascii.compare. rewrite !N.compare_le_iff. lia.
Qed.

Lemma ascii_compare_Eq a b : Ascii.compare a b = Eq -> a = b.
Proof. apply Ascii.compare_eq_iff. Qed.

Lemma ascii_compare_Lt_trans a b c :
  Ascii.compare a b = Lt -> Ascii.compare b c <> Gt -> Ascii.compare a c = Lt.
Proof.
  unfold Ascii.compare. rewrite !N.compare_lt_iff, N.compare_le_iff. lia.
Qed.

Lemma ascii_compare_trans_Lt a b c :
  Ascii.compare a b <> Gt -> Ascii.compare b c = Lt -> Ascii.compare a c = Lt.
Proof.
  unfold Ascii.compare. rewrite !N.compare_lt_iff, N.compare_le_iff. lia.
Qed.

Lemma string_compare_trans s1 s2 s3 :
  String.compare s1 s2 <> Gt -> String.compare s2 s3 <> Gt ->
  String.compare s1 s3 <> Gt.
Proof.
  revert s2 s3. induction s1 as [|a s1 IH]; intros [|b s2] [|c s3]; cbn; try done.
  destruct (Ascii.compare a b) eqn:Eab; [| |done].
  - apply ascii_compare_Eq in Eab as ->.
    destruct (Ascii.compare b c) eqn:Ebc; [|done|done]. apply IH.
  - intros _ Hbc.
    assert (Ascii.compare b c <> Gt) as Hbc'
      by (destruct (Ascii.compare b c); done).
    by rewrite (ascii_compare_Lt_trans a b c Eab Hbc').
Qed.

Lemma string_leb_trans s1 s2 s3 :
  String.leb s1 s2 = true -> String.leb s2 s3 = true -> String.leb s1 s3 = true.
Proof.
  unfold String.leb. intros H12 H23.
  pose proof (string_compare_trans s1 s2 s3) as H.
  destruct (String.compare s1 s2), (String.compare s2 s3),
    (String.compare s1 s3); try done; exfalso; by apply H.
Qed.

Lemma value_leb_trans a b c :
  value_leb a b = true -> value_leb b c = true -> value_leb a c = true.
Proof.
  destruct a as [x|x|], b as [y|y|], c as [z|z|]; cbn; try done.
  - apply string_leb_trans.
  - rewrite !Z.leb_le. lia.
Qed.

Lemma Sorted_split {A} (R : A -> A -> Prop) n (l : list A) :
  (forall x y z, R x y -> R y z -> R x z) ->
  Sorted R l ->
  forall x y, x ∈ take n l -> y ∈ drop n l -> R x y.
Proof.
  intros Htrans Hs. apply Sorted_StronglySorted in Hs; [|exact Htrans].
  revert n. induction Hs as [|a l Hs IH Ha]; intros n x y.
  - rewrite take_nil. by intros ?%elem_of_nil.
  - destruct n as [|n]; [by intros ?%elem_of_nil|]. cbn.
    intros [->|Hx]%elem_of_cons Hy.
    + rewrite Forall_forall in Ha. apply Ha.
      by eapply (subseteq_drop n l).
    + by apply (IH n).
Qed.

(** X16.  The rows [grouped_table] returns are the top ones, on a table
    whose column labels are distinct, with group-by columns and aggregation
    names none of which is "index".  Asked for [n] rows
    and then for [m >= n] rows of the same grouping, it returns the first
    time the first [n] rows of what it returns the second time; and every
    row it returned the first time has, in the sort column, a value at
    least as large as every row that only the second call returned (a
    missing value counting as the smallest). *)
Theorem grouped_table_top_rows data group_by_columns aggregation_columns
    sort_by_column n m out_n out_m :
  NoDup (columns data) ->
  "index" ∉ group_by_columns ++ aggregation_columns.*1 ->
  0 <= n <= m ->
  grouped_table data group_by_columns aggregation_columns sort_by_column (Some n)
  = Ok out_n ->
  grouped_table data group_by_columns aggregation_columns sort_by_column (Some m)
  = Ok out_m ->
  rows out_n = take (Z.to_nat n) (rows out_m)
  /\ exists i,
       index_of sort_by_column (columns out_m) = Some i
       /\ forall r r', r ∈ rows out_n -> r' ∈ drop (Z.to_nat n) (rows out_m) ->
                       descending i r r'.
Proof.
  intros _ Hidx Hnm Hn Hm.
  destruct (grouped_table_steps _ _ _ _ _ _ Hidx Hn)
    as (g1 & g & i & _ & _ & Hi & Hrows & Hall).
  assert (Sorted (descending i) (rows g)) as Hsorted.
  { rewrite Hrows.
    apply (Sorted_sort_by (fun r1 r2 => value_leb (cell i r2) (cell i r1))).
    intros x y. apply value_leb_total. }
  rewrite Hall in Hn, Hm. cbn [default] in Hn, Hm.
  injection Hn as <-. injection Hm as <-.
  unfold head. rewrite !(proj2 (Z.leb_le 0 _)) by lia. cbn [rows header].
  split; [|exists i; split; [done|]].
  - rewrite take_take. f_equal. lia.
  - intros r r' Hr Hr'.
    apply (Sorted_split (descending i) (Z.to_nat n) (rows g)); [|done|done|].
    + unfold descending. intros x y z Hxy Hyz. by eapply value_leb_trans.
    + rewrite <- (take_drop (Z.to_nat m) (rows g)), drop_app.
      apply elem_of_app. by left.
Qed.

Lemma grouped_table_top_rows_witness :
  rows (mkDF [("anio", DNumber); ("registros", DNumber)] [[VNum 2020; VNum 2]])
  = take (Z.to_nat 1)
      (rows (mkDF [("anio", DNumber); ("registros", DNumber)]
                  [[VNum 2020; VNum 2]; [VNum 2021; VNum 1]]))
  /\ exists i,
       index_of "registros"
         (columns (mkDF [("anio", DNumber); ("registros", DNumber)]
                        [[VNum 2020; VNum 2]; [VNum 2021; VNum 1]])) = Some i
       /\ forall r r',
            r ∈ rows (mkDF [("anio", DNumber); ("registros", DNumber)]
                           [[VNum 2020; VNum 2]]) ->
            r' ∈ drop (Z.to_nat 1)
                   (rows (mkDF [("anio", DNumber); ("registros", DNumber)]
                               [[VNum 2020; VNum 2]; [VNum 2021; VNum 1]])) ->
            descending i r r'.
Proof.
  apply (grouped_table_top_rows harvests ["anio"] yearly_records "registros" 1 2);
    [apply (bool_decide_unpack _); reflexivity
    | apply (bool_decide_unpack _); reflexivity
    | lia | reflexivity | reflexivity].
Defined.
